(** * Prompt-to-screen generation pipeline

    A shallow embedding of the screen-generation endpoint (the route
    handler with [extractJSON], given in src/app/api/chat/route.ts after
    the chat handler): the response
    extractor [extractJSON], the fallback synthesizer
    [generateFallbackHTML], the orchestrator [generateScreenData] and the
    request handler [POST], together with the parts of the JavaScript
    runtime they rely on ([JSON.parse], [String.prototype.match] with the
    five regular expressions of the file, truthiness, [||]) and the
    in-memory rate limiter of src/lib/rate-limit.ts.  The chat handler of
    the same file ([generateResponse] with its clean-up of the answer,
    [chatBodySchema] and its [POST]) follows the generation endpoint. *)

From Stdlib Require Import String Ascii ZArith NArith Lia.
From stdpp Require Import gmap list fin_maps.

#[local] Set Warnings "-register-all".

Local Open Scope N_scope.

(** ** JavaScript strings

    A JavaScript string is a sequence of UTF-16 code units.  A code unit is
    a number below 65536; nothing below depends on that bound, so code
    units are plain [N]. *)

Abbreviation jsstring := (list N).

(** [lit] turns a Rocq string literal into a JavaScript string. *)
Definition lit (s : string) : jsstring :=
  map N_of_ascii (list_ascii_of_string s).

(** [litq] is [lit] for literals that contain double quotes: in the
    literal an apostrophe (39) stands for the double quote (34).  None of
    the source texts written with [litq] contains an apostrophe. *)
Definition litq (s : string) : jsstring :=
  map (fun c => if c =? 39 then 34 else c) (lit s).

Definition str_eqb (a b : jsstring) : bool := bool_decide (a = b).

(** [s.slice(0, n)] for [0 <= n]. *)
Definition slice0 (n : nat) (s : jsstring) : jsstring := take n s.

(** [parts.join(sep)] *)
Fixpoint join (sep : jsstring) (parts : list jsstring) : jsstring :=
  match parts with
  | [] => []
  | [p] => p
  | p :: ps => p ++ sep ++ join sep ps
  end.

(** Decidable substring test, used to state containment properties. *)
Fixpoint is_prefix (p s : jsstring) : bool :=
  match p, s with
  | [], _ => true
  | _ :: _, [] => false
  | a :: p', b :: s' => (a =? b) && is_prefix p' s'
  end.

Fixpoint contains (p s : jsstring) : bool :=
  is_prefix p s ||
  match s with
  | [] => false
  | _ :: s' => contains p s'
  end.

(** ** JavaScript values

    TypeScript types are erased at run time: [JSON.parse] returns whatever
    the text denotes, so the values that flow through [extractJSON] and
    [generateScreenData] are arbitrary JSON values (and [undefined], the
    result of reading a property that is not there). *)

(** A JSON number literal denotes [(-1)^neg * mant * 10^exp10]. *)
Record JNumber := mkNum { neg : bool; mant : N; exp10 : Z }.

Inductive Value :=
| VUndefined
| VNull
| VBool (b : bool)
| VNum (n : JNumber)
| VStr (s : jsstring)
| VArr (l : list Value)
| VObj (members : list (jsstring * Value)).

(** The literal's value rounds to (plus or minus) zero as an IEEE double
    exactly when it is at most 2^-1075, half the smallest subnormal. *)
Definition num_is_zero (n : JNumber) : bool :=
  (mant n =? 0) ||
  ((exp10 n <? 0)%Z &&
   (Z.of_N (mant n) * 2 ^ 1075 <=? 10 ^ (- exp10 n))%Z).

(** ToBoolean.  A JSON number is never NaN. *)
Definition truthy (v : Value) : bool :=
  match v with
  | VUndefined | VNull => false
  | VBool b => b
  | VNum n => negb (num_is_zero n)
  | VStr s => negb (bool_decide (s = []))
  | VArr _ | VObj _ => true
  end.

(** [a || b] *)
Definition js_or (a b : Value) : Value := if truthy a then a else b.

(** [a === b] where [b] is a string. *)
Definition strict_eq_str (a : Value) (b : jsstring) : bool :=
  match a with
  | VStr s => str_eqb s b
  | _ => false
  end.

(** Own data property of an object created by [JSON.parse]: members are
    kept in source order and a later duplicate key overwrites an earlier
    one. *)
Fixpoint lookup_last (k : jsstring) (ms : list (jsstring * Value))
  : option Value :=
  match ms with
  | [] => None
  | (k', v) :: ms' =>
      match lookup_last k ms' with
      | Some v' => Some v'
      | None => if str_eqb k' k then Some v else None
      end
  end.

(** [v.key] for a value [v] that is neither [null] nor [undefined] and a
    key that no prototype defines (the four ScreenData keys and the three
    request keys are such): the own property if [v] is an object that has
    it, [undefined] otherwise. *)
Definition get_prop (v : Value) (key : jsstring) : Value :=
  match v with
  | VObj ms => default VUndefined (lookup_last key ms)
  | _ => VUndefined
  end.

(** ** [JSON.parse]

    The JSON grammar of ECMA-404 as [JSON.parse] reads it: white space is
    space, tab, line feed and carriage return; a string may hold any code
    unit from 32 up except the quote and the backslash, and an escape: a
    backslash followed by a quote, a backslash, a slash, one of the
    letters b f n r t, or u and four hexadecimal digits; a number is
    an optional minus sign, an integer part (a single 0, or a non-zero
    digit and further digits), an optional fraction (a dot and at least one
    digit) and an optional exponent (e or E, an optional sign and at least
    one digit). *)

Module Json.

Inductive presult (A : Type) :=
| POk (a : A) (rest : jsstring)
| PErr      (* the text is not JSON: [JSON.parse] throws a SyntaxError *)
| PFuel.    (* the recursion bound was reached (never with enough fuel) *)
Arguments POk {A} a rest.
Arguments PErr {A}.
Arguments PFuel {A}.

Definition is_ws (c : N) : bool :=
  (c =? 32) || (c =? 9) || (c =? 10) || (c =? 13).

Fixpoint skip_ws (s : jsstring) : jsstring :=
  match s with
  | c :: s' => if is_ws c then skip_ws s' else s
  | [] => []
  end.

Definition is_digit (c : N) : bool := (48 <=? c) && (c <=? 57).

(** Whether the text starts with the character [c]. *)
Definition starts_with (c : N) (s : jsstring) : bool :=
  match s with
  | d :: _ => d =? c
  | [] => false
  end.

Definition hex_val (c : N) : option N :=
  if (48 <=? c) && (c <=? 57) then Some (c - 48)
  else if (97 <=? c) && (c <=? 102) then Some (c - 87)
  else if (65 <=? c) && (c <=? 70) then Some (c - 55)
  else None.

Definition hex4 (a b c d : N) : option N :=
  match hex_val a, hex_val b, hex_val c, hex_val d with
  | Some x, Some y, Some z, Some w => Some (((x * 16 + y) * 16 + z) * 16 + w)
  | _, _, _, _ => None
  end.

(** The code unit a one-letter escape stands for. *)
Definition unescape (e : N) : option N :=
  if e =? 34 then Some 34            (* quote *)
  else if e =? 92 then Some 92       (* backslash *)
  else if e =? 47 then Some 47       (* slash *)
  else if e =? 98 then Some 8        (* b *)
  else if e =? 102 then Some 12      (* f *)
  else if e =? 110 then Some 10      (* n *)
  else if e =? 114 then Some 13      (* r *)
  else if e =? 116 then Some 9       (* t *)
  else None.

(** The characters of a string literal after its opening quote, up to and
    including the closing quote. *)
Fixpoint parse_string_body (s : jsstring) : option (jsstring * jsstring) :=
  match s with
  | [] => None
  | c :: s1 =>
      if c =? 34 then Some ([], s1)
      else if c =? 92 then
        match s1 with
        | [] => None
        | e :: s2 =>
            if e =? 117 then
              match s2 with
              | h1 :: h2 :: h3 :: h4 :: s3 =>
                  match hex4 h1 h2 h3 h4 with
                  | Some u =>
                      match parse_string_body s3 with
                      | Some (str, rest) => Some (u :: str, rest)
                      | None => None
                      end
                  | None => None
                  end
              | _ => None
              end
            else
              match unescape e with
              | Some u =>
                  match parse_string_body s2 with
                  | Some (str, rest) => Some (u :: str, rest)
                  | None => None
                  end
              | None => None
              end
        end
      else if c <? 32 then None
      else
        match parse_string_body s1 with
        | Some (str, rest) => Some (c :: str, rest)
        | None => None
        end
  end.

(** A run of digits: the number they spell when appended to [acc], how
    many there are, and what follows. *)
Fixpoint parse_digits (acc : N) (s : jsstring) : N * nat * jsstring :=
  match s with
  | c :: s' =>
      if is_digit c then
        let '(n, k, rest) := parse_digits (acc * 10 + (c - 48)) s' in
        (n, S k, rest)
      else (acc, O, s)
  | [] => (acc, O, [])
  end.

(** The integer part: a single [0], or a non-zero digit and more digits. *)
Definition parse_int (s : jsstring) : option (N * jsstring) :=
  match s with
  | c :: s' =>
      if c =? 48 then Some (0, s')
      else if is_digit c then
        let '(n, _, rest) := parse_digits (c - 48) s' in Some (n, rest)
      else None
  | [] => None
  end.

(** The optional fraction: the mantissa extended by the fraction digits
    and the number of those digits. *)
Definition parse_frac (m : N) (s : jsstring) : option (N * nat * jsstring) :=
  if starts_with 46 s then
    match parse_digits m (tl s) with
    | (_, O, _) => None
    | (n, k, rest) => Some (n, k, rest)
    end
  else Some (m, O, s).

(** The optional exponent. *)
Definition parse_exp (s : jsstring) : option (Z * jsstring) :=
  if starts_with 101 s || starts_with 69 s then
    let s1 := tl s in
    let '(sign, s2) :=
      if starts_with 43 s1 then (1%Z, tl s1)
      else if starts_with 45 s1 then ((-1)%Z, tl s1)
      else (1%Z, s1) in
    match parse_digits 0 s2 with
    | (_, O, _) => None
    | (n, _, rest) => Some ((sign * Z.of_N n)%Z, rest)
    end
  else Some (0%Z, s).

Definition parse_number (s : jsstring) : option (JNumber * jsstring) :=
  let '(sg, s1) :=
    if starts_with 45 s then (true, tl s) else (false, s) in
  match parse_int s1 with
  | None => None
  | Some (i, s2) =>
      match parse_frac i s2 with
      | None => None
      | Some (m, k, s3) =>
          match parse_exp s3 with
          | None => None
          | Some (e, s4) => Some (mkNum sg m (e - Z.of_nat k), s4)
          end
      end
  end.

(** [true], [false] and [null]. *)
Definition parse_keyword (s : jsstring) : option (Value * jsstring) :=
  if is_prefix (lit "true") s then Some (VBool true, drop 4 s)
  else if is_prefix (lit "false") s then Some (VBool false, drop 5 s)
  else if is_prefix (lit "null") s then Some (VNull, drop 4 s)
  else None.

Definition of_option {A} (o : option (A * jsstring)) : presult A :=
  match o with
  | Some (a, rest) => POk a rest
  | None => PErr
  end.

(** A value, with the white space before it.  [parse_elements] reads what
    follows an element of an array (a comma and a further element, or the
    closing bracket), [parse_member] a member of an object from just after
    the opening quote of its key, and what follows it; both take the items
    read so far, latest first. *)
Fixpoint parse_value (fuel : nat) (s : jsstring) : presult Value :=
  match fuel with
  | O => PFuel
  | S fuel' =>
      let t := skip_ws s in
      if starts_with 123 t then                        (* { *)
        let u := skip_ws (tl t) in
        if starts_with 125 u then POk (VObj []) (tl u)
        else if starts_with 34 u then parse_member fuel' (tl u) []
        else PErr
      else if starts_with 91 t then                    (* [ *)
        let u := skip_ws (tl t) in
        if starts_with 93 u then POk (VArr []) (tl u)
        else
          match parse_value fuel' (tl t) with
          | POk v rest => parse_elements fuel' rest [v]
          | PErr => PErr
          | PFuel => PFuel
          end
      else if starts_with 34 t then
        match parse_string_body (tl t) with
        | Some (str, rest) => POk (VStr str) rest
        | None => PErr
        end
      else if starts_with 45 t || match t with
                                  | c :: _ => is_digit c
                                  | [] => false
                                  end then
        match parse_number t with
        | Some (n, rest) => POk (VNum n) rest
        | None => PErr
        end
      else of_option (parse_keyword t)
  end
with parse_elements (fuel : nat) (s : jsstring) (acc : list Value)
  : presult Value :=
  match fuel with
  | O => PFuel
  | S fuel' =>
      let t := skip_ws s in
      if starts_with 93 t then POk (VArr (rev acc)) (tl t)
      else if starts_with 44 t then
        match parse_value fuel' (tl t) with
        | POk v rest => parse_elements fuel' rest (v :: acc)
        | PErr => PErr
        | PFuel => PFuel
        end
      else PErr
  end
with parse_member (fuel : nat) (s : jsstring)
       (acc : list (jsstring * Value)) : presult Value :=
  match fuel with
  | O => PFuel
  | S fuel' =>
      match parse_string_body s with
      | None => PErr
      | Some (key, s1) =>
          let t := skip_ws s1 in
          if starts_with 58 t then
            match parse_value fuel' (tl t) with
            | POk v rest =>
                let u := skip_ws rest in
                if starts_with 125 u then
                  POk (VObj (rev ((key, v) :: acc))) (tl u)
                else if starts_with 44 u then
                  let u' := skip_ws (tl u) in
                  if starts_with 34 u' then
                    parse_member fuel' (tl u') ((key, v) :: acc)
                  else PErr
                else PErr
            | PErr => PErr
            | PFuel => PFuel
            end
          else PErr
      end
  end.

(** [JSON.parse(text)]: [None] when it throws.  Every recursive call of
    the parser is on a strictly shorter text, so the length of the text
    (plus one) is enough fuel; see [parse_value_fuel]. *)
Definition parse (text : jsstring) : option Value :=
  match parse_value (S (length text)) text with
  | POk v rest =>
      match skip_ws rest with
      | [] => Some v
      | _ :: _ => None
      end
  | _ => None
  end.

End Json.

(** ** Regular expressions and [String.prototype.match]

    The backtracking matcher of ECMA-262 (22.2.2) for the constructs the
    five regular expressions of the file use: a matcher takes the text at
    the current position, the capture and a continuation, and tries its
    alternatives in priority order.  The expressions have no assertions and
    no back-references, so a match from position [i] depends only on the
    text from [i] on. *)

Module Regex.

Inductive cclass :=
| CChar (c : N)     (* a literal character *)
| CNot (c : N)      (* [^c] *)
| CSpace            (* \s *)
| CAny.             (* [\s\S] *)

(** \s: WhiteSpace and LineTerminator of ECMA-262. *)
Definition is_space (c : N) : bool :=
  (c =? 9) || (c =? 10) || (c =? 11) || (c =? 12) || (c =? 13) ||
  (c =? 32) || (c =? 160) || (c =? 5760) ||
  ((8192 <=? c) && (c <=? 8202)) ||
  (c =? 8232) || (c =? 8233) || (c =? 8239) || (c =? 8287) ||
  (c =? 12288) || (c =? 65279).

Definition in_class (cl : cclass) (c : N) : bool :=
  match cl with
  | CChar x => c =? x
  | CNot x => negb (c =? x)
  | CSpace => is_space c
  | CAny => true
  end.

Inductive regex :=
| Eps
| Class (cl : cclass)
| Seq (r1 r2 : regex)
| Alt (r1 r2 : regex)
| Star (r : regex)        (* r*  : greedy *)
| LazyStar (r : regex)    (* r*? : lazy *)
| Group (r : regex).      (* (r) : the capture group of the expression *)

(** [r?].  The optional parts of the expressions never match the empty
    string, so the empty-iteration check of the repeat matcher is moot. *)
Definition Opt (r : regex) : regex := Alt r Eps.

Fixpoint Str (s : jsstring) : regex :=
  match s with
  | [] => Eps
  | [c] => Class (CChar c)
  | c :: s' => Seq (Class (CChar c)) (Str s')
  end.

Fixpoint Seqs (rs : list regex) : regex :=
  match rs with
  | [] => Eps
  | [r] => r
  | r :: rs' => Seq r (Seqs rs')
  end.

Section Matcher.
Context {R : Type}.

(** The continuation gets the text that is left and the capture. *)
Definition cont := jsstring -> option jsstring -> option R.

Definition or_else (a : option R) (b : option R) : option R :=
  match a with
  | Some x => Some x
  | None => b
  end.

(** [r1*] from [s], where [step] is the matcher of [r1]: one more
    iteration first, the continuation otherwise.  An iteration that
    consumes nothing fails (RepeatMatcher, step 2.b), so at most
    [length s] iterations start from [s]; [n] counts them down. *)
Fixpoint star_loop (step : jsstring -> option jsstring -> cont -> option R)
    (k : cont) (n : nat) (s : jsstring) (cap : option jsstring)
  : option R :=
  match n with
  | O => k s cap
  | S n' =>
      or_else
        (step s cap (fun s' cap' =>
           if (length s' <? length s)%nat then star_loop step k n' s' cap'
           else None))
        (k s cap)
  end.

(** [r1*?]: the continuation first, one more iteration otherwise. *)
Fixpoint lazy_loop (step : jsstring -> option jsstring -> cont -> option R)
    (k : cont) (n : nat) (s : jsstring) (cap : option jsstring)
  : option R :=
  match n with
  | O => k s cap
  | S n' =>
      or_else
        (k s cap)
        (step s cap (fun s' cap' =>
           if (length s' <? length s)%nat then lazy_loop step k n' s' cap'
           else None))
  end.

Fixpoint run (r : regex) (s : jsstring) (cap : option jsstring) (k : cont)
  : option R :=
  match r with
  | Eps => k s cap
  | Class cl =>
      match s with
      | c :: s' => if in_class cl c then k s' cap else None
      | [] => None
      end
  | Seq r1 r2 => run r1 s cap (fun s' cap' => run r2 s' cap' k)
  | Alt r1 r2 => or_else (run r1 s cap k) (run r2 s cap k)
  | Star r1 => star_loop (run r1) k (length s) s cap
  | LazyStar r1 => lazy_loop (run r1) k (length s) s cap
  | Group r1 =>
      run r1 s cap (fun s' _ =>
        k s' (Some (take (length s - length s') s)))
  end.
End Matcher.

(** The result of a successful match: where it starts, the matched text
    ([m[0]]) and the capture ([m[1]]). *)
Record match_result := mkMatch {
  m_index : nat;
  m_whole : jsstring;
  m_group : option jsstring
}.

(** The first position from which [r] matches, left to right. *)
Fixpoint search (r : regex) (idx : nat) (s : jsstring) : option match_result :=
  match run r s None (fun rest cap => Some (rest, cap)) with
  | Some (rest, cap) =>
      Some (mkMatch idx (take (length s - length rest) s) cap)
  | None =>
      match s with
      | [] => None
      | _ :: s' => search r (S idx) s'
      end
  end.

(** [text.match(r)] for an expression without the g flag: [None] is
    [null]. *)
Definition js_match (r : regex) (text : jsstring) : option match_result :=
  search r 0 text.

(** The matches a g-flagged expression finds, left to right: the search
    resumes where the last match ended, one further on after an empty
    match. *)
Fixpoint match_all (fuel : nat) (r : regex) (s : jsstring) : list jsstring :=
  match fuel with
  | O => []
  | S fuel' =>
      match search r 0 s with
      | None => []
      | Some m =>
          let rest := drop (m_index m + length (m_whole m)) s in
          m_whole m ::
            match m_whole m, rest with
            | [], [] => []
            | [], _ :: rest' => match_all fuel' r rest'
            | _ :: _, _ => match_all fuel' r rest
            end
      end
  end.

(** [text.match(r)] for a g-flagged expression: [null] when there is no
    match, the array of the matched texts otherwise. *)
Definition js_match_g (r : regex) (text : jsstring) : option (list jsstring) :=
  match match_all (S (length text)) r text with
  | [] => None
  | ms => Some ms
  end.

End Regex.

Import Regex.

(** ** The regular expressions of the generation route *)

Definition any_star : regex := Star (Class CAny).
Definition spaces : regex := Star (Class CSpace).

(** [/```(?:json)?\s*\n?([\s\S]*?)\n?\s*```/] *)
Definition re_code_block : regex :=
  Seqs [ Str (lit "```"); Opt (Str (lit "json")); spaces;
         Opt (Class (CChar 10));
         Group (LazyStar (Class CAny));
         Opt (Class (CChar 10)); spaces; Str (lit "```") ].

(** [/\{[\s\S]*\}/] *)
Definition re_braces : regex :=
  Seqs [ Class (CChar 123); any_star; Class (CChar 125) ].

(** The expression that finds a field whose value has no quote in it:
    the key in double quotes, \s*, a colon, \s*, a double quote, the
    capture group (any number of characters other than the double quote,
    greedy) and a double quote.  The source has it for the keys name,
    description and cssContent. *)
Definition re_field (key : jsstring) : regex :=
  Seqs [ Class (CChar 34); Str key; Class (CChar 34); spaces;
         Class (CChar 58); spaces; Class (CChar 34);
         Group (Star (Class (CNot 34))); Class (CChar 34) ].

(** The expression for htmlContent: the key in double quotes, \s*, a
    colon, \s*, a double quote, the capture group ([[\s\S]*?], lazy), a
    double quote, and then either a comma, \s* and a double quote, or \s*
    and a closing brace. *)
Definition re_html : regex :=
  Seqs [ Class (CChar 34); Str (lit "htmlContent"); Class (CChar 34); spaces;
         Class (CChar 58); spaces; Class (CChar 34);
         Group (LazyStar (Class CAny)); Class (CChar 34);
         Alt (Seqs [ Class (CChar 44); spaces; Class (CChar 34) ])
             (Seqs [ spaces; Class (CChar 125) ]) ].

(** [/<[\s\S]*>/g] *)
Definition re_tags : regex :=
  Seqs [ Class (CChar 60); any_star; Class (CChar 62) ].

(** ** extractJSON *)

Definition k_name : jsstring := lit "name".
Definition k_description : jsstring := lit "description".
Definition k_htmlContent : jsstring := lit "htmlContent".
Definition k_cssContent : jsstring := lit "cssContent".

(** Pattern 1: the whole text is JSON.  [None]: [JSON.parse] threw and the
    function goes on. *)
Definition pattern1 (text : jsstring) : option Value := Json.parse text.

(** Pattern 2: JSON in a code block. *)
Definition pattern2 (text : jsstring) : option Value :=
  match js_match re_code_block text with
  | Some m =>
      match m_group m with
      | Some inner => Json.parse inner
      | None => None
      end
  | None => None
  end.

(** Pattern 3: from the first opening brace to the last closing brace. *)
Definition pattern3 (text : jsstring) : option Value :=
  match js_match re_braces text with
  | Some m => Json.parse (m_whole m)
  | None => None
  end.

(** [m[1]] *)
Definition group1 (m : match_result) : Value :=
  match m_group m with
  | Some g => VStr g
  | None => VUndefined
  end.

(** [m ? m[1] : ''], with double quotes in the source. *)
Definition group_or_empty (m : option match_result) : Value :=
  match m with
  | Some r => group1 r
  | None => VStr []
  end.

(** Pattern 4: the fields one by one; [VNull] is the final [return null]. *)
Definition pattern4 (text : jsstring) : Value :=
  let nameMatch := js_match (re_field k_name) text in
  let htmlMatch := js_match re_html text in
  let descMatch := js_match (re_field k_description) text in
  let cssMatch := js_match (re_field k_cssContent) text in
  match nameMatch, htmlMatch with
  | Some n, Some h =>
      VObj [ (k_name, group1 n);
             (k_description, group_or_empty descMatch);
             (k_htmlContent, group1 h);
             (k_cssContent, group_or_empty cssMatch) ]
  | _, _ => VNull
  end.

(** [extractJSON(text)]: each [return JSON.parse(...)] returns whatever the
    text denotes, an object or not. *)
Definition extractJSON (text : jsstring) : Value :=
  match pattern1 text with
  | Some v => v
  | None =>
      match pattern2 text with
      | Some v => v
      | None =>
          match pattern3 text with
          | Some v => v
          | None => pattern4 text
          end
      end
  end.

(** ** generateFallbackHTML *)

(** The template of the fallback screen before and after the interpolated
    prompt. *)
Definition fallback_head : jsstring := litq
"<div class='min-h-screen bg-gray-50 p-6'>
  <div class='max-w-md mx-auto bg-white rounded-2xl shadow-lg overflow-hidden'>
    <div class='bg-indigo-600 px-6 py-4'>
      <h1 class='text-white text-xl font-bold'>Generated Screen</h1>
    </div>
    <div class='p-6'>
      <p class='text-gray-600 mb-4'>Your request: '".

Definition fallback_tail : jsstring := litq
"'</p>
      <div class='bg-gray-100 rounded-xl p-4 text-center'>
        <p class='text-gray-500 text-sm'>AI-generated content will appear here</p>
      </div>
      <button class='mt-4 w-full bg-indigo-600 text-white py-3 rounded-xl font-medium hover:bg-indigo-700 transition-colors'>
        Action Button
      </button>
    </div>
  </div>
</div>".

(** The prompt as the template shows it; [length] and [slice] count code
    units. *)
Definition safePrompt (userPrompt : jsstring) : jsstring :=
  if (100 <? length userPrompt)%nat
  then slice0 100 userPrompt ++ lit "..."
  else userPrompt.

(** [generateFallbackHTML(userPrompt)] *)
Definition generateFallbackHTML (userPrompt : jsstring) : jsstring :=
  fallback_head ++ safePrompt userPrompt ++ fallback_tail.

(** ** The world of a request

    The handler reads and writes the database through Prisma, consults the
    process-wide rate limiter and calls the hosted model.  The state of all
    of them is one record that the handler threads through. *)

(** Modelled from the spec: the Prisma schema (prisma/schema.prisma) is
    not among the sources.  The entities have the fields the spec's data
    model lists; the content fields are strings, the canvas attributes and
    the timestamp are numbers. *)
Record Project := mkProject {
  p_userId : jsstring;
  p_name : jsstring
}.

Record Screen := mkScreen {
  s_id : jsstring;
  s_projectId : jsstring;
  s_name : jsstring;
  s_htmlContent : jsstring;
  s_cssContent : jsstring;
  s_x : Z;
  s_y : Z;
  s_width : Z;
  s_height : Z;
  s_updatedAt : Z
}.

Record PromptHistory := mkPromptHistory {
  h_projectId : jsstring;
  h_content : jsstring;
  h_role : jsstring
}.

Inductive Error :=
| ModelFailure        (* generateText rejected or timed out *)
| ParseFailure        (* Error: Could not parse AI response as JSON *)
| BodySyntaxError     (* req.json() rejected *)
| ValidationError     (* Prisma: a value of the wrong type for a column *)
| RecordNotFound      (* Prisma: update of a row that is not there *)
| UniqueConstraint    (* Prisma: create with an id that is taken *)
| WriteFailure        (* Prisma: the database rejects the write *)
| ServiceUnavailable. (* Error: AI service temporarily unavailable *)

Inductive Event :=
| EvModelCall (prompt : jsstring)
| EvConsoleError (tag : jsstring) (e : Error).

Record World := mkWorld {
  projects : gmap jsstring Project;
  screens : gmap jsstring Screen;
  promptHistory : list PromptHistory;
  limiter : gmap jsstring (list Z);      (* RateLimiter.requests *)
  events : list Event                    (* latest first *)
}.

(** What the environment decides for one request: the clock, the answer
    of the model to a prompt ([None]: the call rejects or times out), the
    id the database gives to a new screen, the schema's defaults for
    the canvas position of a new screen, and whether the database rejects
    the write of the prompt-history row (the handler awaits that write
    after the write of the screen, in the same [try] and outside any
    transaction). *)
Record Env := mkEnv {
  now : Z;
  generateText : jsstring -> option jsstring;
  newScreenId : jsstring;
  defaultX : Z;
  defaultY : Z;
  historyWriteFails : bool
}.

(** ** State and exceptions *)

Inductive Outcome (A : Type) :=
| Val (a : A)
| Throw (e : Error).
Arguments Val {A} a.
Arguments Throw {A} e.

Definition M (A : Type) : Type := World -> Outcome A * World.

Definition ret {A} (a : A) : M A := fun w => (Val a, w).

Definition throw {A} (e : Error) : M A := fun w => (Throw e, w).

Definition bind {A B} (m : M A) (k : A -> M B) : M B :=
  fun w =>
    match m w with
    | (Val a, w') => k a w'
    | (Throw e, w') => (Throw e, w')
    end.

(** [try { m } catch (e) { h e }] *)
Definition try_catch {A} (m : M A) (h : Error -> M A) : M A :=
  fun w =>
    match m w with
    | (Val a, w') => (Val a, w')
    | (Throw e, w') => h e w'
    end.

Notation "'let!' x ':=' m 'in' k" := (bind m (fun x => k))
  (at level 10, x name, m at level 100, k at level 200).
Notation "'do!' m 'in' k" := (bind m (fun _ => k))
  (at level 10, m at level 100, k at level 200).

Definition emit (e : Event) : M unit :=
  fun w => (Val tt, mkWorld (projects w) (screens w) (promptHistory w)
                            (limiter w) (e :: events w)).

(** [await generateText({ model, prompt })] *)
Definition callModel (env : Env) (prompt : jsstring) : M jsstring :=
  do! emit (EvModelCall prompt) in
  match generateText env prompt with
  | Some text => ret text
  | None => throw ModelFailure
  end.

Definition console_error (tag : jsstring) (e : Error) : M unit :=
  emit (EvConsoleError tag e).

(** ** generateScreenData *)

Record ScreenData := mkScreenData {
  name : Value;
  description : Value;
  htmlContent : Value;
  cssContent : Value
}.

(** The output contract appended to every prompt. *)
Definition output_contract : jsstring := litq
"

IMPORTANT: You must respond with ONLY a JSON object in this exact format:
{'name': 'Screen Name', 'description': 'Brief description', 'htmlContent': '<complete html code with tailwind classes>', 'cssContent': ''}

Do NOT include markdown code blocks, explanations, or any other text. Just return the JSON object.".

(** The system prompt of the endpoint. *)
Definition systemPrompt : jsstring := lit
"
      You are an expert mobile app UI designer.
      Generate a beautiful, modern mobile screen design.

      Requirements:
      - Use Tailwind CSS for all styling
      - Mobile width: 375px
      - Modern UI: rounded corners, soft shadows, ample whitespace
      - Good contrast and accessibility
    ".

Definition generated_screen : jsstring := lit "Generated Screen".

(** The part of the [try] after [if (parsed)]: the last resort, which
    extracts HTML directly or throws. *)
Definition last_resort (text : jsstring) : M ScreenData :=
  match js_match_g re_tags text with
  | Some htmlOnly =>
      ret (mkScreenData
             (VStr generated_screen)
             (VStr (lit "Generated from AI response"))
             (VStr (join [10] (take 5 htmlOnly)))
             (VStr []))
  | None => throw ParseFailure
  end.

(** The [catch]: return fallback instead of throwing. *)
Definition on_failure (prompt : jsstring) (e : Error) : M ScreenData :=
  do! console_error (lit "[Generate] Minimax failed:") e in
  ret (mkScreenData
         (VStr generated_screen)
         (VStr (lit "Generated from prompt"))
         (VStr (generateFallbackHTML prompt))
         (VStr [])).

Definition fullPrompt (systemPrompt prompt : jsstring) : jsstring :=
  systemPrompt ++ [10; 10] ++ prompt ++ output_contract.

Definition generateScreenData (env : Env) (prompt systemPrompt : jsstring)
  : M ScreenData :=
  try_catch
    (let! text := callModel env (fullPrompt systemPrompt prompt) in
     let parsed := extractJSON text in
     if truthy parsed then
       ret (mkScreenData
              (js_or (get_prop parsed k_name) (VStr generated_screen))
              (js_or (get_prop parsed k_description) (VStr []))
              (js_or (get_prop parsed k_htmlContent)
                     (VStr (generateFallbackHTML prompt)))
              (js_or (get_prop parsed k_cssContent) (VStr [])))
     else last_resort text)
    (on_failure prompt).

(** ** The rate limiter (src/lib/rate-limit.ts) *)

Record RateLimitConfig := mkConfig {
  cfg_requests : nat;
  cfg_windowMs : Z
}.

(** [RATE_LIMITS.strict] *)
Definition RATE_LIMITS_strict : RateLimitConfig := mkConfig 10 60000.

(** [RateLimiter.cleanup] *)
Definition cleanup (now : Z) (m : gmap jsstring (list Z))
  : gmap jsstring (list Z) :=
  let oldestWindow := (now - 300000)%Z in
  omap (fun timestamps : list Z =>
          let validTimestamps :=
            filter (fun t => (oldestWindow < t)%Z) timestamps in
          if bool_decide (validTimestamps = []) then None
          else Some validTimestamps) m.

(** [RateLimiter.check]: whether the request is allowed, and the store
    afterwards. *)
Definition check (identifier : jsstring) (config : RateLimitConfig)
    (now : Z) (m : gmap jsstring (list Z)) : bool * gmap jsstring (list Z) :=
  let windowStart := (now - cfg_windowMs config)%Z in
  let userRequests := default [] (m !! identifier) in
  let userRequests := filter (fun t => (windowStart < t)%Z) userRequests in
  if (cfg_requests config <=? length userRequests)%nat then (false, m)
  else
    let m' := <[identifier := userRequests ++ [now]]> m in
    (true, if 10000 <? N.of_nat (size m') then cleanup now m' else m').

(** What the handler reads of a request: three headers, the user id the
    identity provider resolves the session to ([auth()]) and the text of
    the body. *)
Record Request := mkRequest {
  hdr_clerkUserId : option jsstring;     (* x-clerk-auth-user-id *)
  hdr_forwardedFor : option jsstring;    (* x-forwarded-for *)
  hdr_realIp : option jsstring;          (* x-real-ip *)
  session : option jsstring;
  body : jsstring
}.

Fixpoint trimStart (s : jsstring) : jsstring :=
  match s with
  | c :: s' => if Regex.is_space c then trimStart s' else s
  | [] => []
  end.

(** [s.trim()] *)
Definition trim (s : jsstring) : jsstring :=
  rev (trimStart (rev (trimStart s))).

(** [s.split(',')[0]] *)
Fixpoint first_field (s : jsstring) : jsstring :=
  match s with
  | c :: s' => if c =? 44 then [] else c :: first_field s'
  | [] => []
  end.

Definition nonempty (o : option jsstring) : option jsstring :=
  match o with
  | Some (c :: s) => Some (c :: s)
  | _ => None
  end.

(** [getIdentifier(req)] *)
Definition getIdentifier (req : Request) : jsstring :=
  match nonempty (hdr_clerkUserId req) with
  | Some clerkUserId => lit "user:" ++ clerkUserId
  | None =>
      let forwarded :=
        match hdr_forwardedFor req with
        | Some f => nonempty (Some (trim (first_field f)))
        | None => None
        end in
      let ip :=
        match forwarded with
        | Some ip => ip
        | None => default (lit "anonymous") (nonempty (hdr_realIp req))
        end in
      lit "ip:" ++ ip
  end.

(** ** The generation endpoint *)

Inductive Body :=
| BError (error : jsstring)              (* { error } *)
| BInvalid                               (* { error, details } of a 400 *)
| BRateLimited                           (* { error, message, retryAfter } *)
| BSuccess (screen : Screen) (fallback : Value).   (* { screen, fallback } *)

Record Response := mkResponse {
  status : nat;
  resp_body : Body
}.

Definition set_limiter (l : gmap jsstring (list Z)) (w : World) : World :=
  mkWorld (projects w) (screens w) (promptHistory w) l (events w).

Definition set_screens (s : gmap jsstring Screen) (w : World) : World :=
  mkWorld (projects w) s (promptHistory w) (limiter w) (events w).

Definition set_promptHistory (h : list PromptHistory) (w : World) : World :=
  mkWorld (projects w) (screens w) h (limiter w) (events w).

(** [rateLimit(config)(req)]: the 429 response when the limit is reached,
    [None] (the source's [null]) when the request may proceed. *)
Definition rateLimit (config : RateLimitConfig) (env : Env) (req : Request)
  : World -> option Response * World :=
  fun w =>
    let identifier := getIdentifier req in
    let '(allowed, l) := check identifier config (now env) (limiter w) in
    (if allowed then None else Some (mkResponse 429 BRateLimited),
     set_limiter l w).

(** [generateBodySchema.safeParse(body)]: projectId and prompt are strings
    of at least one code unit, screenId is a string or absent.  [None]:
    the validation failed. *)
Definition generateBodySchema (b : Value)
  : option (jsstring * jsstring * option jsstring) :=
  match b with
  | VObj _ =>
      match get_prop b (lit "projectId"), get_prop b (lit "prompt") with
      | VStr (c :: projectId), VStr (d :: prompt) =>
          match get_prop b (lit "screenId") with
          | VUndefined => Some (c :: projectId, d :: prompt, None)
          | VStr screenId => Some (c :: projectId, d :: prompt, Some screenId)
          | _ => None
          end
      | _, _ => None
      end
  | _ => None
  end.

(** [await req.json()] *)
Definition req_json (req : Request) : M Value :=
  match Json.parse (body req) with
  | Some v => ret v
  | None => throw BodySyntaxError
  end.

(** [prisma.project.findUnique({ where: { id } })] *)
Definition project_findUnique (id : jsstring) : M (option Project) :=
  fun w => (Val (projects w !! id), w).

(** A value for a string column. *)
Definition as_string (v : Value) : option jsstring :=
  match v with
  | VStr s => Some s
  | _ => None
  end.

(** [prisma.screen.update({ where: { id }, data: { name, htmlContent,
    cssContent, updatedAt } })] *)
Definition screen_update (id : jsstring) (name htmlContent cssContent : Value)
    (updatedAt : Z) : M Screen :=
  fun w =>
    match as_string name, as_string htmlContent, as_string cssContent with
    | Some n, Some h, Some c =>
        match screens w !! id with
        | Some old =>
            let new :=
              mkScreen (s_id old) (s_projectId old) n h c
                       (s_x old) (s_y old) (s_width old) (s_height old)
                       updatedAt in
            (Val new, set_screens (<[id := new]> (screens w)) w)
        | None => (Throw RecordNotFound, w)
        end
    | _, _, _ => (Throw ValidationError, w)
    end.

(** [prisma.screen.create({ data: { projectId, name, htmlContent,
    cssContent, width, height } })] *)
Definition screen_create (env : Env) (projectId : jsstring)
    (name htmlContent cssContent : Value) (width height : Z) : M Screen :=
  fun w =>
    match as_string name, as_string htmlContent, as_string cssContent with
    | Some n, Some h, Some c =>
        let id := newScreenId env in
        match screens w !! id with
        | None =>
            let new :=
              mkScreen id projectId n h c (defaultX env) (defaultY env)
                       width height (now env) in
            (Val new, set_screens (<[id := new]> (screens w)) w)
        | Some _ => (Throw UniqueConstraint, w)
        end
    | _, _, _ => (Throw ValidationError, w)
    end.

(** [prisma.promptHistory.create({ data: { projectId, content, role } })]:
    the row is appended, or the database rejects the write and nothing is
    appended. *)
Definition promptHistory_create (env : Env) (projectId content role : jsstring)
  : M unit :=
  fun w =>
    if historyWriteFails env then (Throw WriteFailure, w)
    else
      (Val tt,
       set_promptHistory
         (promptHistory w ++ [mkPromptHistory projectId content role]) w).

Definition json (status : nat) (b : Body) : M Response :=
  ret (mkResponse status b).

(** [screenData.name === 'Generated Screen' ? true : undefined], with
    double quotes in the source. *)
Definition fallback_flag (screenData : ScreenData) : Value :=
  if strict_eq_str (name screenData) generated_screen then VBool true
  else VUndefined.

(** The prompt the handler passes to [generateScreenData]. *)
Definition screen_prompt (project : Project) (prompt : jsstring) : jsstring :=
  lit "Project: " ++ p_name project ++ [10] ++ lit "Request: " ++ prompt.

(** The body of the handler's [try]. *)
Definition handle (env : Env) (req : Request) : M Response :=
  let userId := session req in
  match nonempty userId with
  | None => json 401 (BError (lit "Unauthorized"))
  | Some userId =>
      let! body := req_json req in
      match generateBodySchema body with
      | None => json 400 BInvalid
      | Some (projectId, prompt, screenId) =>
          (* Verify project ownership *)
          let! project := project_findUnique projectId in
          match project with
          | None => json 404 (BError (lit "Project not found"))
          | Some project =>
              if negb (str_eqb (p_userId project) userId) then
                json 403 (BError (lit "Unauthorized"))
              else
                let! screenData :=
                  generateScreenData env (screen_prompt project prompt)
                    systemPrompt in
                (* Handle update or create *)
                let! screen :=
                  match nonempty screenId with
                  | Some screenId =>
                      screen_update screenId (name screenData)
                        (htmlContent screenData) (cssContent screenData)
                        (now env)
                  | None =>
                      screen_create env projectId (name screenData)
                        (htmlContent screenData) (cssContent screenData)
                        375 812
                  end in
                (* Log the prompt *)
                do! promptHistory_create env projectId prompt (lit "user") in
                json 200 (BSuccess screen (fallback_flag screenData))
          end
      end
  end.

(** [POST(req)]: the rate limit first, then the [try] whose [catch] turns
    whatever is thrown into the 500 response. *)
Definition POST (env : Env) (req : Request) (w : World) : Response * World :=
  match rateLimit RATE_LIMITS_strict env req w with
  | (Some rateLimitResponse, w1) => (rateLimitResponse, w1)
  | (None, w1) =>
      match handle env req w1 with
      | (Val response, w2) => (response, w2)
      | (Throw error, w2) =>
          (mkResponse 500 (BError (lit "Failed to generate screen")),
           snd (console_error (lit "[Generate] Error:") error w2))
      end
  end.

(** ** Notions of the specification *)

(** Escaping for safe embedding in HTML, as the specification words it for
    the fallback synthesizer: the characters that are special in HTML text
    and attribute values become character references.  The source has no
    such function; this one is what the claim about escaping is measured
    against. *)
Fixpoint spec_escape_html (s : jsstring) : jsstring :=
  match s with
  | [] => []
  | c :: s' =>
      (if c =? 38 then lit "&amp;"
       else if c =? 60 then lit "&lt;"
       else if c =? 62 then lit "&gt;"
       else if c =? 34 then lit "&quot;"
       else if c =? 39 then lit "&#39;"
       else [c]) ++ spec_escape_html s'
  end.

(** The fallback synthesizer as the specification describes it: the
    truncated prompt, escaped, in the template. *)
Definition spec_synthesize (prompt : jsstring) : jsstring :=
  fallback_head ++ spec_escape_html (safePrompt prompt) ++ fallback_tail.

(** The well-formed structured serialization of a record of the four
    string fields: what [JSON.stringify] produces for it.  A string is
    quoted as QuoteJSONString (ECMA-262, 25.5.2.3) does: the quote and the
    backslash are escaped with a backslash, backspace, tab, line feed, form
    feed and carriage return become the letter escapes, the other code
    units below 32 and the surrogates that are not part of a pair become u
    escapes with four lower-case hexadecimal digits. *)
Definition hex_digit (d : N) : N := if d <? 10 then 48 + d else 87 + d.

Definition unicode_escape (c : N) : jsstring :=
  [ 92; 117; hex_digit (c / 4096 mod 16); hex_digit (c / 256 mod 16);
    hex_digit (c / 16 mod 16); hex_digit (c mod 16) ].

Definition is_high_surrogate (c : N) : bool := (55296 <=? c) && (c <=? 56319).
Definition is_low_surrogate (c : N) : bool := (56320 <=? c) && (c <=? 57343).

Fixpoint quote_body (s : jsstring) : jsstring :=
  match s with
  | [] => []
  | c :: s' =>
      if c =? 34 then 92 :: 34 :: quote_body s'
      else if c =? 92 then 92 :: 92 :: quote_body s'
      else if c =? 8 then 92 :: 98 :: quote_body s'
      else if c =? 9 then 92 :: 116 :: quote_body s'
      else if c =? 10 then 92 :: 110 :: quote_body s'
      else if c =? 12 then 92 :: 102 :: quote_body s'
      else if c =? 13 then 92 :: 114 :: quote_body s'
      else if c <? 32 then unicode_escape c ++ quote_body s'
      else if is_high_surrogate c then
        match s' with
        | d :: s'' =>
            if is_low_surrogate d then c :: d :: quote_body s''
            else unicode_escape c ++ quote_body s'
        | [] => unicode_escape c
        end
      else if is_low_surrogate c then unicode_escape c ++ quote_body s'
      else c :: quote_body s'
  end.

Definition stringify_string (s : jsstring) : jsstring :=
  [34] ++ quote_body s ++ [34].

(** [JSON.stringify({ name, description, htmlContent, cssContent })] *)
Definition stringify_screen (name description htmlContent cssContent : jsstring)
  : jsstring :=
  lit "{" ++
  stringify_string k_name ++ lit ":" ++ stringify_string name ++ lit "," ++
  stringify_string k_description ++ lit ":" ++
    stringify_string description ++ lit "," ++
  stringify_string k_htmlContent ++ lit ":" ++
    stringify_string htmlContent ++ lit "," ++
  stringify_string k_cssContent ++ lit ":" ++ stringify_string cssContent ++
  lit "}".

(** Where the htmlContent that [generateScreenData] returns comes from,
    read off its branches: the model's response through [extractJSON], the
    last-resort scraping of angle brackets, or the fallback synthesizer. *)
Inductive Source := FromModel | FromScraping | FromFallback.

Definition content_source (outcome : option jsstring) : Source :=
  match outcome with
  | None => FromFallback
  | Some text =>
      let parsed := extractJSON text in
      if truthy parsed then
        if truthy (get_prop parsed k_htmlContent) then FromModel
        else FromFallback
      else
        match js_match_g re_tags text with
        | Some _ => FromScraping
        | None => FromFallback
        end
  end.

(** What [generateScreenData] would do with a response if it treated it as
    NoMatch: the last resort and, when that throws, the [catch]. *)
Definition treat_as_NoMatch (prompt text : jsstring) : M ScreenData :=
  try_catch (last_resort text) (on_failure prompt).

(** The prompts the model was called with, latest first. *)
Fixpoint prompts (evs : list Event) : list jsstring :=
  match evs with
  | [] => []
  | EvModelCall p :: evs' => p :: prompts evs'
  | EvConsoleError _ _ :: evs' => prompts evs'
  end.

Definition model_calls (w : World) : list jsstring := prompts (events w).

(** ** A small world for the examples

    Alice owns project P1, Bob owns project P2; screen S1 belongs to P2,
    screen S2 to P1. *)

Definition ex_world : World :=
  mkWorld
    (<[lit "P1" := mkProject (lit "alice") (lit "Shop")]>
       (<[lit "P2" := mkProject (lit "bob") (lit "Blog")]> ∅))
    (<[lit "S1" := mkScreen (lit "S1") (lit "P2") (lit "Home") (lit "<p>Hi</p>")
                     [] 10 20 300 600 5]>
       (<[lit "S2" := mkScreen (lit "S2") (lit "P1") (lit "Cart")
                        (lit "<p>Cart</p>") [] 410 20 375 812 7]> ∅))
    [] ∅ [].

(** The model answers every prompt with [out]; the clock reads 1000, the
    next screen id is S9. *)
Definition ex_env (out : option jsstring) : Env :=
  mkEnv 1000 (fun _ => out) (lit "S9") 0 0 false.

(** The same, with a database that rejects the write of the
    prompt-history row. *)
Definition ex_env_history_fails (out : option jsstring) : Env :=
  mkEnv 1000 (fun _ => out) (lit "S9") 0 0 true.

Definition ex_request (user : option jsstring) (body : jsstring) : Request :=
  mkRequest None None None user body.

(** Responses of the model used in the examples. *)
Definition empty_html_text : jsstring := litq "{'name':'Login','htmlContent':''}".



Definition login_text : jsstring :=
  litq "{'name':'Login','description':'','htmlContent':'<div>Login</div>','cssContent':''}".

Definition noname_text : jsstring :=
  litq "{'htmlContent':'<div>Login</div>'}".

(** Request bodies used in the examples. *)
Definition body_create : jsstring :=
  litq "{'projectId':'P1','prompt':'a login screen'}".

Definition body_update (screenId : string) : jsstring :=
  litq "{'projectId':'P1','prompt':'a login screen','screenId':'" ++
  lit screenId ++ litq "'}".

Definition alice : option jsstring := Some (lit "alice").
Definition bob : option jsstring := Some (lit "bob").

(** The world in which the anonymous caller has made ten requests within
    the last minute. *)
Definition busy_world : World :=
  set_limiter
    (<[lit "ip:anonymous" := [991; 992; 993; 994; 995; 996; 997; 998; 999; 1000]%Z]> ∅)
    ex_world.

(** ** More of the rate limiter *)

(** [RATE_LIMITS.moderate] and [RATE_LIMITS.lenient] *)
Definition RATE_LIMITS_moderate : RateLimitConfig := mkConfig 30 60000.
Definition RATE_LIMITS_lenient : RateLimitConfig := mkConfig 100 60000.

(** [RateLimiter.getRemaining] *)
Definition getRemaining (identifier : jsstring) (config : RateLimitConfig)
    (now : Z) (m : gmap jsstring (list Z)) : Z :=
  let windowStart := (now - cfg_windowMs config)%Z in
  let userRequests := default [] (m !! identifier) in
  let validRequests := filter (fun t => (windowStart < t)%Z) userRequests in
  Z.max 0 (Z.of_nat (cfg_requests config) - Z.of_nat (length validRequests)).

(** A run of the limiter: the calls of [check] a process makes one after
    the other, each with its identifier, the configuration of the endpoint
    and the time it is made at. *)
Record Call := mkCall {
  call_id : jsstring;
  call_cfg : RateLimitConfig;
  call_time : Z
}.

Fixpoint checks (calls : list Call) (m : gmap jsstring (list Z))
  : list bool * gmap jsstring (list Z) :=
  match calls with
  | [] => ([], m)
  | c :: calls' =>
      let '(allowed, m1) := check (call_id c) (call_cfg c) (call_time c) m in
      let '(verdicts, m2) := checks calls' m1 in
      (allowed :: verdicts, m2)
  end.

(** The sliding window, stated on the history of the allowed calls alone:
    a call is allowed when fewer than its limit of the calls allowed before
    it, for the same identifier, lie within its window. *)
Definition in_window (id : jsstring) (windowStart : Z) (c : Call) : bool :=
  bool_decide (call_id c = id) && bool_decide (windowStart < call_time c)%Z.

Definition allowed_in_window (id : jsstring) (windowStart : Z)
    (hist : list Call) : nat :=
  length (filter (fun c => in_window id windowStart c = true) hist).

Fixpoint sliding_window (calls hist : list Call) : list bool :=
  match calls with
  | [] => []
  | c :: calls' =>
      let windowStart := (call_time c - cfg_windowMs (call_cfg c))%Z in
      if (cfg_requests (call_cfg c) <=?
          allowed_in_window (call_id c) windowStart hist)%nat
      then false :: sliding_window calls' hist
      else true :: sliding_window calls' (hist ++ [c])
  end.

(** The clock does not run backwards between the calls. *)
Fixpoint clock_ok (t : Z) (calls : list Call) : Prop :=
  match calls with
  | [] => True
  | c :: calls' => (t <= call_time c)%Z /\ clock_ok (call_time c) calls'
  end.

(** The timestamps the limiter holds for an identifier. *)
Definition stored (m : gmap jsstring (list Z)) (id : jsstring) : list Z :=
  default [] (m !! id).

(** The store agrees with a history of allowed calls from [windowStart]
    on: for every identifier, the timestamps it holds after [windowStart]
    are the times of the allowed calls after [windowStart], in order. *)
Definition limiter_agrees (m : gmap jsstring (list Z)) (hist : list Call)
    (windowStart : Z) : Prop :=
  forall id,
    filter (fun t => (windowStart < t)%Z) (stored m id) =
    map call_time (filter (fun c => in_window id windowStart c = true) hist).

(** Twelve calls of one client within a minute, the last two to different
    endpoints. *)
Definition ex_calls : list Call :=
  map (fun t => mkCall (lit "ip:anonymous") RATE_LIMITS_lenient t)
      [1; 2; 3; 4; 5; 6; 7; 8; 9; 10]%Z ++
  [ mkCall (lit "ip:anonymous") RATE_LIMITS_strict 11;
    mkCall (lit "ip:anonymous") RATE_LIMITS_moderate 12 ].

(** Stores of the limiter used in the examples. *)
Definition fresh_store : gmap jsstring (list Z) := ∅.

Definition old_store : gmap jsstring (list Z) :=
  <[lit "ip:a" := [1; 99999; 100001; 399999]%Z]> (<[lit "ip:b" := [5]%Z]> ∅).

(** ** From the first opening character to the last closing one

    What the source's comment on the third strategy says the expression
    finds: the text from the first opening brace to the last closing
    brace.  The same shape, with angle brackets, is the expression of the
    last resort. *)

(** The text before the first [a] and the text after it. *)
Fixpoint split_first (a : N) (s : jsstring) : option (jsstring * jsstring) :=
  match s with
  | [] => None
  | c :: s' =>
      if c =? a then Some ([], s')
      else match split_first a s' with
           | Some (pre, rest) => Some (c :: pre, rest)
           | None => None
           end
  end.

(** The text before the last [b] and the text after it. *)
Fixpoint split_last (b : N) (s : jsstring) : option (jsstring * jsstring) :=
  match s with
  | [] => None
  | c :: s' =>
      match split_last b s' with
      | Some (mid, post) => Some (c :: mid, post)
      | None => if c =? b then Some ([], s') else None
      end
  end.

(** The first [a] of the text and everything up to the last [b] after
    it. *)
Definition first_to_last (a b : N) (text : jsstring) : option match_result :=
  match split_first a text with
  | Some (pre, rest) =>
      match split_last b rest with
      | Some (mid, post) => Some (mkMatch (length pre) (a :: mid ++ [b]) None)
      | None => None
      end
  | None => None
  end.

(** The expression [[\s\S]*] followed by [k], as the matcher runs it: the
    longest run first. *)
Section Greedy.
Context {R : Type}.

Fixpoint greedy (k : @cont R) (s : jsstring) (cap : option jsstring)
  : option R :=
  match s with
  | [] => k [] cap
  | c :: s' => or_else (greedy k s' cap) (k s cap)
  end.
End Greedy.

(** The expression that matches [a], any text and [b]. *)
Definition re_between (a b : N) : regex :=
  Seqs [ Class (CChar a); any_star; Class (CChar b) ].

(** A response in which prose surrounds the JSON object. *)
Definition prose_text : jsstring :=
  lit "Here you go: " ++
  stringify_screen (lit "Login") [] (lit "<div>Login</div>") [] ++
  lit " Enjoy!".


(** ** [String.prototype.replace] with a g-flagged expression

    Every match, left to right, is replaced by what [f] makes of it (the
    replacement text with its [$1] filled in); the search resumes where
    the last match ended, one further on after an empty match, and the
    text between the matches is kept. *)
Fixpoint replace_all (fuel : nat) (r : regex) (f : match_result -> jsstring)
    (s : jsstring) : jsstring :=
  match fuel with
  | O => s
  | S fuel' =>
      match search r 0 s with
      | None => s
      | Some m =>
          let rest := drop (m_index m + length (m_whole m)) s in
          take (m_index m) s ++ f m ++
            match m_whole m, rest with
            | [], [] => []
            | [], c :: rest' => c :: replace_all fuel' r f rest'
            | _ :: _, _ => replace_all fuel' r f rest
            end
      end
  end.

Definition js_replace_g (r : regex) (f : match_result -> jsstring)
    (text : jsstring) : jsstring :=
  replace_all (S (length text)) r f text.

(** The replacement texts of the chat handler: the empty string, and
    [$1]. *)
Definition to_empty (m : match_result) : jsstring := [].
Definition to_group1 (m : match_result) : jsstring := default [] (m_group m).

(** ** The chat endpoint (the first handler of src/app/api/chat/route.ts) *)

Module Chat.

Record ChatMessage := mkMessage {
  role : jsstring;
  content : jsstring
}.

(** Three backticks, [[\s\S]*?] and three backticks. *)
Definition re_fence : regex :=
  Seqs [ Str (lit "```"); LazyStar (Class CAny); Str (lit "```") ].

(** A backtick, the capture group (one or more characters other than the
    backtick, greedy) and a backtick. *)
Definition re_inline : regex :=
  Seqs [ Class (CChar 96);
         Group (Seq (Class (CNot 96)) (Star (Class (CNot 96))));
         Class (CChar 96) ].

(** Clean up response - remove any markdown. *)
Definition clean (text : jsstring) : jsstring :=
  trim (js_replace_g re_inline to_group1 (js_replace_g re_fence to_empty text)).

(** Build conversation context. *)
Definition conversationHistory (messages : list ChatMessage) : jsstring :=
  join [10] (map (fun m => role m ++ lit ": " ++ content m) messages).

Definition context (projectId : option jsstring) : jsstring :=
  match nonempty projectId with
  | Some projectId => lit "Current project ID: " ++ projectId
  | None => []
  end.

Definition systemPrompt (projectId : option jsstring) : jsstring :=
  lit "You are an AI mobile UI design assistant." ++ [10] ++
  context projectId ++ [10; 10] ++
  lit "You help users design mobile app interfaces using Tailwind CSS." ++ [10] ++
  lit "Keep responses helpful, concise, and actionable." ++ [10] ++
  lit "Respond in plain text without markdown formatting.".

Definition fullPrompt (messages : list ChatMessage)
    (projectId : option jsstring) : jsstring :=
  systemPrompt projectId ++ [10; 10] ++
  conversationHistory messages ++ [10] ++ lit "assistant:".

(** [generateResponse(messages, projectId)] *)
Definition generateResponse (env : Env) (messages : list ChatMessage)
    (projectId : option jsstring) : M jsstring :=
  try_catch
    (let! text := callModel env (fullPrompt messages projectId) in
     ret (clean text))
    (fun e =>
       do! console_error (lit "[Chat] Minimax failed:") e in
       throw ServiceUnavailable).

(** [z.enum] of user, assistant and system. *)
Definition is_role (s : jsstring) : bool :=
  str_eqb s (lit "user") || str_eqb s (lit "assistant") ||
  str_eqb s (lit "system").

(** An element of the messages array. *)
Definition message_of (v : Value) : option ChatMessage :=
  match v with
  | VObj _ =>
      match get_prop v (lit "role"), get_prop v (lit "content") with
      | VStr r, VStr c => if is_role r then Some (mkMessage r c) else None
      | _, _ => None
      end
  | _ => None
  end.

(** [chatBodySchema.safeParse(body)]: messages is an array of at least
    one message, projectId is a string or absent.  [None]: the validation
    failed. *)
Definition chatBodySchema (b : Value)
  : option (list ChatMessage * option jsstring) :=
  match b with
  | VObj _ =>
      match get_prop b (lit "messages") with
      | VArr (v :: vs) =>
          match mapM message_of (v :: vs) with
          | Some messages =>
              match get_prop b (lit "projectId") with
              | VUndefined => Some (messages, None)
              | VStr projectId => Some (messages, Some projectId)
              | _ => None
              end
          | None => None
          end
      | _ => None
      end
  | _ => None
  end.

Inductive ChatBody :=
| CLimiter (b : Body)          (* the response of the rate limiter *)
| CInvalid                     (* { error, details } of a 400 *)
| CText (text : jsstring).     (* { text } *)

Record ChatResponse := mkChatResponse {
  c_status : nat;
  c_body : ChatBody
}.

(** The text of the [catch]. *)
Definition apology : jsstring :=
  lit "I'm having trouble connecting right now. Please try again in a moment.".

(** The body of the handler's [try]. *)
Definition handle (env : Env) (req : Request) : M ChatResponse :=
  let! body := req_json req in
  match chatBodySchema body with
  | None => ret (mkChatResponse 400 CInvalid)
  | Some (messages, projectId) =>
      let! text := generateResponse env messages projectId in
      ret (mkChatResponse 200 (CText text))
  end.

(** [POST(req)] of the chat route: the rate limit first, then the [try]
    whose [catch] answers 200 with the fixed text. *)
Definition POST (env : Env) (req : Request) (w : World)
  : ChatResponse * World :=
  match rateLimit RATE_LIMITS_strict env req w with
  | (Some rateLimitResponse, w1) =>
      (mkChatResponse (status rateLimitResponse)
                      (CLimiter (resp_body rateLimitResponse)), w1)
  | (None, w1) =>
      match handle env req w1 with
      | (Val response, w2) => (response, w2)
      | (Throw error, w2) =>
          (mkChatResponse 200 (CText apology),
           snd (console_error (lit "[Chat] Error:") error w2))
      end
  end.

(** A request body with one message, and an answer of the model with a
    fenced block and an inline code span. *)
Definition body_hello : jsstring :=
  litq "{'messages':[{'role':'user','content':'hello'}]}".

Definition markdown_text : jsstring :=
  lit " Use ```<div/>``` and `flex` here. ".

End Chat.

(** * Properties *)

(** ** The matcher only moves forward *)

Section MatcherFacts.
Context {R : Type}.

Definition shrinking
    (step : jsstring -> option jsstring -> @cont R -> option R) : Prop :=
  forall s cap k x,
    step s cap k = Some x ->
    exists s' cap', (length s' <= length s)%nat /\ k s' cap' = Some x.

Lemma or_else_Some (a b : option R) x :
  or_else a b = Some x -> a = Some x \/ b = Some x.
Proof. destruct a; simpl; auto. Qed.

Lemma star_loop_shrinks step :
  shrinking step ->
  forall k n s cap x,
    star_loop step k n s cap = Some x ->
    exists s' cap', (length s' <= length s)%nat /\ k s' cap' = Some x.
Proof.
  intros Hstep k n. induction n as [|n IH]; intros s cap x H; simpl in H.
  - exists s, cap. split; [lia | exact H].
  - apply or_else_Some in H as [H | H].
    + apply Hstep in H as (s1 & cap1 & Hlen & H).
      destruct (length s1 <? length s)%nat eqn:E; [|discriminate].
      apply IH in H as (s2 & cap2 & Hlen2 & H).
      exists s2, cap2. split; [lia | exact H].
    + exists s, cap. split; [lia | exact H].
Qed.

Lemma lazy_loop_shrinks step :
  shrinking step ->
  forall k n s cap x,
    lazy_loop step k n s cap = Some x ->
    exists s' cap', (length s' <= length s)%nat /\ k s' cap' = Some x.
Proof.
  intros Hstep k n. induction n as [|n IH]; intros s cap x H; simpl in H.
  - exists s, cap. split; [lia | exact H].
  - apply or_else_Some in H as [H | H].
    + exists s, cap. split; [lia | exact H].
    + apply Hstep in H as (s1 & cap1 & Hlen & H).
      destruct (length s1 <? length s)%nat eqn:E; [|discriminate].
      apply IH in H as (s2 & cap2 & Hlen2 & H).
      exists s2, cap2. split; [lia | exact H].
Qed.

(** Whatever a matcher hands to its continuation is no longer than what
    it was given. *)
Lemma run_shrinks (r : regex) : shrinking (run r).
Proof.
  induction r as [|cl|r1 IH1 r2 IH2|r1 IH1 r2 IH2|r1 IH1|r1 IH1|r1 IH1];
    intros s cap k x H; simpl in H.
  - exists s, cap. split; [lia | exact H].
  - destruct s as [|c s']; [discriminate|].
    destruct (in_class cl c); [|discriminate].
    exists s', cap. split; [simpl; lia | exact H].
  - apply IH1 in H as (s1 & cap1 & Hlen1 & H).
    apply IH2 in H as (s2 & cap2 & Hlen2 & H).
    exists s2, cap2. split; [lia | exact H].
  - apply or_else_Some in H as [H | H]; [apply IH1 in H | apply IH2 in H];
      exact H.
  - exact (star_loop_shrinks _ IH1 k (length s) s cap x H).
  - exact (lazy_loop_shrinks _ IH1 k (length s) s cap x H).
  - apply IH1 in H as (s1 & cap1 & Hlen1 & H).
    exists s1, (Some (take (length s - length s1) s)). split; [lia | exact H].
Qed.
End MatcherFacts.



(** ** The recursion bounds are never reached *)

Module FuelFacts.
Import Json.

Lemma skip_ws_length s : (length (skip_ws s) <= length s)%nat.
Proof.
  induction s as [|c s IH]; cbn [skip_ws]; [lia|].
  destruct (is_ws c); cbn [length]; lia.
Qed.

Lemma parse_string_body_length s :
  forall str rest,
    parse_string_body s = Some (str, rest) -> (length rest < length s)%nat.
Proof.
  remember (length s) as n eqn:Hn.
  assert (Hle : (length s <= n)%nat) by lia. clear Hn.
  revert s Hle. induction n as [|n IH]; intros s Hle str rest H.
  - destruct s; [discriminate | simpl in Hle; lia].
  - destruct s as [|c s1]; [discriminate|].
    cbn [length] in *. cbn [parse_string_body] in H.
    destruct (c =? 34); [injection H as <- <-; lia|].
    destruct (c =? 92).
    + destruct s1 as [|e s2]; [discriminate|]. cbn [length] in *.
      destruct (e =? 117).
      * destruct s2 as [|h1 [|h2 [|h3 [|h4 s3]]]]; try discriminate.
        cbn [length] in *.
        destruct (hex4 h1 h2 h3 h4); [|discriminate].
        destruct (parse_string_body s3) as [[str' rest']|] eqn:E;
          [|discriminate].
        injection H as <- <-. apply IH in E; lia.
      * destruct (unescape e); [|discriminate].
        destruct (parse_string_body s2) as [[str' rest']|] eqn:E;
          [|discriminate].
        injection H as <- <-. apply IH in E; lia.
    + destruct (c <? 32); [discriminate|].
      destruct (parse_string_body s1) as [[str' rest']|] eqn:E; [|discriminate].
      injection H as <- <-. apply IH in E; lia.
Qed.

Lemma parse_digits_length s :
  forall acc n k rest,
    parse_digits acc s = (n, k, rest) -> (length rest <= length s)%nat.
Proof.
  induction s as [|c s IH]; intros acc n k rest H; cbn [parse_digits] in H.
  - injection H as <- <- <-. lia.
  - destruct (is_digit c).
    + destruct (parse_digits (acc * 10 + (c - 48)) s) as [[n' k'] rest'] eqn:E.
      injection H as <- <- <-. apply IH in E. cbn [length]. lia.
    + injection H as <- <- <-. lia.
Qed.

Lemma parse_int_length s i rest :
  parse_int s = Some (i, rest) -> (length rest < length s)%nat.
Proof.
  unfold parse_int. destruct s as [|c s']; [discriminate|].
  destruct (c =? 48); [intros [= <- <-]; cbn [length]; lia|].
  destruct (is_digit c); [|discriminate].
  destruct (parse_digits (c - 48) s') as [[n k] rest'] eqn:E.
  intros [= <- <-]. apply parse_digits_length in E. cbn [length]. lia.
Qed.

Lemma starts_with_tl c s :
  starts_with c s = true -> length s = S (length (tl s)).
Proof. destruct s; [discriminate | reflexivity]. Qed.

Lemma tl_length (s : jsstring) : (length (tl s) <= length s)%nat.
Proof. destruct s; cbn; lia. Qed.

Lemma parse_frac_length m s n k rest :
  parse_frac m s = Some (n, k, rest) -> (length rest <= length s)%nat.
Proof.
  unfold parse_frac. destruct (starts_with 46 s); [|intros [= <- <- <-]; lia].
  destruct (parse_digits m (tl s)) as [[n' k'] rest'] eqn:E.
  apply parse_digits_length in E. pose proof (tl_length s).
  destruct k'; [discriminate|]. intros [= <- <- <-]. lia.
Qed.

Lemma parse_exp_length s e rest :
  parse_exp s = Some (e, rest) -> (length rest <= length s)%nat.
Proof.
  unfold parse_exp.
  destruct (starts_with 101 s || starts_with 69 s); [|intros [= <- <-]; lia].
  cbv zeta.
  set (p := if starts_with 43 (tl s) then (1%Z, tl (tl s))
            else if starts_with 45 (tl s) then ((-1)%Z, tl (tl s))
            else (1%Z, tl s)).
  assert (Hp : (length (snd p) <= length s)%nat).
  { subst p. pose proof (tl_length s). pose proof (tl_length (tl s)).
    destruct (starts_with 43 (tl s)); [cbn; lia|].
    destruct (starts_with 45 (tl s)); cbn; lia. }
  destruct p as [sign s2]. cbn [snd] in Hp.
  destruct (parse_digits 0 s2) as [[n k] rest'] eqn:E.
  apply parse_digits_length in E.
  destruct k; [discriminate|]. intros [= <- <-]. lia.
Qed.

Lemma parse_number_length s n rest :
  parse_number s = Some (n, rest) -> (length rest < length s)%nat.
Proof.
  unfold parse_number.
  set (p := if starts_with 45 s then (true, tl s) else (false, s)).
  assert (Hp : (length (snd p) <= length s)%nat).
  { subst p. pose proof (tl_length s). destruct (starts_with 45 s); cbn; lia. }
  destruct p as [sg s1]. cbn [snd] in Hp.
  destruct (parse_int s1) as [[i s2]|] eqn:Ei; [|discriminate].
  destruct (parse_frac i s2) as [[[m k] s3]|] eqn:Ef; [|discriminate].
  destruct (parse_exp s3) as [[e s4]|] eqn:Ee; [|discriminate].
  intros [= <- <-].
  apply parse_int_length in Ei. apply parse_frac_length in Ef.
  apply parse_exp_length in Ee. lia.
Qed.

Lemma is_prefix_length p s : is_prefix p s = true -> (length p <= length s)%nat.
Proof.
  revert s. induction p as [|a p IH]; intros [|b s] H; cbn in *;
    try lia; try discriminate.
  apply andb_true_iff in H as [_ H]. apply IH in H. lia.
Qed.

Lemma parse_keyword_length s v rest :
  parse_keyword s = Some (v, rest) -> (length rest < length s)%nat.
Proof.
  unfold parse_keyword.
  destruct (is_prefix (lit "true") s) eqn:E1.
  { intros [= <- <-]. apply is_prefix_length in E1.
    rewrite length_drop. cbn in E1. lia. }
  destruct (is_prefix (lit "false") s) eqn:E2.
  { intros [= <- <-]. apply is_prefix_length in E2.
    rewrite length_drop. cbn in E2. lia. }
  destruct (is_prefix (lit "null") s) eqn:E3; [|discriminate].
  intros [= <- <-]. apply is_prefix_length in E3.
  rewrite length_drop. cbn in E3. lia.
Qed.

Lemma parse_value_S f s :
  parse_value (S f) s =
  let t := skip_ws s in
  if starts_with 123 t then
    let u := skip_ws (tl t) in
    if starts_with 125 u then POk (VObj []) (tl u)
    else if starts_with 34 u then parse_member f (tl u) []
    else PErr
  else if starts_with 91 t then
    let u := skip_ws (tl t) in
    if starts_with 93 u then POk (VArr []) (tl u)
    else
      match parse_value f (tl t) with
      | POk v rest => parse_elements f rest [v]
      | PErr => PErr
      | PFuel => PFuel
      end
  else if starts_with 34 t then
    match parse_string_body (tl t) with
    | Some (str, rest) => POk (VStr str) rest
    | None => PErr
    end
  else if starts_with 45 t || match t with
                              | c :: _ => is_digit c
                              | [] => false
                              end then
    match parse_number t with
    | Some (n, rest) => POk (VNum n) rest
    | None => PErr
    end
  else of_option (parse_keyword t).
Proof. reflexivity. Qed.

Lemma parse_elements_S f s acc :
  parse_elements (S f) s acc =
  let t := skip_ws s in
  if starts_with 93 t then POk (VArr (rev acc)) (tl t)
  else if starts_with 44 t then
    match parse_value f (tl t) with
    | POk v rest => parse_elements f rest (v :: acc)
    | PErr => PErr
    | PFuel => PFuel
    end
  else PErr.
Proof. reflexivity. Qed.

Lemma parse_member_S f s acc :
  parse_member (S f) s acc =
  match parse_string_body s with
  | None => PErr
  | Some (key, s1) =>
      let t := skip_ws s1 in
      if starts_with 58 t then
        match parse_value f (tl t) with
        | POk v rest =>
            let u := skip_ws rest in
            if starts_with 125 u then
              POk (VObj (rev ((key, v) :: acc))) (tl u)
            else if starts_with 44 u then
              let u' := skip_ws (tl u) in
              if starts_with 34 u' then
                parse_member f (tl u') ((key, v) :: acc)
              else PErr
            else PErr
        | PErr => PErr
        | PFuel => PFuel
        end
      else PErr
  end.
Proof. reflexivity. Qed.

(** Whatever the parser reads, it reads at least one character. *)
Lemma parse_consumes fuel :
  (forall s v rest,
     parse_value fuel s = POk v rest -> (length rest < length s)%nat) /\
  (forall s acc v rest,
     parse_elements fuel s acc = POk v rest -> (length rest < length s)%nat) /\
  (forall s acc v rest,
     parse_member fuel s acc = POk v rest -> (length rest < length s)%nat).
Proof.
  induction fuel as [|f (IHv & IHe & IHm)];
    [repeat split; intros; discriminate|].
  split; [|split].
  - intros s v rest. rewrite parse_value_S. cbv zeta.
    pose proof (skip_ws_length s) as Hs.
    pose proof (skip_ws_length (tl (skip_ws s))) as Ht.
    destruct (starts_with 123 (skip_ws s)) eqn:E1.
    { apply starts_with_tl in E1.
      destruct (starts_with 125 _) eqn:E2.
      { apply starts_with_tl in E2. intros [= <- <-]. lia. }
      destruct (starts_with 34 _) eqn:E3; [|discriminate].
      apply starts_with_tl in E3. intros H. apply IHm in H. lia. }
    destruct (starts_with 91 (skip_ws s)) eqn:E2.
    { apply starts_with_tl in E2.
      destruct (starts_with 93 _) eqn:E3.
      { apply starts_with_tl in E3. intros [= <- <-]. lia. }
      destruct (parse_value f (tl (skip_ws s))) as [v1 r1| |] eqn:E4;
        try discriminate.
      apply IHv in E4. intros H. apply IHe in H. lia. }
    destruct (starts_with 34 (skip_ws s)) eqn:E3.
    { apply starts_with_tl in E3.
      destruct (parse_string_body _) as [[str r]|] eqn:E4; [|discriminate].
      apply parse_string_body_length in E4. intros [= <- <-]. lia. }
    destruct (_ || _).
    { destruct (parse_number _) as [[n r]|] eqn:E4; [|discriminate].
      apply parse_number_length in E4. intros [= <- <-]. lia. }
    destruct (parse_keyword _) as [[k r]|] eqn:E4; [|discriminate].
    apply parse_keyword_length in E4. cbn. intros [= <- <-]. lia.
  - intros s acc v rest. rewrite parse_elements_S. cbv zeta.
    pose proof (skip_ws_length s) as Hs.
    destruct (starts_with 93 (skip_ws s)) eqn:E1.
    { apply starts_with_tl in E1. intros [= <- <-]. lia. }
    destruct (starts_with 44 (skip_ws s)) eqn:E2; [|discriminate].
    apply starts_with_tl in E2.
    destruct (parse_value f (tl (skip_ws s))) as [v1 r1| |] eqn:E4;
      try discriminate.
    apply IHv in E4. intros H. apply IHe in H. lia.
  - intros s acc v rest. rewrite parse_member_S.
    destruct (parse_string_body s) as [[key s1]|] eqn:E0; [|discriminate].
    apply parse_string_body_length in E0. cbv zeta.
    pose proof (skip_ws_length s1) as Hs.
    destruct (starts_with 58 (skip_ws s1)) eqn:E1; [|discriminate].
    apply starts_with_tl in E1.
    destruct (parse_value f (tl (skip_ws s1))) as [v1 r1| |] eqn:E4;
      try discriminate.
    apply IHv in E4.
    pose proof (skip_ws_length r1) as Hr.
    destruct (starts_with 125 (skip_ws r1)) eqn:E2.
    { apply starts_with_tl in E2. intros [= <- <-]. lia. }
    destruct (starts_with 44 (skip_ws r1)) eqn:E3; [|discriminate].
    apply starts_with_tl in E3.
    pose proof (skip_ws_length (tl (skip_ws r1))) as Hu.
    destruct (starts_with 34 _) eqn:E5; [|discriminate].
    apply starts_with_tl in E5. intros H. apply IHm in H. lia.
Qed.

(** With more fuel than the text has characters the bound is not
    reached: [JSON.parse] is modelled on every text. *)
Lemma parse_enough fuel :
  (forall s, (length s < fuel)%nat -> parse_value fuel s <> PFuel) /\
  (forall s acc, (length s < fuel)%nat -> parse_elements fuel s acc <> PFuel) /\
  (forall s acc, (length s < fuel)%nat -> parse_member fuel s acc <> PFuel).
Proof.
  induction fuel as [|f (IHv & IHe & IHm)]; [repeat split; intros; lia|].
  split; [|split].
  - intros s Hlen. rewrite parse_value_S. cbv zeta.
    pose proof (skip_ws_length s) as Hs.
    pose proof (skip_ws_length (tl (skip_ws s))) as Ht.
    destruct (starts_with 123 (skip_ws s)) eqn:E1.
    { apply starts_with_tl in E1.
      destruct (starts_with 125 _) eqn:E2; [discriminate|].
      destruct (starts_with 34 _) eqn:E3; [|discriminate].
      apply starts_with_tl in E3. apply IHm. lia. }
    destruct (starts_with 91 (skip_ws s)) eqn:E2.
    { apply starts_with_tl in E2.
      destruct (starts_with 93 _) eqn:E3; [discriminate|].
      destruct (parse_value f (tl (skip_ws s))) as [v1 r1| |] eqn:E4;
        [|discriminate|].
      - apply (proj1 (parse_consumes f)) in E4. apply IHe. lia.
      - exfalso. revert E4. apply IHv. lia. }
    destruct (starts_with 34 (skip_ws s)).
    { destruct (parse_string_body _) as [[str r]|]; discriminate. }
    destruct (_ || _).
    { destruct (parse_number _) as [[n r]|]; discriminate. }
    destruct (parse_keyword _) as [[k r]|]; discriminate.
  - intros s acc Hlen. rewrite parse_elements_S. cbv zeta.
    pose proof (skip_ws_length s) as Hs.
    destruct (starts_with 93 (skip_ws s)); [discriminate|].
    destruct (starts_with 44 (skip_ws s)) eqn:E2; [|discriminate].
    apply starts_with_tl in E2.
    destruct (parse_value f (tl (skip_ws s))) as [v1 r1| |] eqn:E4;
      [|discriminate|].
    + apply (proj1 (parse_consumes f)) in E4. apply IHe. lia.
    + exfalso. revert E4. apply IHv. lia.
  - intros s acc Hlen. rewrite parse_member_S.
    destruct (parse_string_body s) as [[key s1]|] eqn:E0; [|discriminate].
    apply parse_string_body_length in E0. cbv zeta.
    pose proof (skip_ws_length s1) as Hs.
    destruct (starts_with 58 (skip_ws s1)) eqn:E1; [|discriminate].
    apply starts_with_tl in E1.
    destruct (parse_value f (tl (skip_ws s1))) as [v1 r1| |] eqn:E4;
      [|discriminate|].
    + apply (proj1 (parse_consumes f)) in E4.
      pose proof (skip_ws_length r1) as Hr.
      destruct (starts_with 125 (skip_ws r1)); [discriminate|].
      destruct (starts_with 44 (skip_ws r1)) eqn:E3; [|discriminate].
      apply starts_with_tl in E3.
      pose proof (skip_ws_length (tl (skip_ws r1))) as Hu.
      destruct (starts_with 34 _) eqn:E5; [|discriminate].
      apply starts_with_tl in E5. apply IHm. lia.
    + exfalso. revert E4. apply IHv. lia.
Qed.

(** [Json.parse] never runs out of fuel. *)
Lemma parse_value_fuel text :
  parse_value (S (length text)) text <> PFuel.
Proof. apply (proj1 (parse_enough (S (length text)))). lia. Qed.

End FuelFacts.

(** The same for the star loops of the matcher.  Their countdown never
    cuts a match short: from a text
    of at most [n] characters, [n] rounds and [n + 1] rounds give the same
    result (and so does any larger number). *)
Section LoopFacts.
Context {R : Type}.

Lemma run_ext (r : regex) :
  forall s cap (k1 k2 : @cont R),
    (forall s' cap', k1 s' cap' = k2 s' cap') ->
    run r s cap k1 = run r s cap k2.
Proof.
  induction r as [|cl|r1 IH1 r2 IH2|r1 IH1 r2 IH2|r1 IH1|r1 IH1|r1 IH1];
    intros s cap k1 k2 Hk; cbn [run].
  - apply Hk.
  - destruct s as [|c s']; [reflexivity|].
    destruct (in_class cl c); [apply Hk | reflexivity].
  - apply IH1. intros s' cap'. apply IH2. exact Hk.
  - rewrite (IH1 s cap k1 k2 Hk), (IH2 s cap k1 k2 Hk). reflexivity.
  - generalize (length s). intros n. revert s cap.
    induction n as [|n IHn]; intros s cap; cbn [star_loop]; [apply Hk|].
    rewrite (Hk s cap). f_equal. apply IH1. intros s' cap'.
    destruct (length s' <? length s)%nat; [apply IHn | reflexivity].
  - generalize (length s). intros n. revert s cap.
    induction n as [|n IHn]; intros s cap; cbn [lazy_loop]; [apply Hk|].
    rewrite (Hk s cap). f_equal. apply IH1. intros s' cap'.
    destruct (length s' <? length s)%nat; [apply IHn | reflexivity].
  - apply IH1. intros s' cap'. apply Hk.
Qed.

Lemma run_none (r : regex) s cap (k : @cont R) :
  (forall s' cap', k s' cap' = None) -> run r s cap k = None.
Proof.
  intros Hk. destruct (run r s cap k) as [x|] eqn:E; [|reflexivity].
  apply run_shrinks in E as (s' & cap' & _ & E). rewrite Hk in E.
  discriminate.
Qed.

Lemma star_loop_enough (r : regex) (k : @cont R) :
  forall n s cap,
    (length s <= n)%nat ->
    star_loop (run r) k n s cap = star_loop (run r) k (S n) s cap.
Proof.
  induction n as [|n IH]; intros s cap Hlen.
  - destruct s; [|cbn in Hlen; lia]. cbn [star_loop].
    rewrite run_none; [reflexivity|]. intros s' cap'. reflexivity.
  - change (star_loop (run r) k (S n) s cap) with
      (or_else
         (run r s cap (fun s' cap' =>
            if (length s' <? length s)%nat
            then star_loop (run r) k n s' cap' else None))
         (k s cap)).
    change (star_loop (run r) k (S (S n)) s cap) with
      (or_else
         (run r s cap (fun s' cap' =>
            if (length s' <? length s)%nat
            then star_loop (run r) k (S n) s' cap' else None))
         (k s cap)).
    f_equal. apply run_ext. intros s' cap'.
    destruct (length s' <? length s)%nat eqn:E; [|reflexivity].
    apply Nat.ltb_lt in E. apply IH. lia.
Qed.

Lemma lazy_loop_enough (r : regex) (k : @cont R) :
  forall n s cap,
    (length s <= n)%nat ->
    lazy_loop (run r) k n s cap = lazy_loop (run r) k (S n) s cap.
Proof.
  induction n as [|n IH]; intros s cap Hlen.
  - destruct s; [|cbn in Hlen; lia]. cbn [lazy_loop].
    rewrite run_none; [destruct (k [] cap); reflexivity|].
    intros s' cap'. reflexivity.
  - change (lazy_loop (run r) k (S n) s cap) with
      (or_else (k s cap)
         (run r s cap (fun s' cap' =>
            if (length s' <? length s)%nat
            then lazy_loop (run r) k n s' cap' else None))).
    change (lazy_loop (run r) k (S (S n)) s cap) with
      (or_else (k s cap)
         (run r s cap (fun s' cap' =>
            if (length s' <? length s)%nat
            then lazy_loop (run r) k (S n) s' cap' else None))).
    f_equal. apply run_ext. intros s' cap'.
    destruct (length s' <? length s)%nat eqn:E; [|reflexivity].
    apply Nat.ltb_lt in E. apply IH. lia.
Qed.
End LoopFacts.

(** And for the loop of a g-flagged match: a match lies within the text,
    so every round of [match_all] starts from a shorter text. *)
Lemma search_bounds r :
  forall s idx m,
    search r idx s = Some m ->
    (idx <= m_index m)%nat /\
    (m_index m - idx + length (m_whole m) <= length s)%nat.
Proof.
  induction s as [|c s IH]; intros idx m H; cbn [search] in H.
  - destruct (run r [] None _) as [[rest cap]|]; [|discriminate].
    injection H as <-. cbn. lia.
  - destruct (run r (c :: s) None _) as [[rest cap]|].
    + injection H as <-. cbn [m_index m_whole].
      rewrite length_take. lia.
    + apply IH in H. cbn [length]. lia.
Qed.

Lemma match_all_fuel r :
  forall n m s,
    (length s < n)%nat -> (length s < m)%nat ->
    match_all n r s = match_all m r s.
Proof.
  induction n as [|n IH]; intros m s Hn Hm; [lia|].
  destruct m as [|m]; [lia|]. cbn [match_all].
  destruct (search r 0 s) as [res|] eqn:E; [|reflexivity].
  apply search_bounds in E as [_ E]. f_equal.
  destruct (m_whole res) as [|c whole] eqn:Ew.
  - destruct (drop _ s) as [|d rest'] eqn:Ed; [reflexivity|].
    assert (Hl : length (drop (m_index res + length (@nil N)) s)
                 = S (length rest')) by (rewrite Ed; reflexivity).
    rewrite length_drop in Hl. apply IH; lia.
  - cbn [length] in E.
    apply IH; rewrite length_drop; cbn [length]; lia.
Qed.

(** ** C1: generateScreenData always returns usable content *)






(** ** C3: the fallback synthesizer *)

Lemma is_prefix_app p s : is_prefix p (p ++ s) = true.
Proof.
  induction p as [|c p IH]; [reflexivity|].
  cbn [is_prefix app]. rewrite N.eqb_refl. exact IH.
Qed.

Lemma contains_app a p b : contains p (a ++ p ++ b) = true.
Proof.
  induction a as [|c a IH].
  - destruct (p ++ b) eqn:E; cbn [app contains]; rewrite <- ?E;
      rewrite is_prefix_app; reflexivity.
  - cbn [app contains]. rewrite IH. apply orb_true_r.
Qed.

Lemma safePrompt_eq p :
  safePrompt p =
  take 100 p ++ (if (100 <? length p)%nat then lit "..." else []).
Proof.
  unfold safePrompt, slice0.
  destruct (100 <? length p)%nat eqn:E; [reflexivity|].
  apply Nat.ltb_ge in E. rewrite take_ge by exact E.
  symmetry. apply app_nil_r.
Qed.

(** C3, as the code has it.  For every input string (the empty one
    included) [generateFallbackHTML] returns the fixed template around the
    first 100 code units of the prompt, followed by the ellipsis marker
    exactly when the prompt is longer than 100; the text is embedded as it
    is, without escaping, and the output contains it. *)
Theorem generateFallbackHTML_embeds p :
  let shown := take 100 p ++ (if (100 <? length p)%nat then lit "..." else []) in
  generateFallbackHTML p = fallback_head ++ shown ++ fallback_tail /\
  (length (take 100 p) <= 100)%nat /\
  contains shown (generateFallbackHTML p) = true.
Proof.
  cbv zeta. unfold generateFallbackHTML. rewrite safePrompt_eq.
  split; [reflexivity|]. split.
  - rewrite length_take. lia.
  - apply contains_app.
Qed.

(** C3 as stated fails: the prompt is not escaped.  For the prompt <b> the
    output differs from the template around the escaped prompt, does not
    contain the escaped prompt, and contains the raw markup. *)
Lemma generateFallbackHTML_not_escaped :
  generateFallbackHTML (lit "<b>") <> spec_synthesize (lit "<b>") /\
  spec_escape_html (safePrompt (lit "<b>")) = lit "&lt;b&gt;" /\
  contains (lit "&lt;b&gt;") (generateFallbackHTML (lit "<b>")) = false /\
  contains (lit "<b>") (generateFallbackHTML (lit "<b>")) = true.
Proof.
  split; [intros H; vm_compute in H; discriminate|].
  split; [vm_compute; reflexivity|].
  split; vm_compute; reflexivity.
Qed.

(** ** C4: an extracted record without htmlContent *)

(** C4, as the code has it.  When the model answers and [extractJSON]
    yields a truthy value whose htmlContent is falsy (empty, or missing),
    [generateScreenData] keeps the record: name, description and
    cssContent are the extracted ones (or their defaults) and htmlContent
    is the fallback HTML; the last resort is not tried and nothing is
    thrown. *)
Theorem generateScreenData_keeps_record env prompt sys text w :
  generateText env (fullPrompt sys prompt) = Some text ->
  truthy (extractJSON text) = true ->
  truthy (get_prop (extractJSON text) k_htmlContent) = false ->
  fst (generateScreenData env prompt sys w) =
  Val (mkScreenData
         (js_or (get_prop (extractJSON text) k_name) (VStr generated_screen))
         (js_or (get_prop (extractJSON text) k_description) (VStr []))
         (VStr (generateFallbackHTML prompt))
         (js_or (get_prop (extractJSON text) k_cssContent) (VStr []))).
Proof.
  intros Hm Hp Hh.
  unfold generateScreenData, try_catch, bind, callModel, bind, emit.
  rewrite Hm. cbn [ret]. rewrite Hp. cbn [ret fst].
  unfold js_or at 3. rewrite Hh. reflexivity.
Qed.

Lemma generateScreenData_keeps_record_witness :
  fst (generateScreenData (ex_env (Some empty_html_text)) (lit "a login screen")
         systemPrompt ex_world) =
  Val (mkScreenData (VStr (lit "Login")) (VStr [])
         (VStr (generateFallbackHTML (lit "a login screen"))) (VStr [])).
Proof.
  rewrite (generateScreenData_keeps_record _ _ _ empty_html_text);
    [vm_compute; reflexivity | reflexivity | vm_compute; reflexivity
    | vm_compute; reflexivity].
Defined.

(** C4 as stated fails: for the response [empty_html_text], whose htmlContent is
    the empty string, the result differs from what treating the response
    as NoMatch gives (there the name would be Generated Screen). *)
Lemma generateScreenData_not_NoMatch :
  truthy (extractJSON empty_html_text) = true /\
  get_prop (extractJSON empty_html_text) k_htmlContent = VStr [] /\
  fst (generateScreenData (ex_env (Some empty_html_text)) (lit "a login screen")
         systemPrompt ex_world) <>
  fst (treat_as_NoMatch (lit "a login screen") empty_html_text ex_world) /\
  (exists sd,
     fst (generateScreenData (ex_env (Some empty_html_text)) (lit "a login screen")
            systemPrompt ex_world) = Val sd /\
     name sd = VStr (lit "Login")) /\
  (exists sd,
     fst (treat_as_NoMatch (lit "a login screen") empty_html_text ex_world) = Val sd /\
     name sd = VStr (lit "Generated Screen")).
Proof.
  split; [vm_compute; reflexivity|].
  split; [vm_compute; reflexivity|].
  split; [intros H; vm_compute in H; discriminate|].
  split; eexists; (split; [vm_compute; reflexivity | reflexivity]).
Qed.

(** ** C7: the field-by-field strategy *)



(** ** C8: round trip through the first strategy *)

Module JsonFacts.
Import Json.

Lemma hex_val_digit d : d < 16 -> hex_val (hex_digit d) = Some d.
Proof.
  intros H.
  assert (Hd : d = 0 \/ d = 1 \/ d = 2 \/ d = 3 \/ d = 4 \/ d = 5 \/ d = 6 \/
               d = 7 \/ d = 8 \/ d = 9 \/ d = 10 \/ d = 11 \/ d = 12 \/
               d = 13 \/ d = 14 \/ d = 15) by lia.
  repeat (destruct Hd as [-> | Hd]; [reflexivity|]). subst. reflexivity.
Qed.

Lemma hex4_escape c :
  c < 65536 ->
  hex4 (hex_digit (c / 4096 mod 16)) (hex_digit (c / 256 mod 16))
       (hex_digit (c / 16 mod 16)) (hex_digit (c mod 16)) = Some c.
Proof.
  intros H. unfold hex4.
  rewrite !hex_val_digit by (apply N.mod_lt; discriminate).
  f_equal. zify. Z.to_euclidean_division_equations. lia.
Qed.

Lemma parse_escape c rest :
  c < 65536 ->
  forall str tail,
    parse_string_body rest = Some (str, tail) ->
    parse_string_body (unicode_escape c ++ rest) = Some (c :: str, tail).
Proof.
  intros Hc str tail H. unfold unicode_escape.
  cbn [app parse_string_body]. cbn [N.eqb Pos.eqb].
  rewrite hex4_escape by exact Hc. rewrite H. reflexivity.
Qed.

(** An ordinary character stands for itself. *)
Lemma parse_plain c rest str tail :
  (c =? 34) = false -> (c =? 92) = false -> (c <? 32) = false ->
  parse_string_body rest = Some (str, tail) ->
  parse_string_body (c :: rest) = Some (c :: str, tail).
Proof.
  intros H1 H2 H3 H. cbn [parse_string_body]. rewrite H1, H2, H3, H.
  reflexivity.
Qed.

(** Reading back a quoted string gives the string. *)
Lemma parse_quote_body s rest :
  parse_string_body (quote_body s ++ 34 :: rest) = Some (s, rest).
Proof.
  remember (length s) as n eqn:Hn.
  assert (Hle : (length s <= n)%nat) by lia. clear Hn.
  revert s Hle. induction n as [|n IH]; intros s Hle.
  - destruct s; [reflexivity | simpl in Hle; lia].
  - destruct s as [|c s]; [reflexivity|].
    cbn [length] in Hle.
    assert (IHs : parse_string_body (quote_body s ++ 34 :: rest) = Some (s, rest))
      by (apply IH; lia).
    cbn [quote_body].
    destruct (c =? 34) eqn:E34.
    { apply N.eqb_eq in E34 as ->. cbn [app parse_string_body].
      cbn. rewrite IHs. reflexivity. }
    destruct (c =? 92) eqn:E92.
    { apply N.eqb_eq in E92 as ->. cbn [app parse_string_body].
      cbn. rewrite IHs. reflexivity. }
    destruct (c =? 8) eqn:E8.
    { apply N.eqb_eq in E8 as ->. cbn [app parse_string_body].
      cbn. rewrite IHs. reflexivity. }
    destruct (c =? 9) eqn:E9.
    { apply N.eqb_eq in E9 as ->. cbn [app parse_string_body].
      cbn. rewrite IHs. reflexivity. }
    destruct (c =? 10) eqn:E10.
    { apply N.eqb_eq in E10 as ->. cbn [app parse_string_body].
      cbn. rewrite IHs. reflexivity. }
    destruct (c =? 12) eqn:E12.
    { apply N.eqb_eq in E12 as ->. cbn [app parse_string_body].
      cbn. rewrite IHs. reflexivity. }
    destruct (c =? 13) eqn:E13.
    { apply N.eqb_eq in E13 as ->. cbn [app parse_string_body].
      cbn. rewrite IHs. reflexivity. }
    destruct (c <? 32) eqn:E32.
    { rewrite <- app_assoc. apply parse_escape; [|exact IHs].
      apply N.ltb_lt in E32. lia. }
    destruct (is_high_surrogate c) eqn:Ehi.
    { unfold is_high_surrogate in Ehi.
      apply andb_true_iff in Ehi as [Hlo Hhi].
      apply N.leb_le in Hlo, Hhi.
      destruct s as [|d s'].
      - cbn [quote_body app] in *. 
        change (unicode_escape c ++ 34 :: rest) with
          (unicode_escape c ++ (34 :: rest)).
        apply parse_escape; [lia|reflexivity].
      - destruct (is_low_surrogate d) eqn:Elo.
        + unfold is_low_surrogate in Elo.
          apply andb_true_iff in Elo as [Hlo' Hhi'].
          apply N.leb_le in Hlo', Hhi'.
          cbn [app]. cbn [length] in Hle.
          apply parse_plain;
            [apply N.eqb_neq; lia | apply N.eqb_neq; lia | apply N.ltb_ge; lia|].
          apply parse_plain;
            [apply N.eqb_neq; lia | apply N.eqb_neq; lia | apply N.ltb_ge; lia|].
          apply IH. lia.
        + rewrite <- app_assoc. apply parse_escape; [lia | exact IHs]. }
    destruct (is_low_surrogate c) eqn:Elo.
    { unfold is_low_surrogate in Elo.
      apply andb_true_iff in Elo as [Hlo' Hhi'].
      apply N.leb_le in Hlo', Hhi'.
      rewrite <- app_assoc. apply parse_escape; [lia | exact IHs]. }
    cbn [app]. apply parse_plain; auto.
Qed.

Lemma parse_value_string f s rest :
  parse_value (S f) (34 :: quote_body s ++ 34 :: rest) = POk (VStr s) rest.
Proof.
  change (parse_value (S f) (34 :: ?x)) with
    (match parse_string_body x with
     | Some (str, rest) => POk (VStr str) rest
     | None => PErr
     end).
  rewrite parse_quote_body. reflexivity.
Qed.

(** A member whose value is a string, and what follows it. *)
Lemma parse_member_string f key v rest acc :
  parse_member (S (S f))
    (quote_body key ++ 34 :: 58 :: 34 :: quote_body v ++ 34 :: rest) acc =
  let u := skip_ws rest in
  if starts_with 125 u then POk (VObj (rev ((key, VStr v) :: acc))) (tl u)
  else if starts_with 44 u then
    let u' := skip_ws (tl u) in
    if starts_with 34 u' then
      parse_member (S f) (tl u') ((key, VStr v) :: acc)
    else PErr
  else PErr.
Proof.
  change (parse_member (S (S f)) ?s ?a) with
    (match parse_string_body s with
     | None => PErr
     | Some (key, s1) =>
         let t := skip_ws s1 in
         if starts_with 58 t then
           match parse_value (S f) (tl t) with
           | POk v rest =>
               let u := skip_ws rest in
               if starts_with 125 u then
                 POk (VObj (rev ((key, v) :: a))) (tl u)
               else if starts_with 44 u then
                 let u' := skip_ws (tl u) in
                 if starts_with 34 u' then
                   parse_member (S f) (tl u') ((key, v) :: a)
                 else PErr
               else PErr
           | PErr => PErr
           | PFuel => PFuel
           end
         else PErr
     end).
  rewrite parse_quote_body.
  change (skip_ws (58 :: ?x)) with (58 :: x). cbv zeta.
  change (starts_with 58 (58 :: ?x)) with true. cbv iota. cbn [tl].
  rewrite parse_value_string. reflexivity.
Qed.

Lemma parse_value_object f s :
  parse_value (S f) (123 :: 34 :: s) = parse_member f s [].
Proof. reflexivity. Qed.

Lemma stringify_screen_eq n d h c :
  stringify_screen n d h c =
  123 :: 34 :: quote_body k_name ++ 34 :: 58 :: 34 :: quote_body n ++ 34 ::
  44 :: 34 :: quote_body k_description ++ 34 :: 58 :: 34 :: quote_body d ++ 34 ::
  44 :: 34 :: quote_body k_htmlContent ++ 34 :: 58 :: 34 :: quote_body h ++ 34 ::
  44 :: 34 :: quote_body k_cssContent ++ 34 :: 58 :: 34 :: quote_body c ++ 34 ::
  [125].
Proof.
  unfold stringify_screen, stringify_string.
  change (lit "{") with [123]. change (lit ":") with [58].
  change (lit ",") with [44]. change (lit "}") with [125].
  repeat rewrite <- app_assoc. reflexivity.
Qed.

Lemma parse_stringify_screen n d h c :
  parse (stringify_screen n d h c) =
  Some (VObj [ (k_name, VStr n); (k_description, VStr d);
               (k_htmlContent, VStr h); (k_cssContent, VStr c) ]).
Proof.
  unfold parse.
  assert (Hfuel : exists f, S (length (stringify_screen n d h c)) =
                            S (S (S (S (S (S f)))))).
  { rewrite stringify_screen_eq. cbn [length]. rewrite length_app.
    cbn [length]. eexists. reflexivity. }
  destruct Hfuel as [f ->]. rewrite stringify_screen_eq.
  rewrite parse_value_object.
  rewrite parse_member_string.
  change (skip_ws (44 :: 34 :: ?x)) with (44 :: 34 :: x). cbv zeta.
  change (starts_with 125 (44 :: ?x)) with false.
  change (starts_with 44 (44 :: ?x)) with true. cbv iota. cbn [tl].
  change (skip_ws (34 :: ?x)) with (34 :: x).
  change (starts_with 34 (34 :: ?x)) with true. cbv iota. cbn [tl].
  rewrite parse_member_string.
  change (skip_ws (44 :: 34 :: ?x)) with (44 :: 34 :: x). cbv zeta.
  change (starts_with 125 (44 :: ?x)) with false.
  change (starts_with 44 (44 :: ?x)) with true. cbv iota. cbn [tl].
  change (skip_ws (34 :: ?x)) with (34 :: x).
  change (starts_with 34 (34 :: ?x)) with true. cbv iota. cbn [tl].
  rewrite parse_member_string.
  change (skip_ws (44 :: 34 :: ?x)) with (44 :: 34 :: x). cbv zeta.
  change (starts_with 125 (44 :: ?x)) with false.
  change (starts_with 44 (44 :: ?x)) with true. cbv iota. cbn [tl].
  change (skip_ws (34 :: ?x)) with (34 :: x).
  change (starts_with 34 (34 :: ?x)) with true. cbv iota. cbn [tl].
  rewrite parse_member_string.
  reflexivity.
Qed.

End JsonFacts.

(** C8.  For every record of the four string fields, [extractJSON] applied
    to its serialization ([JSON.stringify] of the record) returns the
    record: an object with the same four fields and values. *)
Theorem extractJSON_roundtrip (n d h c : jsstring) :
  extractJSON (stringify_screen n d h c) =
  VObj [ (k_name, VStr n); (k_description, VStr d);
         (k_htmlContent, VStr h); (k_cssContent, VStr c) ].
Proof.
  unfold extractJSON, pattern1.
  rewrite JsonFacts.parse_stringify_screen. reflexivity.
Qed.

(** ** The handler, path by path *)

(** [generateScreenData] returns a record, calls the model once and
    touches nothing but the event log. *)
Lemma generateScreenData_frame env prompt sys w :
  exists sd evs,
    generateScreenData env prompt sys w =
      (Val sd, mkWorld (projects w) (screens w) (promptHistory w) (limiter w)
                       (evs ++ events w)) /\
    prompts evs = [fullPrompt sys prompt].
Proof.
  unfold generateScreenData, try_catch, bind, callModel, bind, emit.
  destruct (generateText env _) as [text|]; cbn [ret throw].
  - destruct (truthy (extractJSON text)); cbn [ret].
    + eexists _, [_]. split; reflexivity.
    + unfold last_resort. destruct (js_match_g re_tags text); cbn [ret throw].
      * eexists _, [_]. split; reflexivity.
      * unfold on_failure, bind, console_error, emit, ret. cbn.
        eexists _, [_; _]. split; reflexivity.
  - unfold on_failure, bind, console_error, emit, ret. cbn.
    eexists _, [_; _]. split; reflexivity.
Qed.

(** The world in which the handler's [try] runs. *)
Lemma rateLimit_frame cfg env req w :
  let w1 := snd (rateLimit cfg env req w) in
  projects w1 = projects w /\ screens w1 = screens w /\
  promptHistory w1 = promptHistory w /\ events w1 = events w.
Proof.
  unfold rateLimit. destruct (check _ _ _ _) as [allowed l]. cbn. auto.
Qed.

(** What a call does to the store.  Either it writes nothing and the
    response is not a success, or every check passed, the model was
    asked and one screen was written: the row of an update or a new row.
    The write of the prompt-history row follows; when the database
    rejects it the response is the 500 and the screen stays written. *)
Lemma POST_inv env req w r w' :
  POST env req w = (r, w') ->
  (status r <> 200%nat /\ screens w' = screens w /\
   projects w' = projects w /\ promptHistory w' = promptHistory w) \/
  (fst (rateLimit RATE_LIMITS_strict env req w) = None /\
   exists userId bodyv projectId prompt screenId project sd n h c screen,
     nonempty (session req) = Some userId /\
     Json.parse (body req) = Some bodyv /\
     generateBodySchema bodyv = Some (projectId, prompt, screenId) /\
     projects w !! projectId = Some project /\
     p_userId project = userId /\
     fst (generateScreenData env (screen_prompt project prompt) systemPrompt
            (snd (rateLimit RATE_LIMITS_strict env req w))) = Val sd /\
     as_string (name sd) = Some n /\
     as_string (htmlContent sd) = Some h /\
     as_string (cssContent sd) = Some c /\
     projects w' = projects w /\
     match nonempty screenId with
     | Some sid =>
         exists old,
           screens w !! sid = Some old /\
           screens w' = <[sid := screen]> (screens w) /\
           screen = mkScreen (s_id old) (s_projectId old) n h c
                             (s_x old) (s_y old) (s_width old) (s_height old)
                             (now env)
     | None =>
         screens w !! newScreenId env = None /\
         screens w' = <[newScreenId env := screen]> (screens w) /\
         screen = mkScreen (newScreenId env) projectId n h c
                           (defaultX env) (defaultY env) 375 812 (now env)
     end /\
     if historyWriteFails env then
       r = mkResponse 500 (BError (lit "Failed to generate screen")) /\
       promptHistory w' = promptHistory w
     else
       r = mkResponse 200 (BSuccess screen (fallback_flag sd)) /\
       promptHistory w' =
         promptHistory w ++ [mkPromptHistory projectId prompt (lit "user")]).
Proof.
  intros H.
  pose proof (rateLimit_frame RATE_LIMITS_strict env req w)
    as (Hp1 & Hs1 & Hh1 & He1).
  cbv zeta in Hp1, Hs1, Hh1, He1.
  unfold POST in H.
  destruct (rateLimit RATE_LIMITS_strict env req w) as [[rl|] w1] eqn:Hrl;
    cbn [fst snd] in *.
  { injection H as <- <-. left.
    unfold rateLimit in Hrl. destruct (check _ _ _ _) as [[] l];
      [discriminate Hrl | injection Hrl as <- _].
    cbn. repeat split; (discriminate || assumption). }
  unfold handle in H.
  destruct (nonempty (session req)) as [userId|] eqn:Hu;
    [|cbn in H; injection H as <- <-; left; cbn;
      repeat split; (discriminate || assumption)].
  unfold bind at 1 in H. unfold req_json in H.
  destruct (Json.parse (body req)) as [bodyv|] eqn:Hb;
    [|cbn in H; injection H as <- <-; left; cbn;
      repeat split; (discriminate || assumption)].
  cbn [ret] in H.
  destruct (generateBodySchema bodyv) as [[[projectId prompt] screenId]|] eqn:Hv;
    [|cbn in H; injection H as <- <-; left; cbn;
      repeat split; (discriminate || assumption)].
  unfold bind at 1 in H. unfold project_findUnique in H.
  rewrite Hp1 in H.
  destruct (projects w !! projectId) as [project|] eqn:Hpr;
    [|cbn in H; injection H as <- <-; left; cbn;
      repeat split; (discriminate || assumption)].
  destruct (str_eqb (p_userId project) userId) eqn:Ho;
    [|cbn in H; injection H as <- <-; left; cbn;
      repeat split; (discriminate || assumption)].
  cbn [negb] in H. apply bool_decide_eq_true in Ho.
  unfold bind at 1 in H.
  destruct (generateScreenData_frame env (screen_prompt project prompt)
              systemPrompt w1) as (sd & evs & Hg & _).
  rewrite Hg in H.
  unfold bind at 1 in H.
  destruct (nonempty screenId) as [sid|] eqn:Hsid.
  - unfold screen_update in H.
    destruct (as_string (name sd)) as [n|] eqn:Hn;
      [|cbn in H; injection H as <- <-; left; cbn;
        repeat split; (discriminate || assumption)].
    destruct (as_string (htmlContent sd)) as [h|] eqn:Hh;
      [|cbn in H; injection H as <- <-; left; cbn;
        repeat split; (discriminate || assumption)].
    destruct (as_string (cssContent sd)) as [c|] eqn:Hc;
      [|cbn in H; injection H as <- <-; left; cbn;
        repeat split; (discriminate || assumption)].
    cbn [screens] in H. rewrite Hs1 in H.
    destruct (screens w !! sid) as [old|] eqn:Hold;
      [|cbn in H; injection H as <- <-; left; cbn;
        repeat split; (discriminate || assumption)].
    right. split; [reflexivity|].
    exists userId, bodyv, projectId, prompt, screenId, project, sd, n, h, c.
    eexists. rewrite Hg, Hsid. cbn [fst].
    unfold bind, promptHistory_create in H.
    destruct (historyWriteFails env); cbn in H; injection H as <- <-; cbn;
      rewrite ?Hp1, ?Hs1, ?Hh1;
      (repeat (split; [reflexivity || assumption|]));
      (split; [exists old; repeat split; (reflexivity || assumption)
              | split; reflexivity]).
  - unfold screen_create in H.
    destruct (as_string (name sd)) as [n|] eqn:Hn;
      [|cbn in H; injection H as <- <-; left; cbn;
        repeat split; (discriminate || assumption)].
    destruct (as_string (htmlContent sd)) as [h|] eqn:Hh;
      [|cbn in H; injection H as <- <-; left; cbn;
        repeat split; (discriminate || assumption)].
    destruct (as_string (cssContent sd)) as [c|] eqn:Hc;
      [|cbn in H; injection H as <- <-; left; cbn;
        repeat split; (discriminate || assumption)].
    cbn [screens] in H. rewrite Hs1 in H.
    destruct (screens w !! newScreenId env) as [old|] eqn:Hold;
      [cbn in H; injection H as <- <-; left; cbn;
       repeat split; (discriminate || assumption)|].
    right. split; [reflexivity|].
    exists userId, bodyv, projectId, prompt, screenId, project, sd, n, h, c.
    eexists. rewrite Hg, Hsid. cbn [fst].
    unfold bind, promptHistory_create in H.
    destruct (historyWriteFails env); cbn in H; injection H as <- <-; cbn;
      rewrite ?Hp1, ?Hs1, ?Hh1;
      (repeat (split; [reflexivity || assumption|]));
      (split; [repeat split; reflexivity | split; reflexivity]).
Qed.

(** What a 200 response tells: every check passed, the model was asked,
    and the screen in the response is the row that was written. *)
Lemma POST_success_inv env req w screen fb w' :
  POST env req w = (mkResponse 200 (BSuccess screen fb), w') ->
  let w1 := snd (rateLimit RATE_LIMITS_strict env req w) in
  fst (rateLimit RATE_LIMITS_strict env req w) = None /\
  exists userId bodyv projectId prompt screenId project sd n h c,
    nonempty (session req) = Some userId /\
    Json.parse (body req) = Some bodyv /\
    generateBodySchema bodyv = Some (projectId, prompt, screenId) /\
    projects w !! projectId = Some project /\
    p_userId project = userId /\
    fst (generateScreenData env (screen_prompt project prompt) systemPrompt w1)
      = Val sd /\
    as_string (name sd) = Some n /\
    as_string (htmlContent sd) = Some h /\
    as_string (cssContent sd) = Some c /\
    fb = fallback_flag sd /\
    projects w' = projects w /\
    promptHistory w' =
      promptHistory w ++ [mkPromptHistory projectId prompt (lit "user")] /\
    match nonempty screenId with
    | Some sid =>
        exists old,
          screens w !! sid = Some old /\
          screens w' = <[sid := screen]> (screens w) /\
          screen = mkScreen (s_id old) (s_projectId old) n h c
                            (s_x old) (s_y old) (s_width old) (s_height old)
                            (now env)
    | None =>
        screens w !! newScreenId env = None /\
        screens w' = <[newScreenId env := screen]> (screens w) /\
        screen = mkScreen (newScreenId env) projectId n h c
                          (defaultX env) (defaultY env) 375 812 (now env)
    end.
Proof.
  intros H. cbv zeta.
  apply POST_inv in H as [(Hst & _) | (Hrl & H)];
    [exfalso; apply Hst; reflexivity|].
  split; [exact Hrl|].
  destruct H as (userId & bodyv & projectId & prompt & screenId & project &
                 sd & n & h & c & screen' & Hu & Hb & Hv & Hp & Ho & Hg &
                 Hn & Hh & Hc & Hpw & Hscr & Hlog).
  exists userId, bodyv, projectId, prompt, screenId, project, sd, n, h, c.
  destruct (historyWriteFails env); destruct Hlog as [Hr Hhist];
    [discriminate Hr|].
  injection Hr as <- <-.
  repeat (split; [reflexivity || assumption|]). exact Hscr.
Qed.

(** The checks that stop the handler, and the update path, run forward. *)
Section Paths.
Variables (env : Env) (req : Request) (w : World).
Hypothesis Hallowed : fst (rateLimit RATE_LIMITS_strict env req w) = None.

Let w1 := snd (rateLimit RATE_LIMITS_strict env req w).

Lemma POST_unauthenticated :
  nonempty (session req) = None ->
  POST env req w = (mkResponse 401 (BError (lit "Unauthorized")), w1).
Proof.
  intros Hu. unfold POST. subst w1.
  destruct (rateLimit RATE_LIMITS_strict env req w) as [r w2].
  cbn [fst snd] in *. subst r.
  unfold handle. rewrite Hu. reflexivity.
Qed.

Section Validated.
Variables (userId : jsstring) (bodyv : Value)
          (projectId prompt : jsstring) (screenId : option jsstring).
Hypothesis Huser : nonempty (session req) = Some userId.
Hypothesis Hbody : Json.parse (body req) = Some bodyv.
Hypothesis Hvalid :
  generateBodySchema bodyv = Some (projectId, prompt, screenId).

Lemma POST_project_missing :
  projects w !! projectId = None ->
  POST env req w =
    (mkResponse 404 (BError (lit "Project not found")), w1).
Proof.
  intros Hp. unfold POST. subst w1.
  pose proof (rateLimit_frame RATE_LIMITS_strict env req w) as (Hp1 & _).
  destruct (rateLimit RATE_LIMITS_strict env req w) as [r w2].
  cbn [fst snd] in *. subst r.
  unfold handle. rewrite Huser. unfold bind at 1, req_json.
  rewrite Hbody. cbn [ret]. rewrite Hvalid.
  unfold bind at 1, project_findUnique. rewrite Hp1, Hp. reflexivity.
Qed.

Lemma POST_not_owner project :
  projects w !! projectId = Some project ->
  p_userId project <> userId ->
  POST env req w = (mkResponse 403 (BError (lit "Unauthorized")), w1).
Proof.
  intros Hp Hne. unfold POST. subst w1.
  pose proof (rateLimit_frame RATE_LIMITS_strict env req w) as (Hp1 & _).
  destruct (rateLimit RATE_LIMITS_strict env req w) as [r w2].
  cbn [fst snd] in *. subst r.
  unfold handle. rewrite Huser. unfold bind at 1, req_json.
  rewrite Hbody. cbn [ret]. rewrite Hvalid.
  unfold bind at 1, project_findUnique. rewrite Hp1, Hp.
  unfold str_eqb. rewrite bool_decide_eq_false_2 by exact Hne.
  reflexivity.
Qed.

Lemma POST_update project sid sd n h c old :
  screenId = Some sid -> sid <> [] ->
  projects w !! projectId = Some project ->
  p_userId project = userId ->
  fst (generateScreenData env (screen_prompt project prompt)
         systemPrompt w1) = Val sd ->
  as_string (name sd) = Some n ->
  as_string (htmlContent sd) = Some h ->
  as_string (cssContent sd) = Some c ->
  screens w !! sid = Some old ->
  let new := mkScreen (s_id old) (s_projectId old) n h c
                      (s_x old) (s_y old) (s_width old) (s_height old)
                      (now env) in
  exists w',
    POST env req w =
      (if historyWriteFails env
       then mkResponse 500 (BError (lit "Failed to generate screen"))
       else mkResponse 200 (BSuccess new (fallback_flag sd)), w') /\
    screens w' = <[sid := new]> (screens w).
Proof.
  intros -> Hsid Hp Ho Hg Hn Hh Hc Hold. cbv zeta.
  unfold POST. subst w1.
  pose proof (rateLimit_frame RATE_LIMITS_strict env req w)
    as (Hp1 & Hs1 & _).
  destruct (rateLimit RATE_LIMITS_strict env req w) as [r w2].
  cbn [fst snd] in *. subst r.
  unfold handle. rewrite Huser. unfold bind at 1, req_json.
  rewrite Hbody. cbn [ret]. rewrite Hvalid.
  unfold bind at 1, project_findUnique. rewrite Hp1, Hp.
  unfold str_eqb. rewrite bool_decide_eq_true_2 by exact Ho.
  cbn [negb]. unfold bind at 1.
  destruct (generateScreenData_frame env (screen_prompt project prompt)
              systemPrompt w2) as (sd' & evs & Hg' & _).
  rewrite Hg' in Hg |- *. cbn [fst] in Hg. injection Hg as ->.
  unfold bind at 1.
  destruct sid as [|ch sid]; [contradiction|]. cbn [nonempty].
  unfold screen_update. rewrite Hn, Hh, Hc. cbn [screens].
  rewrite Hs1, Hold. unfold bind, promptHistory_create.
  destruct (historyWriteFails env); cbn; eexists; split; reflexivity.
Qed.
End Validated.
End Paths.

Lemma model_calls_rateLimit cfg env req w :
  model_calls (snd (rateLimit cfg env req w)) = model_calls w.
Proof.
  unfold model_calls.
  destruct (rateLimit_frame cfg env req w) as (_ & _ & _ & ->). reflexivity.
Qed.

(** When the write of the prompt-history row does not fail, a response
    other than 200 leaves the screens as they were. *)
Lemma POST_failure_frame env req w r w' :
  POST env req w = (r, w') ->
  historyWriteFails env = false ->
  status r <> 200%nat ->
  screens w' = screens w.
Proof.
  intros H Hf Hst. apply POST_inv in H as [(_ & H & _) | (_ & H)];
    [exact H|].
  destruct H as (userId & bodyv & projectId & prompt & screenId & project &
                 sd & n & h & c & screen & _ & _ & _ & _ & _ & _ &
                 _ & _ & _ & _ & _ & Hlog).
  rewrite Hf in Hlog. destruct Hlog as [-> _]. contradiction Hst. reflexivity.
Qed.

(** ** C6: the order of the checks *)

Lemma prompts_app evs1 evs2 : prompts (evs1 ++ evs2) = prompts evs1 ++ prompts evs2.
Proof.
  induction evs1 as [|[p|t e] evs1 IH]; cbn [app prompts]; [reflexivity| |exact IH].
  rewrite IH. reflexivity.
Qed.

(** The model is called only on the path on which every check passed. *)
Lemma POST_model_called env req w :
  model_calls (snd (POST env req w)) <> model_calls w ->
  fst (rateLimit RATE_LIMITS_strict env req w) = None /\
  exists userId bodyv projectId prompt screenId project,
    nonempty (session req) = Some userId /\
    Json.parse (body req) = Some bodyv /\
    generateBodySchema bodyv = Some (projectId, prompt, screenId) /\
    projects w !! projectId = Some project /\
    p_userId project = userId.
Proof.
  intros H.
  pose proof (rateLimit_frame RATE_LIMITS_strict env req w) as (Hp1 & _ & _ & He1).
  cbv zeta in Hp1, He1. unfold POST, model_calls in H.
  destruct (rateLimit RATE_LIMITS_strict env req w) as [[r|] w1];
    cbn [fst snd] in *.
  { rewrite He1 in H. contradiction. }
  split; [reflexivity|].
  unfold handle in H.
  destruct (nonempty (session req)) as [userId|] eqn:Hu;
    [|cbn in H; rewrite He1 in H; contradiction].
  unfold bind at 1 in H. unfold req_json in H.
  destruct (Json.parse (body req)) as [bodyv|] eqn:Hb;
    [|cbn in H; rewrite He1 in H; contradiction].
  cbn [ret] in H.
  destruct (generateBodySchema bodyv) as [[[projectId prompt] screenId]|] eqn:Hv;
    [|cbn in H; rewrite He1 in H; contradiction].
  unfold bind at 1 in H. unfold project_findUnique in H. rewrite Hp1 in H.
  destruct (projects w !! projectId) as [project|] eqn:Hpr;
    [|cbn in H; rewrite He1 in H; contradiction].
  destruct (str_eqb (p_userId project) userId) eqn:Ho;
    [|cbn in H; rewrite He1 in H; contradiction].
  apply bool_decide_eq_true in Ho.
  exists userId, bodyv, projectId, prompt, screenId, project.
  repeat (split; [reflexivity || assumption|]). assumption.
Qed.

(** C6.  Past the rate limit the handler checks, in this order, the
    caller identity (401 when there is none), the project (404 when it is
    not found) and its owner (403 with the error Unauthorized when it is
    not the caller); the body is validated between the first and the
    second.  None of the three responses involves the model, and the model
    is called only when all the checks passed. *)
Theorem POST_checks_in_order env req w :
  fst (rateLimit RATE_LIMITS_strict env req w) = None ->
  (nonempty (session req) = None ->
   fst (POST env req w) = mkResponse 401 (BError (lit "Unauthorized")) /\
   model_calls (snd (POST env req w)) = model_calls w) /\
  (forall userId bodyv projectId prompt screenId,
     nonempty (session req) = Some userId ->
     Json.parse (body req) = Some bodyv ->
     generateBodySchema bodyv = Some (projectId, prompt, screenId) ->
     (projects w !! projectId = None ->
      fst (POST env req w) = mkResponse 404 (BError (lit "Project not found")) /\
      model_calls (snd (POST env req w)) = model_calls w) /\
     (forall project,
        projects w !! projectId = Some project ->
        p_userId project <> userId ->
        fst (POST env req w) = mkResponse 403 (BError (lit "Unauthorized")) /\
        model_calls (snd (POST env req w)) = model_calls w)) /\
  (model_calls (snd (POST env req w)) <> model_calls w ->
   exists userId bodyv projectId prompt screenId project,
     nonempty (session req) = Some userId /\
     Json.parse (body req) = Some bodyv /\
     generateBodySchema bodyv = Some (projectId, prompt, screenId) /\
     projects w !! projectId = Some project /\
     p_userId project = userId).
Proof.
  intros Hrl. split; [|split].
  - intros Hu. rewrite (POST_unauthenticated _ _ _ Hrl Hu). cbn [fst snd].
    split; [reflexivity | apply model_calls_rateLimit].
  - intros userId bodyv projectId prompt screenId Hu Hb Hv. split.
    + intros Hp.
      rewrite (POST_project_missing _ _ _ Hrl _ _ _ _ _ Hu Hb Hv Hp).
      cbn [fst snd]. split; [reflexivity | apply model_calls_rateLimit].
    + intros project Hp Hne.
      rewrite (POST_not_owner _ _ _ Hrl _ _ _ _ _ Hu Hb Hv _ Hp Hne).
      cbn [fst snd]. split; [reflexivity | apply model_calls_rateLimit].
  - intros H. apply POST_model_called in H as [_ H]. exact H.
Qed.

(** Bob asks for a screen in Alice's project P1: 403, Unauthorized. *)
Lemma POST_checks_in_order_witness :
  fst (POST (ex_env None) (ex_request bob body_create) ex_world) =
    mkResponse 403 (BError (lit "Unauthorized")) /\
  model_calls (snd (POST (ex_env None) (ex_request bob body_create) ex_world))
    = model_calls ex_world.
Proof.
  destruct (POST_checks_in_order (ex_env None) (ex_request bob body_create)
              ex_world) as (_ & H & _); [vm_compute; reflexivity|].
  destruct (H (lit "bob")
              (VObj [ (lit "projectId", VStr (lit "P1"));
                      (lit "prompt", VStr (lit "a login screen")) ])
              (lit "P1") (lit "a login screen") None) as (_ & H');
    [vm_compute; reflexivity ..|].
  apply (H' (mkProject (lit "alice") (lit "Shop")));
    [vm_compute; reflexivity | vm_compute; discriminate].
Defined.

(** ** C2: the fallback flag *)

(** The classification [content_source] is the one the code makes. *)
Lemma content_source_sound env prompt sys w sd :
  fst (generateScreenData env prompt sys w) = Val sd ->
  match content_source (generateText env (fullPrompt sys prompt)) with
  | FromModel =>
      exists text,
        generateText env (fullPrompt sys prompt) = Some text /\
        htmlContent sd = get_prop (extractJSON text) k_htmlContent
  | FromScraping =>
      exists text htmlOnly,
        generateText env (fullPrompt sys prompt) = Some text /\
        js_match_g re_tags text = Some htmlOnly /\
        htmlContent sd = VStr (join [10] (take 5 htmlOnly))
  | FromFallback => htmlContent sd = VStr (generateFallbackHTML prompt)
  end.
Proof.
  unfold generateScreenData, try_catch, bind, callModel, bind, emit,
    content_source.
  destruct (generateText env _) as [text|]; cbn [ret throw].
  - destruct (truthy (extractJSON text)) eqn:Hp; cbn [ret fst].
    + intros [= <-]. cbn [htmlContent]. unfold js_or.
      destruct (truthy (get_prop (extractJSON text) k_htmlContent));
        [exists text; auto | reflexivity].
    + unfold last_resort.
      destruct (js_match_g re_tags text) as [htmlOnly|] eqn:Hm; cbn.
      * intros [= <-]. exists text, htmlOnly. auto.
      * intros [= <-]. reflexivity.
  - cbn. intros [= <-]. reflexivity.
Qed.

(** Without a record from [extractJSON] the name is the fixed one. *)
Lemma generateScreenData_no_record env prompt sys w sd :
  fst (generateScreenData env prompt sys w) = Val sd ->
  generateText env (fullPrompt sys prompt) = None \/
  (exists text, generateText env (fullPrompt sys prompt) = Some text /\
                truthy (extractJSON text) = false) ->
  name sd = VStr generated_screen.
Proof.
  unfold generateScreenData, try_catch, bind, callModel, bind, emit.
  intros H [Hn | (text & Ht & Hp)].
  - rewrite Hn in H. cbn in H. injection H as <-. reflexivity.
  - rewrite Ht in H. cbn [ret] in H. rewrite Hp in H.
    unfold last_resort in H.
    destruct (js_match_g re_tags text); cbn in H; injection H as <-;
      reflexivity.
Qed.

(** With a record, the name is the extracted one or the fixed one. *)
Lemma generateScreenData_record env prompt sys w sd text :
  fst (generateScreenData env prompt sys w) = Val sd ->
  generateText env (fullPrompt sys prompt) = Some text ->
  truthy (extractJSON text) = true ->
  name sd = js_or (get_prop (extractJSON text) k_name) (VStr generated_screen).
Proof.
  unfold generateScreenData, try_catch, bind, callModel, bind, emit.
  intros H Ht Hp. rewrite Ht in H. cbn [ret] in H. rewrite Hp in H.
  cbn in H. injection H as <-. reflexivity.
Qed.

(** C2, as the code has it.  In every success response the fallback field
    is true exactly when the name of the returned screen is Generated
    Screen, and absent (undefined) otherwise.  So it is true whenever the
    model call failed or [extractJSON] found no record (the content is
    then scraped or synthesized); when [extractJSON] found a record, it is
    true exactly when the record's name, after the default for an empty or
    missing one, is Generated Screen. *)
Theorem POST_fallback_flag env req w screen fb w' :
  POST env req w = (mkResponse 200 (BSuccess screen fb), w') ->
  fb = (if str_eqb (s_name screen) generated_screen
        then VBool true else VUndefined) /\
  exists bodyv projectId prompt screenId project,
    Json.parse (body req) = Some bodyv /\
    generateBodySchema bodyv = Some (projectId, prompt, screenId) /\
    projects w !! projectId = Some project /\
    let outcome :=
      generateText env (fullPrompt systemPrompt (screen_prompt project prompt)) in
    (outcome = None \/
     (exists text, outcome = Some text /\ truthy (extractJSON text) = false) ->
     fb = VBool true) /\
    (forall text,
       outcome = Some text -> truthy (extractJSON text) = true ->
       (fb = VBool true <->
        js_or (get_prop (extractJSON text) k_name) (VStr generated_screen)
        = VStr generated_screen)).
Proof.
  intros H. apply POST_success_inv in H as (_ & H). cbv zeta in H.
  destruct H as (userId & bodyv & projectId & prompt & screenId & project &
                 sd & n & h & c & Hu & Hb & Hv & Hp & Ho & Hg & Hn & Hh & Hc &
                 -> & _ & _ & Hscr).
  assert (Hname : s_name screen = n).
  { destruct (nonempty screenId).
    - destruct Hscr as (old & _ & _ & ->). reflexivity.
    - destruct Hscr as (_ & _ & ->). reflexivity. }
  assert (Hsd : name sd = VStr n)
    by (destruct (name sd); try discriminate; injection Hn as ->; reflexivity).
  assert (Hflag : fallback_flag sd =
                  if str_eqb n generated_screen then VBool true else VUndefined)
    by (unfold fallback_flag; rewrite Hsd; reflexivity).
  split; [rewrite Hname; exact Hflag|].
  exists bodyv, projectId, prompt, screenId, project.
  repeat (split; [assumption|]). cbv zeta. split.
  - intros Hout.
    pose proof (generateScreenData_no_record _ _ _ _ _ Hg Hout) as Hgs.
    unfold fallback_flag. rewrite Hgs. reflexivity.
  - intros text Ht Hpar.
    pose proof (generateScreenData_record _ _ _ _ _ _ Hg Ht Hpar) as Hrec.
    rewrite <- Hrec, Hsd. rewrite Hflag. unfold str_eqb.
    destruct (bool_decide (n = generated_screen)) eqn:E.
    + apply bool_decide_eq_true in E as ->. split; reflexivity.
    + apply bool_decide_eq_false in E.
      split; [discriminate | intros [= ?]; contradiction].
Qed.

Lemma POST_fallback_flag_witness :
  BSuccess
    (mkScreen (lit "S9") (lit "P1") (lit "Login") (lit "<div>Login</div>") []
              0 0 375 812 1000)
    VUndefined
  = resp_body (fst (POST (ex_env (Some login_text))
                         (ex_request alice body_create) ex_world)) /\
  VUndefined = (if str_eqb (lit "Login") generated_screen
                then VBool true else VUndefined).
Proof.
  split; [vm_compute; reflexivity|].
  exact (proj1 (POST_fallback_flag (ex_env (Some login_text))
                  (ex_request alice body_create) ex_world
                  (mkScreen (lit "S9") (lit "P1") (lit "Login")
                     (lit "<div>Login</div>") [] 0 0 375 812 1000)
                  VUndefined
                  (snd (POST (ex_env (Some login_text))
                          (ex_request alice body_create) ex_world))
                  ltac:(vm_compute; reflexivity))).
Defined.

(** C2 as stated fails in both directions.  A response without a name
    whose htmlContent is extracted gets the flag; a response with a name
    and an empty htmlContent, whose content is synthesized, does not. *)
Lemma POST_fallback_flag_counterexample :
  (content_source (Some noname_text) = FromModel /\
   resp_body (fst (POST (ex_env (Some noname_text))
                        (ex_request alice body_create) ex_world)) =
   BSuccess
     (mkScreen (lit "S9") (lit "P1") (lit "Generated Screen")
               (lit "<div>Login</div>") [] 0 0 375 812 1000)
     (VBool true)) /\
  (content_source (Some empty_html_text) = FromFallback /\
   resp_body (fst (POST (ex_env (Some empty_html_text))
                        (ex_request alice body_create) ex_world)) =
   BSuccess
     (mkScreen (lit "S9") (lit "P1") (lit "Login")
               (generateFallbackHTML
                  (screen_prompt (mkProject (lit "alice") (lit "Shop"))
                                 (lit "a login screen")))
               [] 0 0 375 812 1000)
     VUndefined).
Proof.
  repeat split; vm_compute; reflexivity.
Qed.

(** ** C5: update in place or create *)

(** C5, as the code has it.  A successful call whose screenId is a
    non-empty string rewrites name, htmlContent, cssContent and updatedAt
    of the screen with that id and adds no row; a successful call without
    screenId adds exactly one row, under the project of the request, 375
    wide and 812 high, with the generated name and content.  (A call whose
    screenId is the empty string takes the second path.) *)
Theorem POST_upsert env req w bodyv projectId prompt screenId screen fb w' :
  Json.parse (body req) = Some bodyv ->
  generateBodySchema bodyv = Some (projectId, prompt, screenId) ->
  POST env req w = (mkResponse 200 (BSuccess screen fb), w') ->
  (exists project sd,
     projects w !! projectId = Some project /\
     fst (generateScreenData env (screen_prompt project prompt) systemPrompt
            (snd (rateLimit RATE_LIMITS_strict env req w))) = Val sd /\
     name sd = VStr (s_name screen) /\
     htmlContent sd = VStr (s_htmlContent screen) /\
     cssContent sd = VStr (s_cssContent screen)) /\
  s_updatedAt screen = now env /\
  match nonempty screenId with
  | Some sid =>
      is_Some (screens w !! sid) /\
      screens w' = <[sid := screen]> (screens w) /\
      dom (screens w') = dom (screens w) /\
      size (screens w') = size (screens w)
  | None =>
      screens w !! s_id screen = None /\
      screens w' = <[s_id screen := screen]> (screens w) /\
      size (screens w') = S (size (screens w)) /\
      s_projectId screen = projectId /\
      s_width screen = 375%Z /\ s_height screen = 812%Z
  end.
Proof.
  intros Hb Hv H.
  apply POST_success_inv in H as (_ & H). cbv zeta in H.
  destruct H as (userId & bodyv' & projectId' & prompt' & screenId' & project &
                 sd & n & h & c & Hu & Hb' & Hv' & Hp & Ho & Hg & Hn & Hh & Hc &
                 _ & _ & _ & Hscr).
  rewrite Hb in Hb'. injection Hb' as <-.
  rewrite Hv in Hv'. injection Hv' as <- <- <-.
  assert (Hs : forall v s, as_string v = Some s -> v = VStr s)
    by (intros [] s0 E; try discriminate; injection E as ->; reflexivity).
  apply Hs in Hn, Hh, Hc.
  destruct (nonempty screenId) as [sid|].
  - destruct Hscr as (old & Hold & Hw' & ->). cbn.
    split; [exists project, sd; auto|]. split; [reflexivity|].
    split; [eexists; exact Hold|]. split; [exact Hw'|].
    assert (Hsome : is_Some (screens w !! sid)) by (eexists; exact Hold).
    rewrite Hw'. split.
    + apply dom_insert_lookup_L. exact Hsome.
    + apply map_size_insert_Some. exact Hsome.
  - destruct Hscr as (Hnew & Hw' & ->). cbn in *.
    split; [exists project, sd; auto|]. split; [reflexivity|].
    split; [exact Hnew|]. split; [exact Hw'|].
    rewrite Hw'. split; [|auto].
    apply map_size_insert_None. exact Hnew.
Qed.

Lemma POST_upsert_witness :
  size (screens (snd (POST (ex_env (Some login_text))
                        (ex_request alice (body_update "S2")) ex_world)))
    = size (screens ex_world) /\
  size (screens (snd (POST (ex_env (Some login_text))
                        (ex_request alice body_create) ex_world)))
    = S (size (screens ex_world)).
Proof.
  split.
  - destruct
      (POST_upsert (ex_env (Some login_text))
         (ex_request alice (body_update "S2")) ex_world
         (VObj [ (lit "projectId", VStr (lit "P1"));
                 (lit "prompt", VStr (lit "a login screen"));
                 (lit "screenId", VStr (lit "S2")) ])
         (lit "P1") (lit "a login screen") (Some (lit "S2"))
         (mkScreen (lit "S2") (lit "P1") (lit "Login") (lit "<div>Login</div>")
            [] 410 20 375 812 1000)
         VUndefined
         (snd (POST (ex_env (Some login_text))
                 (ex_request alice (body_update "S2")) ex_world))
         ltac:(vm_compute; reflexivity) ltac:(vm_compute; reflexivity)
         ltac:(vm_compute; reflexivity)) as (_ & _ & H').
    cbn [nonempty lit list_ascii_of_string map] in H'.
    destruct H' as (_ & _ & _ & H'). exact H'.
  - destruct
      (POST_upsert (ex_env (Some login_text))
         (ex_request alice body_create) ex_world
         (VObj [ (lit "projectId", VStr (lit "P1"));
                 (lit "prompt", VStr (lit "a login screen")) ])
         (lit "P1") (lit "a login screen") None
         (mkScreen (lit "S9") (lit "P1") (lit "Login") (lit "<div>Login</div>")
            [] 0 0 375 812 1000)
         VUndefined
         (snd (POST (ex_env (Some login_text))
                 (ex_request alice body_create) ex_world))
         ltac:(vm_compute; reflexivity) ltac:(vm_compute; reflexivity)
         ltac:(vm_compute; reflexivity)) as (_ & _ & H').
    cbn [nonempty] in H'.
    destruct H' as (_ & _ & H' & _). exact H'.
Defined.

(** C5 as stated fails for a call that carries the empty string as its
    screenId: the body passes the validation with that screenId, the
    response is a success, and a new row (S9) is created. *)
Lemma POST_empty_screenId_creates :
  (exists bodyv,
     Json.parse (body (ex_request alice (body_update ""))) = Some bodyv /\
     generateBodySchema bodyv =
       Some (lit "P1", lit "a login screen", Some [])) /\
  fst (POST (ex_env (Some login_text)) (ex_request alice (body_update ""))
         ex_world) =
    mkResponse 200
      (BSuccess
         (mkScreen (lit "S9") (lit "P1") (lit "Login") (lit "<div>Login</div>")
                   [] 0 0 375 812 1000)
         VUndefined) /\
  screens ex_world !! lit "S9" = None /\
  is_Some (screens (snd (POST (ex_env (Some login_text))
                           (ex_request alice (body_update "")) ex_world))
             !! lit "S9") /\
  size (screens ex_world) = 2%nat /\
  size (screens (snd (POST (ex_env (Some login_text))
                        (ex_request alice (body_update "")) ex_world)))
    = 3%nat.
Proof.
  split; [eexists; split; vm_compute; reflexivity|].
  split; [vm_compute; reflexivity|].
  split; [vm_compute; reflexivity|].
  split; [eexists; vm_compute; reflexivity|].
  split; vm_compute; reflexivity.
Qed.

(** ** C9: an update leaves the canvas attributes alone *)

(** C9.  Whatever the call, a screen that exists before it exists after
    it with the same x, y, width and height (and the same id and project).
    It is either untouched or, when the call updates it, a row that
    differs from the old one in name, htmlContent, cssContent and
    updatedAt only: the screen of the success response, or, when the
    write of the prompt-history row fails after the update, the row left
    behind by a call that is answered with the 500. *)
Theorem POST_update_frame env req w r w' k old :
  POST env req w = (r, w') ->
  screens w !! k = Some old ->
  exists new,
    screens w' !! k = Some new /\
    s_x new = s_x old /\ s_y new = s_y old /\
    s_width new = s_width old /\ s_height new = s_height old /\
    s_id new = s_id old /\ s_projectId new = s_projectId old /\
    (new = old \/
     (new = mkScreen (s_id old) (s_projectId old) (s_name new)
                     (s_htmlContent new) (s_cssContent new)
                     (s_x old) (s_y old) (s_width old) (s_height old)
                     (now env) /\
      if historyWriteFails env
      then r = mkResponse 500 (BError (lit "Failed to generate screen"))
      else exists fb, r = mkResponse 200 (BSuccess new fb))).
Proof.
  intros H Hold.
  assert (Hsame : screens w' !! k = Some old ->
                  exists new,
                    screens w' !! k = Some new /\
                    s_x new = s_x old /\ s_y new = s_y old /\
                    s_width new = s_width old /\ s_height new = s_height old /\
                    s_id new = s_id old /\ s_projectId new = s_projectId old /\
                    (new = old \/
                     (new = mkScreen (s_id old) (s_projectId old) (s_name new)
                              (s_htmlContent new) (s_cssContent new)
                              (s_x old) (s_y old) (s_width old) (s_height old)
                              (now env) /\
                      if historyWriteFails env
                      then r = mkResponse 500
                                 (BError (lit "Failed to generate screen"))
                      else exists fb, r = mkResponse 200 (BSuccess new fb))))
    by (intros E; exists old; repeat (split; [reflexivity || exact E|]); auto).
  apply POST_inv in H as [(_ & Hs & _) | (_ & H)].
  { apply Hsame. rewrite Hs. exact Hold. }
  destruct H as (userId & bodyv & projectId & prompt & screenId & project &
                 sd & n & h & c & screen & _ & _ & _ & _ & _ & _ & _ & _ & _ &
                 _ & Hscr & Hlog).
  destruct (nonempty screenId) as [sid|].
  - destruct Hscr as (old' & Hold' & Hw' & Hnew).
    destruct (decide (k = sid)) as [-> | Hk].
    + rewrite Hold in Hold'. injection Hold' as <-.
      exists screen. rewrite Hw', lookup_insert_eq.
      split; [reflexivity|].
      assert (Hr : if historyWriteFails env
                   then r = mkResponse 500
                              (BError (lit "Failed to generate screen"))
                   else exists fb, r = mkResponse 200 (BSuccess screen fb)).
      { destruct (historyWriteFails env); destruct Hlog as [Hr _];
          [exact Hr | eexists; exact Hr]. }
      clear Hlog. subst screen. cbn.
      repeat (split; [reflexivity|]). right. split; [reflexivity | exact Hr].
    + apply Hsame. rewrite Hw', lookup_insert_ne by congruence. exact Hold.
  - destruct Hscr as (Hfresh & Hw' & _).
    apply Hsame. rewrite Hw', lookup_insert_ne; [exact Hold|].
    intros <-. rewrite Hfresh in Hold. discriminate.
Qed.

Lemma POST_update_frame_witness :
  exists new,
    screens (snd (POST (ex_env (Some login_text))
                    (ex_request alice (body_update "S2")) ex_world))
      !! lit "S2" = Some new /\
    s_x new = 410%Z /\ s_y new = 20%Z /\
    s_width new = 375%Z /\ s_height new = 812%Z.
Proof.
  destruct
    (POST_update_frame (ex_env (Some login_text))
       (ex_request alice (body_update "S2")) ex_world
       (mkResponse 200
          (BSuccess
             (mkScreen (lit "S2") (lit "P1") (lit "Login")
                (lit "<div>Login</div>") [] 410 20 375 812 1000)
             VUndefined))
       (snd (POST (ex_env (Some login_text))
               (ex_request alice (body_update "S2")) ex_world))
       (lit "S2")
       (mkScreen (lit "S2") (lit "P1") (lit "Cart") (lit "<p>Cart</p>") []
          410 20 375 812 7)
       ltac:(vm_compute; reflexivity) ltac:(vm_compute; reflexivity))
    as (new & Hnew & Hx & Hy & Hw & Hh & _).
  exists new. cbn in Hx, Hy, Hw, Hh. auto.
Defined.

(** ** C10: the update is not scoped to the project *)

(** C10.  The update is applied to the screen with the given id whatever
    project it belongs to: a caller who owns the project named in the
    request overwrites a screen of a different project when the request
    carries that screen's id.  The response is the success with the
    rewritten screen, or the 500 when the write of the prompt-history row
    fails afterwards; the screen is overwritten in both cases. *)
Theorem POST_update_crosses_projects env req w userId bodyv projectId prompt
    sid project sd n h c old :
  fst (rateLimit RATE_LIMITS_strict env req w) = None ->
  nonempty (session req) = Some userId ->
  Json.parse (body req) = Some bodyv ->
  generateBodySchema bodyv = Some (projectId, prompt, Some sid) ->
  sid <> [] ->
  projects w !! projectId = Some project ->
  p_userId project = userId ->
  fst (generateScreenData env (screen_prompt project prompt) systemPrompt
         (snd (rateLimit RATE_LIMITS_strict env req w))) = Val sd ->
  as_string (name sd) = Some n ->
  as_string (htmlContent sd) = Some h ->
  as_string (cssContent sd) = Some c ->
  screens w !! sid = Some old ->
  s_projectId old <> projectId ->
  let new := mkScreen (s_id old) (s_projectId old) n h c
                      (s_x old) (s_y old) (s_width old) (s_height old)
                      (now env) in
  exists w',
    POST env req w =
      (if historyWriteFails env
       then mkResponse 500 (BError (lit "Failed to generate screen"))
       else mkResponse 200 (BSuccess new (fallback_flag sd)), w') /\
    screens w' !! sid = Some new.
Proof.
  intros Hrl Hu Hb Hv Hsid Hp Ho Hg Hn Hh Hc Hold _. cbv zeta.
  destruct (POST_update env req w Hrl userId bodyv projectId prompt (Some sid)
              Hu Hb Hv project sid sd n h c old eq_refl Hsid Hp Ho Hg Hn Hh Hc
              Hold) as (w' & HP & Hs).
  exists w'. split; [exact HP|]. rewrite Hs. apply lookup_insert_eq.
Qed.

(** Alice, who owns P1, names P1 and the id of S1, a screen of Bob's
    project P2: S1 is overwritten. *)
Lemma POST_update_crosses_projects_witness :
  exists w',
    POST (ex_env (Some login_text)) (ex_request alice (body_update "S1"))
         ex_world =
      (mkResponse 200
         (BSuccess
            (mkScreen (lit "S1") (lit "P2") (lit "Login")
                      (lit "<div>Login</div>") [] 10 20 300 600 1000)
            VUndefined), w') /\
    screens w' !! lit "S1" =
      Some (mkScreen (lit "S1") (lit "P2") (lit "Login")
              (lit "<div>Login</div>") [] 10 20 300 600 1000).
Proof.
  exact
    (POST_update_crosses_projects (ex_env (Some login_text))
       (ex_request alice (body_update "S1")) ex_world (lit "alice")
       (VObj [ (lit "projectId", VStr (lit "P1"));
               (lit "prompt", VStr (lit "a login screen"));
               (lit "screenId", VStr (lit "S1")) ])
       (lit "P1") (lit "a login screen") (lit "S1")
       (mkProject (lit "alice") (lit "Shop"))
       (mkScreenData (VStr (lit "Login")) (VStr [])
          (VStr (lit "<div>Login</div>")) (VStr []))
       (lit "Login") (lit "<div>Login</div>") []
       (mkScreen (lit "S1") (lit "P2") (lit "Home") (lit "<p>Hi</p>")
          [] 10 20 300 600 5)
       ltac:(vm_compute; reflexivity) ltac:(vm_compute; reflexivity)
       ltac:(vm_compute; reflexivity) ltac:(vm_compute; reflexivity)
       ltac:(vm_compute; discriminate) ltac:(vm_compute; reflexivity)
       ltac:(vm_compute; reflexivity) ltac:(vm_compute; reflexivity)
       ltac:(vm_compute; reflexivity) ltac:(vm_compute; reflexivity)
       ltac:(vm_compute; reflexivity) ltac:(vm_compute; reflexivity)
       ltac:(vm_compute; discriminate)).
Defined.

(** ** The examples of the specification *)

(** The write of the prompt-history row fails after the screen was
    written: the response is the 500, no row is logged, and the screen
    stays written (S2 rewritten by an update, S9 added by a create). *)
Example example_history_write_fails :
  POST (ex_env_history_fails (Some login_text))
       (ex_request alice (body_update "S2")) ex_world =
    (mkResponse 500 (BError (lit "Failed to generate screen")),
     snd (POST (ex_env_history_fails (Some login_text))
               (ex_request alice (body_update "S2")) ex_world)) /\
  screens (snd (POST (ex_env_history_fails (Some login_text))
                     (ex_request alice (body_update "S2")) ex_world))
    !! lit "S2" =
    Some (mkScreen (lit "S2") (lit "P1") (lit "Login")
            (lit "<div>Login</div>") [] 410 20 375 812 1000) /\
  promptHistory (snd (POST (ex_env_history_fails (Some login_text))
                           (ex_request alice (body_update "S2")) ex_world))
    = [] /\
  size (screens (snd (POST (ex_env_history_fails (Some login_text))
                           (ex_request alice body_create) ex_world)))
    = 3%nat.
Proof. repeat split; vm_compute; reflexivity. Qed.

(** The model returns the JSON of a login screen: the record is the one
    the model sent. *)
Example example_login :
  fst (generateScreenData (ex_env (Some login_text)) (lit "a login screen")
         systemPrompt ex_world) =
  Val (mkScreenData (VStr (lit "Login")) (VStr [])
         (VStr (lit "<div>Login</div>")) (VStr [])).
Proof. vm_compute. reflexivity. Qed.

(** The model returns free text with no JSON and no angle brackets: the
    result is the synthesized template, with the prompt in it. *)
Example example_free_text :
  fst (generateScreenData (ex_env (Some (lit "Sorry, I cannot do that.")))
         (lit "a login screen") systemPrompt ex_world) =
  Val (mkScreenData (VStr generated_screen)
         (VStr (lit "Generated from prompt"))
         (VStr (generateFallbackHTML (lit "a login screen"))) (VStr [])) /\
  contains (lit "a login screen") (generateFallbackHTML (lit "a login screen"))
    = true.
Proof. split; vm_compute; reflexivity. Qed.

(** The model call times out: the response carries the flag and the
    screen is created all the same. *)
Example example_timeout :
  exists screen,
    fst (POST (ex_env None) (ex_request alice body_create) ex_world) =
      mkResponse 200 (BSuccess screen (VBool true)) /\
    screens (snd (POST (ex_env None) (ex_request alice body_create) ex_world))
      !! lit "S9" = Some screen /\
    s_name screen = generated_screen.
Proof. eexists. repeat split; vm_compute; reflexivity. Qed.

(** The model wraps its JSON in a code block, or in prose: patterns 2 and
    3 recover it. *)
Example example_code_block :
  extractJSON (litq "Here you go:
```json
{'name':'A','htmlContent':'<p>x</p>'}
```
Enjoy!") =
  VObj [ (k_name, VStr (lit "A")); (k_htmlContent, VStr (lit "<p>x</p>")) ] /\
  extractJSON (litq "Sure! {'name':'A','htmlContent':'<p>x</p>'} Enjoy!") =
  VObj [ (k_name, VStr (lit "A")); (k_htmlContent, VStr (lit "<p>x</p>")) ].
Proof. split; vm_compute; reflexivity. Qed.

(** The eleventh request within a minute is turned away before anything
    else happens. *)
Example example_rate_limited :
  POST (ex_env None) (ex_request alice body_create) busy_world =
    (mkResponse 429 BRateLimited, busy_world).
Proof. vm_compute. reflexivity. Qed.

(** * More properties *)

(** ** The rate limiter *)

Lemma filter_filter_impl {A} (P Q : A -> Prop)
    `{!forall x, Decision (P x)} `{!forall x, Decision (Q x)} (l : list A) :
  (forall x, P x -> Q x) -> filter P (filter Q l) = filter P l.
Proof.
  intros HPQ. induction l as [|x l IH]; [reflexivity|].
  rewrite !filter_cons. destruct (decide (Q x)) as [HQ|HQ].
  - rewrite filter_cons. destruct (decide (P x)); rewrite IH; reflexivity.
  - destruct (decide (P x)) as [HP|HP]; [exfalso; auto | exact IH].
Qed.

Lemma filter_map_comm {A B} (f : A -> B) (P : B -> Prop)
    `{!forall y, Decision (P y)} (l : list A) :
  filter P (map f l) = map f (filter (fun x => P (f x)) l).
Proof.
  induction l as [|x l IH]; [reflexivity|].
  cbn [map]. rewrite !filter_cons.
  destruct (decide (P (f x))); cbn [map]; rewrite IH; reflexivity.
Qed.

Lemma in_window_later id ws ws' c :
  (ws <= ws')%Z ->
  (in_window id ws' c = true <->
   (ws' < call_time c)%Z /\ in_window id ws c = true).
Proof.
  intros Hle. unfold in_window.
  rewrite !andb_true_iff, !bool_decide_eq_true. intuition lia.
Qed.

Lemma limiter_agrees_later m hist ws ws' :
  limiter_agrees m hist ws -> (ws <= ws')%Z -> limiter_agrees m hist ws'.
Proof.
  intros H Hle id.
  rewrite <- (filter_filter_impl (fun t => (ws' < t)%Z) (fun t => (ws < t)%Z))
    by (intros; lia).
  rewrite (H id), filter_map_comm. f_equal.
  rewrite list_filter_filter. apply list_filter_iff. intros c.
  symmetry. apply in_window_later. exact Hle.
Qed.

Lemma stored_cleanup now m id :
  stored (cleanup now m) id =
  filter (fun t => (now - 300000 < t)%Z) (stored m id).
Proof.
  unfold stored, cleanup. rewrite lookup_omap.
  destruct (m !! id) as [ts|]; cbn; [|reflexivity].
  destruct (bool_decide _) eqn:E; cbn; [|reflexivity].
  apply bool_decide_eq_true in E. symmetry. exact E.
Qed.

Lemma stored_insert m id ts id' :
  stored (<[id := ts]> m) id' = if decide (id = id') then ts else stored m id'.
Proof.
  unfold stored. rewrite lookup_insert. destruct (decide (id = id')); reflexivity.
Qed.

(** What [check] leaves in the store when it allows the call. *)
Lemma stored_check_true id cfg now m m' id' :
  check id cfg now m = (true, m') ->
  (cfg_windowMs cfg <= 300000)%Z ->
  filter (fun t => (now - cfg_windowMs cfg < t)%Z) (stored m' id') =
  filter (fun t => (now - cfg_windowMs cfg < t)%Z)
    (if decide (id = id')
     then filter (fun t => (now - cfg_windowMs cfg < t)%Z) (stored m id) ++ [now]
     else stored m id').
Proof.
  unfold check. fold (stored m id). intros H HW.
  destruct (_ <=? _)%nat; [discriminate|]. injection H as <-.
  destruct (10000 <? _).
  - rewrite stored_cleanup, filter_filter_impl by (intros; lia).
    rewrite stored_insert. reflexivity.
  - rewrite stored_insert. reflexivity.
Qed.

Lemma check_verdict id cfg now m :
  fst (check id cfg now m) =
  negb (cfg_requests cfg <=?
        length (filter (fun t => (now - cfg_windowMs cfg < t)%Z) (stored m id)))%nat.
Proof.
  unfold check. fold (stored m id). destruct (_ <=? _)%nat; reflexivity.
Qed.

Lemma check_false_store id cfg now m m' :
  check id cfg now m = (false, m') -> m' = m.
Proof.
  unfold check. destruct (_ <=? _)%nat; [|discriminate].
  intros [= <-]. reflexivity.
Qed.

Lemma allowed_in_window_agrees m hist id ws :
  limiter_agrees m hist ws ->
  length (filter (fun t => (ws < t)%Z) (stored m id)) =
  allowed_in_window id ws hist.
Proof.
  intros H. rewrite (H id), length_map. reflexivity.
Qed.

Lemma check_step id cfg now m hist ws :
  limiter_agrees m hist ws ->
  (ws <= now - cfg_windowMs cfg)%Z ->
  (cfg_windowMs cfg <= 300000)%Z ->
  let ws' := (now - cfg_windowMs cfg)%Z in
  let allowed := negb (cfg_requests cfg <=? allowed_in_window id ws' hist)%nat in
  fst (check id cfg now m) = allowed /\
  limiter_agrees (snd (check id cfg now m))
    (if allowed then hist ++ [mkCall id cfg now] else hist) ws'.
Proof.
  intros Hag Hle HW. cbv zeta.
  apply (limiter_agrees_later _ _ _ (now - cfg_windowMs cfg)%Z) in Hag;
    [|exact Hle].
  rewrite check_verdict, (allowed_in_window_agrees _ hist) by exact Hag.
  split; [reflexivity|].
  destruct (check id cfg now m) as [a m'] eqn:E.
  assert (Ha : a = negb (cfg_requests cfg <=?
                 allowed_in_window id (now - cfg_windowMs cfg) hist)%nat).
  { change a with (fst (a, m')). rewrite <- E, check_verdict.
    rewrite (allowed_in_window_agrees _ hist) by exact Hag. reflexivity. }
  rewrite <- Ha. cbn [snd]. destruct a.
  - intros id'. rewrite (stored_check_true _ _ _ _ _ id' E HW).
    rewrite (filter_app _ hist), map_app.
    destruct (decide (id = id')) as [<- | Hne].
    + rewrite filter_app, filter_filter_impl by auto.
      rewrite (Hag id). f_equal.
      rewrite !filter_cons, !filter_nil. cbn [call_time].
      unfold in_window. cbn [call_id call_time].
      rewrite bool_decide_eq_true_2 by reflexivity. cbn [andb].
      destruct (decide (now - cfg_windowMs cfg < now)%Z) as [Hlt|Hlt].
      * rewrite decide_True by (apply bool_decide_eq_true; exact Hlt).
        reflexivity.
      * rewrite decide_False; [reflexivity|].
        rewrite bool_decide_eq_true. exact Hlt.
    + rewrite (Hag id').
      rewrite <- (app_nil_r (map call_time (filter _ hist))) at 1.
      f_equal. rewrite filter_cons, filter_nil.
      rewrite decide_False; [reflexivity|].
      unfold in_window. cbn [call_id].
      rewrite bool_decide_eq_false_2 by exact Hne. discriminate.
  - apply check_false_store in E as ->. exact Hag.
Qed.

Lemma checks_sliding_window W :
  (W <= 300000)%Z ->
  forall calls m hist ws,
    Forall (fun c => cfg_windowMs (call_cfg c) = W) calls ->
    limiter_agrees m hist ws ->
    clock_ok (ws + W) calls ->
    fst (checks calls m) = sliding_window calls hist.
Proof.
  intros HW. induction calls as [|c calls IH]; intros m hist ws Hcfg Hag Hclk;
    [reflexivity|].
  apply Forall_cons in Hcfg as [Hc Hcfg]. destruct Hclk as [Ht Hclk].
  cbn [checks sliding_window].
  destruct (check_step (call_id c) (call_cfg c) (call_time c) m hist ws Hag)
    as [Hv Hag']; [lia | lia |].
  destruct (check (call_id c) (call_cfg c) (call_time c) m) as [a m1].
  cbn [fst snd] in Hv, Hag'. subst a.
  assert (Hc' : mkCall (call_id c) (call_cfg c) (call_time c) = c)
    by (destruct c; reflexivity).
  rewrite Hc' in Hag'.
  specialize (IH m1 _ (call_time c - cfg_windowMs (call_cfg c))%Z Hcfg Hag').
  destruct (checks calls m1) as [vs m2]. cbn [fst] in *.
  destruct (_ <=? _)%nat; cbn [negb] in *; rewrite IH;
    try reflexivity; rewrite Hc; replace (call_time c - W + W)%Z
      with (call_time c) by lia; exact Hclk.
Qed.

(** X1.  From the empty store of a fresh process, with a clock that does
    not run backwards and endpoints that share one window of at most five
    minutes, the verdicts of the limiter are those of the sliding window:
    a call is allowed exactly when fewer than its limit of the calls
    allowed before it, for the same identifier and whatever the endpoint,
    lie within its window. *)
Theorem checks_are_sliding_window W t0 calls :
  (W <= 300000)%Z ->
  Forall (fun c => cfg_windowMs (call_cfg c) = W) calls ->
  clock_ok t0 calls ->
  fst (checks calls ∅) = sliding_window calls [].
Proof.
  intros HW Hcfg Hclk.
  apply (checks_sliding_window W HW calls ∅ [] (t0 - W)%Z Hcfg).
  - intros id. reflexivity.
  - replace (t0 - W + W)%Z with t0 by lia. exact Hclk.
Qed.

(** Ten calls to a lenient endpoint use up the budget of the strict one;
    the moderate one still has room. *)
Lemma checks_are_sliding_window_witness :
  fst (checks ex_calls ∅) = sliding_window ex_calls [] /\
  sliding_window ex_calls [] =
    [true; true; true; true; true; true; true; true; true; true; false; true].
Proof.
  split; [|vm_compute; reflexivity].
  apply (checks_are_sliding_window 60000 0 ex_calls).
  - lia.
  - unfold ex_calls. repeat constructor.
  - cbn. lia.
Defined.

(** X2.  A call that the limiter turns away has no effect at all: the
    response is the 429, the world (the limiter's store included) is what
    it was, and the remaining budget is the 0 that the response's header
    states. *)
Theorem rateLimit_rejected cfg env req w r w' :
  rateLimit cfg env req w = (Some r, w') ->
  r = mkResponse 429 BRateLimited /\
  w' = w /\
  getRemaining (getIdentifier req) cfg (now env) (limiter w) = 0%Z.
Proof.
  unfold rateLimit.
  destruct (check (getIdentifier req) cfg (now env) (limiter w))
    as [[] l] eqn:E; [discriminate|].
  intros [= <- <-].
  pose proof (check_false_store _ _ _ _ _ E) as ->.
  split; [reflexivity|]. split; [destruct w; reflexivity|].
  pose proof (check_verdict (getIdentifier req) cfg (now env) (limiter w)) as Hv.
  rewrite E in Hv. cbn [fst] in Hv. symmetry in Hv.
  apply negb_false_iff, Nat.leb_le in Hv.
  unfold getRemaining. fold (stored (limiter w) (getIdentifier req)). lia.
Qed.

Lemma rateLimit_rejected_witness :
  mkResponse 429 BRateLimited = mkResponse 429 BRateLimited /\
  busy_world = busy_world /\
  getRemaining (getIdentifier (ex_request alice body_create))
    RATE_LIMITS_strict (now (ex_env None)) (limiter busy_world) = 0%Z.
Proof.
  exact (rateLimit_rejected RATE_LIMITS_strict (ex_env None)
           (ex_request alice body_create) busy_world
           (mkResponse 429 BRateLimited) busy_world
           ltac:(vm_compute; reflexivity)).
Defined.

(** X3.  A call that the limiter allows is recorded: with a window
    between 1 ms and five minutes the timestamps held for the identifier
    within the window are the earlier ones and the time of the call, there
    are at most as many as the limit, and the remaining budget is one less
    than before and not negative. *)
Theorem check_allowed_records id cfg now m m' :
  check id cfg now m = (true, m') ->
  (0 < cfg_windowMs cfg <= 300000)%Z ->
  let inWindow := filter (fun t => (now - cfg_windowMs cfg < t)%Z) in
  inWindow (stored m' id) = inWindow (stored m id) ++ [now] /\
  (length (inWindow (stored m' id)) <= cfg_requests cfg)%nat /\
  getRemaining id cfg now m' = (getRemaining id cfg now m - 1)%Z /\
  (0 <= getRemaining id cfg now m')%Z.
Proof.
  intros E [HW0 HW]. cbv zeta.
  pose proof (stored_check_true _ _ _ _ _ id E HW) as Hs.
  rewrite decide_True in Hs by reflexivity.
  rewrite filter_app, filter_filter_impl in Hs by auto.
  rewrite filter_cons, filter_nil, decide_True in Hs by lia.
  pose proof (check_verdict id cfg now m) as Hv.
  rewrite E in Hv. cbn [fst] in Hv. symmetry in Hv.
  apply negb_true_iff, Nat.leb_gt in Hv.
  unfold getRemaining. fold (stored m id) (stored m' id).
  rewrite Hs, length_app. cbn [length].
  split; [reflexivity|]. lia.
Qed.

Lemma check_allowed_records_witness :
  getRemaining (lit "ip:anonymous") RATE_LIMITS_strict 1000
    (snd (check (lit "ip:anonymous") RATE_LIMITS_strict 1000 fresh_store))
  = 9%Z.
Proof.
  destruct (check_allowed_records (lit "ip:anonymous") RATE_LIMITS_strict 1000
              fresh_store
              (snd (check (lit "ip:anonymous") RATE_LIMITS_strict 1000
                      fresh_store))
              ltac:(vm_compute; reflexivity) ltac:(cbn; lia))
    as (_ & _ & H & _).
  rewrite H. vm_compute. reflexivity.
Defined.

(** X4.  The periodic clean-up keeps, for every identifier, exactly the
    timestamps of the last five minutes and drops the identifiers that
    have none; for a window of at most five minutes it does not change
    the remaining budget of anyone. *)
Theorem cleanup_keeps_recent now m id cfg :
  (cfg_windowMs cfg <= 300000)%Z ->
  stored (cleanup now m) id =
    filter (fun t => (now - 300000 < t)%Z) (stored m id) /\
  cleanup now m !! id <> Some [] /\
  getRemaining id cfg now (cleanup now m) = getRemaining id cfg now m.
Proof.
  intros HW. split; [apply stored_cleanup|]. split.
  - unfold cleanup. rewrite lookup_omap.
    destruct (m !! id) as [ts|]; cbn; [|discriminate].
    destruct (bool_decide _) eqn:E; [discriminate|].
    apply bool_decide_eq_false in E. intros [= H]. contradiction.
  - unfold getRemaining. fold (stored (cleanup now m) id) (stored m id).
    rewrite stored_cleanup, filter_filter_impl by (intros; lia). reflexivity.
Qed.

Lemma cleanup_keeps_recent_witness :
  stored (cleanup 400000 old_store) (lit "ip:a") = [100001; 399999]%Z /\
  cleanup 400000 old_store !! lit "ip:b" = None.
Proof.
  destruct (cleanup_keeps_recent 400000 old_store (lit "ip:a")
              RATE_LIMITS_strict ltac:(cbn; lia)) as (H & _).
  split; [rewrite H|]; vm_compute; reflexivity.
Defined.

(** ** What the greedy expressions find *)

Lemma star_any_greedy {R} (k : @cont R) n :
  forall s cap,
    (length s <= n)%nat ->
    star_loop (run (Class CAny)) k n s cap = greedy k s cap.
Proof.
  induction n as [|n IH]; intros s cap Hlen.
  - destruct s; [reflexivity | cbn in Hlen; lia].
  - destruct s as [|c s']; [reflexivity|].
    cbn [star_loop run in_class greedy length].
    replace (length s' <? S (length s'))%nat with true
      by (symmetry; apply Nat.ltb_lt; lia).
    rewrite IH by (cbn in Hlen; lia). reflexivity.
Qed.

Lemma split_first_Some a s pre rest :
  split_first a s = Some (pre, rest) <-> s = pre ++ a :: rest /\ (a ∉ pre).
Proof.
  revert pre. induction s as [|c s IH]; intros pre; cbn [split_first].
  - split; [discriminate|]. intros [H _]. destruct pre; discriminate.
  - destruct (N.eqb_spec c a) as [->|Hne].
    + split.
      * intros [= <- <-]. split; [reflexivity | apply not_elem_of_nil].
      * intros [H Hn]. destruct pre as [|p pre]; [injection H as <-; reflexivity|].
        injection H as -> _. exfalso. apply Hn. left.
    + destruct (split_first a s) as [[pre' rest']|].
      * split.
        -- intros [= <- <-]. destruct (proj1 (IH pre') eq_refl) as [-> Hn].
           split; [reflexivity|]. rewrite not_elem_of_cons. auto.
        -- intros [H Hn]. destruct pre as [|p pre];
             [injection H as ->; contradiction|].
           injection H as -> H. apply not_elem_of_cons in Hn as [_ Hn].
           assert (E : Some (pre', rest') = Some (pre, rest))
             by (apply IH; auto).
           injection E as -> ->. reflexivity.
      * split; [discriminate|]. intros [H Hn].
        destruct pre as [|p pre]; [injection H as ->; contradiction|].
        injection H as -> H. apply not_elem_of_cons in Hn as [_ Hn].
        assert (E : None = Some (pre, rest)) by (apply IH; auto).
        discriminate.
Qed.

Lemma split_last_None b s : split_last b s = None <-> b ∉ s.
Proof.
  induction s as [|c s IH]; cbn [split_last].
  - split; [intros _; apply not_elem_of_nil | reflexivity].
  - rewrite not_elem_of_cons. destruct (split_last b s) as [[mid post]|].
    + split; [discriminate|]. intros [_ H]. apply IH in H. discriminate.
    + destruct (N.eqb_spec c b) as [->|Hne].
      * split; [discriminate|]. intros [H _]. contradiction.
      * split; [|reflexivity]. intros _. split; [congruence | apply IH; reflexivity].
Qed.

Lemma split_last_Some b s mid post :
  split_last b s = Some (mid, post) <-> s = mid ++ b :: post /\ (b ∉ post).
Proof.
  revert mid. induction s as [|c s IH]; intros mid; cbn [split_last].
  - split; [discriminate|]. intros [H _]. destruct mid; discriminate.
  - destruct (split_last b s) as [[mid' post']|] eqn:E.
    + split.
      * intros [= <- <-]. destruct (proj1 (IH mid') eq_refl) as [-> Hn].
        split; [reflexivity | exact Hn].
      * intros [H Hn]. destruct mid as [|p mid].
        -- injection H as -> ->. apply split_last_None in Hn. congruence.
        -- injection H as -> H.
           assert (E' : Some (mid', post') = Some (mid, post))
             by (apply IH; auto).
           injection E' as -> ->. reflexivity.
    + apply split_last_None in E. destruct (N.eqb_spec c b) as [->|Hne].
      * split.
        -- intros [= <- <-]. split; [reflexivity | exact E].
        -- intros [H Hn]. destruct mid as [|p mid];
             [injection H as <-; reflexivity|].
           injection H as -> H. exfalso. apply E. rewrite H.
           apply elem_of_app. right. left.
      * split; [discriminate|]. intros [H Hn].
        destruct mid as [|p mid]; [injection H as -> _; contradiction|].
        injection H as -> H. exfalso. apply E. rewrite H.
        apply elem_of_app. right. left.
Qed.

Lemma greedy_last b s :
  greedy (fun s' cap' =>
            run (Class (CChar b)) s' cap' (fun rest cap => Some (rest, cap)))
         s None =
  match split_last b s with
  | Some (_, post) => Some (post, None)
  | None => None
  end.
Proof.
  induction s as [|c s IH]; [reflexivity|].
  cbn [greedy split_last]. rewrite IH.
  destruct (split_last b s) as [[mid post]|]; [reflexivity|].
  cbn [or_else run in_class]. destruct (c =? b); reflexivity.
Qed.

Lemma run_between a b s :
  run (re_between a b) s None (fun rest cap => Some (rest, cap)) =
  match s with
  | c :: s' =>
      if c =? a then
        match split_last b s' with
        | Some (_, post) => Some (post, None)
        | None => None
        end
      else None
  | [] => None
  end.
Proof.
  destruct s as [|c s']; [reflexivity|].
  change (run (re_between a b) (c :: s') None
            (fun rest cap => Some (rest, cap)))
    with (if c =? a then
            star_loop (run (Class CAny))
              (fun s'' cap' =>
                 run (Class (CChar b)) s'' cap'
                     (fun rest cap => Some (rest, cap)))
              (length s') s' None
          else None).
  destruct (c =? a); [|reflexivity].
  rewrite star_any_greedy by lia. apply greedy_last.
Qed.

Lemma search_between_None a b s :
  b ∉ s -> forall idx, search (re_between a b) idx s = None.
Proof.
  induction s as [|c s IH]; intros Hn idx.
  - reflexivity.
  - apply not_elem_of_cons in Hn as [Hc Hn].
    cbn [search]. rewrite run_between.
    apply split_last_None in Hn as Hs. rewrite Hs.
    destruct (c =? a); apply IH; exact Hn.
Qed.

(** The search of the expression is the search by hand. *)
Lemma search_between a b text :
  forall idx,
    search (re_between a b) idx text =
    option_map (fun m => mkMatch (idx + m_index m) (m_whole m) (m_group m))
               (first_to_last a b text).
Proof.
  unfold first_to_last.
  induction text as [|c s IH]; intros idx; [reflexivity|].
  cbn [search split_first]. rewrite run_between.
  destruct (N.eqb_spec c a) as [->|Hne].
  - destruct (split_last b s) as [[mid post]|] eqn:E.
    + apply split_last_Some in E as [-> Hn]. cbn [option_map m_index m_whole
        m_group length]. f_equal. f_equal; [lia|].
      replace (S (length (mid ++ b :: post)) - length post)%nat
        with (S (length (mid ++ [b])))
        by (rewrite !length_app; cbn [length]; lia).
      cbn [take]. f_equal.
      change (b :: post) with ([b] ++ post). rewrite app_assoc.
      apply take_app_length.
    + apply split_last_None in E. apply search_between_None. exact E.
  - rewrite IH.
    destruct (split_first a s) as [[pre rest]|]; [|reflexivity].
    destruct (split_last b rest) as [[mid post]|]; [|reflexivity].
    cbn. f_equal. f_equal. lia.
Qed.

Lemma first_to_last_Some a b text m :
  first_to_last a b text = Some m <->
  exists pre mid post,
    text = pre ++ a :: mid ++ b :: post /\ (a ∉ pre) /\ (b ∉ post) /\
    m = mkMatch (length pre) (a :: mid ++ [b]) None.
Proof.
  unfold first_to_last. split.
  - destruct (split_first a text) as [[pre rest]|] eqn:E1; [|discriminate].
    destruct (split_last b rest) as [[mid post]|] eqn:E2; [|discriminate].
    intros [= <-]. apply split_first_Some in E1 as [-> Hpre].
    apply split_last_Some in E2 as [-> Hpost].
    exists pre, mid, post. auto.
  - intros (pre & mid & post & -> & Hpre & Hpost & ->).
    assert (E1 : split_first a (pre ++ a :: mid ++ b :: post)
                 = Some (pre, mid ++ b :: post))
      by (apply split_first_Some; auto).
    assert (E2 : split_last b (mid ++ b :: post) = Some (mid, post))
      by (apply split_last_Some; auto).
    rewrite E1, E2. reflexivity.
Qed.

Lemma js_match_braces pre mid post :
  123 ∉ pre -> 125 ∉ post ->
  js_match re_braces (pre ++ 123 :: mid ++ 125 :: post) =
    Some (mkMatch (length pre) (123 :: mid ++ [125]) None).
Proof.
  intros Hpre Hpost.
  unfold js_match. change re_braces with (re_between 123 125).
  rewrite search_between.
  assert (F : first_to_last 123 125 (pre ++ 123 :: mid ++ 125 :: post) =
              Some (mkMatch (length pre) (123 :: mid ++ [125]) None)).
  { apply first_to_last_Some. exists pre, mid, post. auto. }
  rewrite F. reflexivity.
Qed.

(** X5.  The third strategy of [extractJSON] takes the text from the
    first opening brace to the last closing brace, as the source's comment
    says: in a text whose first opening brace comes after [pre] and whose
    last closing brace is followed by [post], the expression matches at
    that brace and the match ends with that closing brace, whatever lies
    between them (further braces included), and that text is what is
    parsed. *)
Theorem pattern3_first_to_last pre mid post :
  123 ∉ pre -> 125 ∉ post ->
  js_match re_braces (pre ++ 123 :: mid ++ 125 :: post) =
    Some (mkMatch (length pre) (123 :: mid ++ [125]) None) /\
  pattern3 (pre ++ 123 :: mid ++ 125 :: post) =
    Json.parse (123 :: mid ++ [125]).
Proof.
  intros Hpre Hpost.
  pose proof (js_match_braces pre mid post Hpre Hpost) as E.
  split; [exact E|].
  unfold pattern3. rewrite E. cbn [m_whole]. reflexivity.
Qed.

Lemma pattern3_first_to_last_witness :
  pattern3 (lit "a} {" ++ lit "}{" ++ lit "} {b") = Json.parse (lit "{}{}").
Proof.
  refine (proj2 (pattern3_first_to_last (lit "a} ") (lit "}{") (lit " {b")
                   _ _)).
  - apply (bool_decide_unpack _). vm_compute. exact I.
  - apply (bool_decide_unpack _). vm_compute. exact I.
Defined.

Lemma js_match_g_between a b text :
  js_match_g (re_between a b) text =
  option_map (fun m => [m_whole m]) (first_to_last a b text).
Proof.
  unfold js_match_g. cbn [match_all]. rewrite search_between.
  destruct (first_to_last a b text) as [m|] eqn:E; [|reflexivity].
  apply first_to_last_Some in E as (pre & mid & post & -> & Hpre & Hpost & ->).
  cbn [option_map m_index m_whole m_group].
  replace (drop (0 + length pre + length (a :: mid ++ [b]))
                (pre ++ a :: mid ++ b :: post)) with post.
  2:{ change (a :: mid ++ b :: post) with ((a :: mid) ++ [b] ++ post).
      rewrite !app_assoc, <- (app_assoc pre).
      rewrite drop_app_length'; [reflexivity|].
      rewrite !length_app. cbn [length]. rewrite length_app. cbn [length].
      lia. }
  replace (match_all _ (re_between a b) post) with (@nil jsstring).
  - destruct post; reflexivity.
  - destruct (length (pre ++ a :: mid ++ b :: post)); [reflexivity|].
    cbn [match_all]. rewrite search_between_None by exact Hpost. reflexivity.
Qed.

(** X6.  The last resort of [generateScreenData] finds one fragment: the
    text from the first opening angle bracket to the last closing one
    after it.  The expression is greedy, so the array of matches never
    has a second element, and taking five of them and joining them with
    line feeds changes nothing; without such a pair of brackets the last
    resort throws. *)
Theorem last_resort_one_fragment text w :
  last_resort text w =
  match first_to_last 60 62 text with
  | Some m =>
      (Val (mkScreenData (VStr generated_screen)
                         (VStr (lit "Generated from AI response"))
                         (VStr (m_whole m)) (VStr [])), w)
  | None => (Throw ParseFailure, w)
  end.
Proof.
  unfold last_resort. change re_tags with (re_between 60 62).
  rewrite js_match_g_between.
  destruct (first_to_last 60 62 text) as [m|]; [|reflexivity].
  cbn [option_map take join]. reflexivity.
Qed.

Lemma stringify_screen_braces n d h c :
  exists mid, stringify_screen n d h c = 123 :: mid ++ [125].
Proof.
  unfold stringify_screen.
  change (lit "{") with [123]. change (lit "}") with [125].
  generalize (stringify_string k_name), (stringify_string n),
    (stringify_string k_description), (stringify_string d),
    (stringify_string k_htmlContent), (stringify_string h),
    (stringify_string k_cssContent), (stringify_string c),
    (lit ":"), (lit ",").
  intros kn vn kd vd kh vh kc vc colon comma.
  exists (kn ++ colon ++ vn ++ comma ++ kd ++ colon ++ vd ++ comma ++
          kh ++ colon ++ vh ++ comma ++ kc ++ colon ++ vc).
  cbn [app]. f_equal. repeat rewrite <- app_assoc. reflexivity.
Qed.

(** X7.  A response in which prose surrounds the JSON object is
    recovered by the third strategy: when the text as a whole is not JSON
    and the code-block strategy returns nothing, [extractJSON] of the
    serialization of a record, preceded by text without an opening brace
    and followed by text without a closing brace, is the record. *)
Theorem extractJSON_prose pre post n d h c :
  pattern1 (pre ++ stringify_screen n d h c ++ post) = None ->
  pattern2 (pre ++ stringify_screen n d h c ++ post) = None ->
  123 ∉ pre -> 125 ∉ post ->
  extractJSON (pre ++ stringify_screen n d h c ++ post) =
  VObj [ (k_name, VStr n); (k_description, VStr d);
         (k_htmlContent, VStr h); (k_cssContent, VStr c) ].
Proof.
  intros H1 H2 Hpre Hpost. unfold extractJSON. rewrite H1, H2.
  destruct (stringify_screen_braces n d h c) as [mid E].
  pose proof (JsonFacts.parse_stringify_screen n d h c) as Hp.
  rewrite E in *. clear E.
  replace (pre ++ (123 :: mid ++ [125]) ++ post)
    with (pre ++ 123 :: mid ++ 125 :: post)
    by (cbn [app]; rewrite <- app_assoc; reflexivity).
  unfold pattern3. rewrite (js_match_braces pre mid post Hpre Hpost).
  cbn [m_whole]. rewrite Hp. reflexivity.
Qed.

Lemma extractJSON_prose_witness :
  extractJSON prose_text =
  VObj [ (k_name, VStr (lit "Login")); (k_description, VStr []);
         (k_htmlContent, VStr (lit "<div>Login</div>"));
         (k_cssContent, VStr []) ].
Proof.
  unfold prose_text. apply extractJSON_prose.
  - vm_compute. reflexivity.
  - vm_compute. reflexivity.
  - apply (bool_decide_unpack _). vm_compute. exact I.
  - apply (bool_decide_unpack _). vm_compute. exact I.
Defined.

(** ** A well-formed answer of the model *)

Lemma get_prop_record a b c d :
  let r := VObj [ (k_name, a); (k_description, b);
                  (k_htmlContent, c); (k_cssContent, d) ] in
  get_prop r k_name = a /\ get_prop r k_description = b /\
  get_prop r k_htmlContent = c /\ get_prop r k_cssContent = d.
Proof. vm_compute. auto. Qed.

Lemma js_or_VStr s t :
  js_or (VStr s) (VStr t) = VStr (match s with [] => t | _ => s end).
Proof. destruct s; reflexivity. Qed.

(** X8.  When the model answers with the serialization of a record, as
    the prompt asks it to, [generateScreenData] returns that record after
    one call of the model and nothing else: the description and the
    style sheet as they are, the name and the markup as they are unless
    they are empty, in which case the fixed name and the fallback markup
    take their place. *)
Theorem generateScreenData_wellformed env prompt sys w n d h c :
  generateText env (fullPrompt sys prompt) = Some (stringify_screen n d h c) ->
  generateScreenData env prompt sys w =
  (Val (mkScreenData
          (VStr (match n with [] => generated_screen | _ => n end))
          (VStr d)
          (VStr (match h with [] => generateFallbackHTML prompt | _ => h end))
          (VStr c)),
   mkWorld (projects w) (screens w) (promptHistory w) (limiter w)
           (EvModelCall (fullPrompt sys prompt) :: events w)).
Proof.
  intros H.
  unfold generateScreenData, try_catch, bind, callModel, bind, emit.
  rewrite H. cbn [ret].
  assert (E : extractJSON (stringify_screen n d h c) =
              VObj [ (k_name, VStr n); (k_description, VStr d);
                     (k_htmlContent, VStr h); (k_cssContent, VStr c) ]).
  { unfold extractJSON, pattern1.
    rewrite JsonFacts.parse_stringify_screen. reflexivity. }
  rewrite E. cbn [truthy].
  destruct (get_prop_record (VStr n) (VStr d) (VStr h) (VStr c))
    as (-> & -> & -> & ->).
  rewrite !js_or_VStr. unfold ret. destruct d, c; reflexivity.
Qed.

Lemma generateScreenData_wellformed_witness :
  fst (generateScreenData
         (ex_env (Some (stringify_screen (lit "Login") [] [] [])))
         (lit "a login screen") systemPrompt ex_world) =
  Val (mkScreenData (VStr (lit "Login")) (VStr [])
         (VStr (generateFallbackHTML (lit "a login screen"))) (VStr [])).
Proof.
  rewrite (generateScreenData_wellformed
             (ex_env (Some (stringify_screen (lit "Login") [] [] [])))
             (lit "a login screen") systemPrompt ex_world
             (lit "Login") [] [] [] eq_refl).
  reflexivity.
Defined.

(** ** The effects of a request of the generation endpoint *)

(** The model is called at most once.  When it is not called nothing is
    written and the response is not a success; when it is called every
    check passed and the prompt is the one built from the project and the
    request. *)
Lemma POST_model_calls env req w r w' :
  POST env req w = (r, w') ->
  (model_calls w' = model_calls w /\ status r <> 200%nat /\
   screens w' = screens w /\ promptHistory w' = promptHistory w) \/
  exists userId bodyv projectId prompt screenId project,
    nonempty (session req) = Some userId /\
    Json.parse (body req) = Some bodyv /\
    generateBodySchema bodyv = Some (projectId, prompt, screenId) /\
    projects w !! projectId = Some project /\
    p_userId project = userId /\
    model_calls w' =
      fullPrompt systemPrompt (screen_prompt project prompt) :: model_calls w.
Proof.
  intros E.
  pose proof (rateLimit_frame RATE_LIMITS_strict env req w)
    as (Hp1 & Hs1 & Hh1 & He1).
  cbv zeta in Hp1, Hs1, Hh1, He1. unfold POST in E. unfold model_calls.
  destruct (rateLimit RATE_LIMITS_strict env req w) as [[rl|] w1] eqn:Hrl;
    cbn [fst snd] in *.
  { injection E as <- <-. left.
    unfold rateLimit in Hrl. destruct (check _ _ _ _) as [[] l];
      [discriminate Hrl | injection Hrl as <- _].
    cbn. rewrite He1. repeat split; (discriminate || assumption). }
  unfold handle in E.
  destruct (nonempty (session req)) as [userId|] eqn:Hu;
    [|cbn in E; injection E as <- <-; left; cbn; rewrite ?He1;
      repeat split; (discriminate || assumption)].
  unfold bind at 1 in E. unfold req_json in E.
  destruct (Json.parse (body req)) as [bodyv|] eqn:Hb;
    [|cbn in E; injection E as <- <-; left; cbn; rewrite ?He1;
      repeat split; (discriminate || assumption)].
  cbn [ret] in E.
  destruct (generateBodySchema bodyv) as [[[projectId prompt] screenId]|] eqn:Hv;
    [|cbn in E; injection E as <- <-; left; cbn; rewrite ?He1;
      repeat split; (discriminate || assumption)].
  unfold bind at 1 in E. unfold project_findUnique in E. rewrite Hp1 in E.
  destruct (projects w !! projectId) as [project|] eqn:Hpr;
    [|cbn in E; injection E as <- <-; left; cbn; rewrite ?He1;
      repeat split; (discriminate || assumption)].
  destruct (str_eqb (p_userId project) userId) eqn:Ho;
    [|cbn in E; injection E as <- <-; left; cbn; rewrite ?He1;
      repeat split; (discriminate || assumption)].
  apply bool_decide_eq_true in Ho. cbn [negb] in E.
  right. exists userId, bodyv, projectId, prompt, screenId, project.
  repeat (split; [reflexivity || assumption|]).
  unfold bind at 1 in E.
  destruct (generateScreenData_frame env (screen_prompt project prompt)
              systemPrompt w1) as (sd & evs & Hg & Hevs).
  rewrite Hg in E. unfold bind at 1 in E.
  assert (Hpr' : forall t e,
            prompts (EvConsoleError t e :: evs ++ events w1) =
            fullPrompt systemPrompt (screen_prompt project prompt)
              :: prompts (events w))
    by (intros; cbn [prompts]; rewrite prompts_app, Hevs, He1; reflexivity).
  assert (Hpr0 : prompts (evs ++ events w1) =
                 fullPrompt systemPrompt (screen_prompt project prompt)
                   :: prompts (events w))
    by (rewrite prompts_app, Hevs, He1; reflexivity).
  destruct (nonempty screenId) as [sid|].
  - unfold screen_update in E.
    destruct (as_string (name sd));
      [|cbn in E; injection E as <- <-; apply Hpr'].
    destruct (as_string (htmlContent sd));
      [|cbn in E; injection E as <- <-; apply Hpr'].
    destruct (as_string (cssContent sd));
      [|cbn in E; injection E as <- <-; apply Hpr'].
    cbn [screens] in E.
    destruct (screens w1 !! sid);
      [|cbn in E; injection E as <- <-; apply Hpr'].
    unfold bind, promptHistory_create in E.
    destruct (historyWriteFails env); cbn in E; injection E as <- <-;
      [apply Hpr' | apply Hpr0].
  - unfold screen_create in E.
    destruct (as_string (name sd));
      [|cbn in E; injection E as <- <-; apply Hpr'].
    destruct (as_string (htmlContent sd));
      [|cbn in E; injection E as <- <-; apply Hpr'].
    destruct (as_string (cssContent sd));
      [|cbn in E; injection E as <- <-; apply Hpr'].
    cbn [screens] in E.
    destruct (screens w1 !! newScreenId env);
      [cbn in E; injection E as <- <-; apply Hpr'|].
    unfold bind, promptHistory_create in E.
    destruct (historyWriteFails env); cbn in E; injection E as <- <-;
      [apply Hpr' | apply Hpr0].
Qed.

(** X9.  The handler never retries the model: a request calls it at most
    once.  A request that is answered with a success, or that writes a
    screen or a row of the prompt history, called it exactly once, with
    the prompt built from the name of the project and the prompt of the
    request. *)
Theorem POST_model_once env req w r w' :
  POST env req w = (r, w') ->
  (model_calls w' = model_calls w \/
   exists p, model_calls w' = p :: model_calls w) /\
  (status r = 200%nat \/ screens w' <> screens w \/
   promptHistory w' <> promptHistory w ->
   exists bodyv projectId prompt screenId project,
     Json.parse (body req) = Some bodyv /\
     generateBodySchema bodyv = Some (projectId, prompt, screenId) /\
     projects w !! projectId = Some project /\
     model_calls w' =
       fullPrompt systemPrompt (screen_prompt project prompt)
         :: model_calls w).
Proof.
  intros H.
  destruct (POST_model_calls _ _ _ _ _ H)
    as [(Hm & Hst & Hs & Hh) |
        (userId & bodyv & projectId & prompt & screenId & project &
         Hu & Hb & Hv & Hp & Ho & Hm)].
  - split; [left; exact Hm|].
    intros [H1 | [H1 | H1]]; contradiction.
  - split; [right; eexists; exact Hm|]. intros _.
    exists bodyv, projectId, prompt, screenId, project. auto.
Qed.

Lemma POST_model_once_witness :
  model_calls (snd (POST (ex_env (Some login_text))
                         (ex_request alice body_create) ex_world)) =
  [ fullPrompt systemPrompt
      (screen_prompt (mkProject (lit "alice") (lit "Shop"))
                     (lit "a login screen")) ].
Proof.
  destruct (POST_model_once (ex_env (Some login_text))
              (ex_request alice body_create) ex_world
              (fst (POST (ex_env (Some login_text))
                         (ex_request alice body_create) ex_world))
              (snd (POST (ex_env (Some login_text))
                         (ex_request alice body_create) ex_world))
              ltac:(vm_compute; reflexivity)) as [_ H].
  destruct (H ltac:(left; vm_compute; reflexivity))
    as (bodyv & projectId & prompt & screenId & project & _ & _ & _ & _).
  vm_compute. reflexivity.
Defined.

(** X10.  The projects are never written.  The prompt history grows by
    one row exactly when the response is the success: the row carries
    the project id and the prompt of the request as they are, with the
    role user.  Every other response leaves the history as it was. *)
Theorem POST_logs_prompt env req w r w' :
  POST env req w = (r, w') ->
  projects w' = projects w /\
  if (status r =? 200)%nat then
    exists bodyv projectId prompt screenId,
      Json.parse (body req) = Some bodyv /\
      generateBodySchema bodyv = Some (projectId, prompt, screenId) /\
      promptHistory w' =
        promptHistory w ++ [mkPromptHistory projectId prompt (lit "user")]
  else promptHistory w' = promptHistory w.
Proof.
  intros H.
  apply POST_inv in H as [(Hst & _ & Hp & Hh) | (_ & H)].
  - split; [exact Hp|].
    destruct (Nat.eqb_spec (status r) 200); [contradiction | exact Hh].
  - destruct H as (userId & bodyv & projectId & prompt & screenId & project &
                   sd & n & h & c & screen & _ & Hb & Hv & _ & _ & _ & _ & _ &
                   _ & Hp & _ & Hlog).
    split; [exact Hp|].
    destruct (historyWriteFails env); destruct Hlog as [-> Hh]; cbn.
    + exact Hh.
    + exists bodyv, projectId, prompt, screenId. auto.
Qed.

Lemma POST_logs_prompt_witness :
  promptHistory (snd (POST (ex_env None) (ex_request alice body_create)
                        ex_world)) =
    [mkPromptHistory (lit "P1") (lit "a login screen") (lit "user")] /\
  promptHistory (snd (POST (ex_env None) (ex_request bob body_create)
                        ex_world)) = [].
Proof.
  split.
  - destruct (POST_logs_prompt (ex_env None) (ex_request alice body_create)
                ex_world
                (fst (POST (ex_env None) (ex_request alice body_create)
                        ex_world))
                (snd (POST (ex_env None) (ex_request alice body_create)
                        ex_world))
                ltac:(vm_compute; reflexivity)) as [_ H].
    vm_compute. reflexivity.
  - destruct (POST_logs_prompt (ex_env None) (ex_request bob body_create)
                ex_world
                (fst (POST (ex_env None) (ex_request bob body_create)
                        ex_world))
                (snd (POST (ex_env None) (ex_request bob body_create)
                        ex_world))
                ltac:(vm_compute; reflexivity)) as [_ H].
    vm_compute. reflexivity.
Defined.

(** X11.  A request of an authenticated caller whose body is not valid is
    refused before the project is looked up and before the model is
    asked, and nothing is written.  A body that is JSON but does not fit
    the schema is answered with the 400; a body that is not JSON at all
    is answered with the 500 of the [catch], because [req.json()]
    rejects inside the [try]. *)
Theorem POST_invalid_body env req w userId :
  fst (rateLimit RATE_LIMITS_strict env req w) = None ->
  nonempty (session req) = Some userId ->
  match Json.parse (body req) with
  | Some bodyv => generateBodySchema bodyv = None
  | None => True
  end ->
  exists w',
    POST env req w =
      (match Json.parse (body req) with
       | Some _ => mkResponse 400 BInvalid
       | None => mkResponse 500 (BError (lit "Failed to generate screen"))
       end, w') /\
    projects w' = projects w /\ screens w' = screens w /\
    promptHistory w' = promptHistory w /\
    model_calls w' = model_calls w.
Proof.
  intros Hrl Hu Hbody.
  pose proof (rateLimit_frame RATE_LIMITS_strict env req w)
    as (Hp1 & Hs1 & Hh1 & He1).
  cbv zeta in Hp1, Hs1, Hh1, He1. unfold POST, model_calls.
  destruct (rateLimit RATE_LIMITS_strict env req w) as [rl w1].
  cbn [fst snd] in *. subst rl.
  unfold handle. rewrite Hu. unfold bind at 1, req_json.
  destruct (Json.parse (body req)) as [bodyv|].
  - cbn [ret]. rewrite Hbody. cbn. eexists. split; [reflexivity|].
    rewrite He1. auto.
  - cbn. eexists. split; [reflexivity|]. cbn. rewrite He1. auto.
Qed.

Lemma POST_invalid_body_witness :
  fst (POST (ex_env None) (ex_request alice (lit "{not json")) ex_world) =
    mkResponse 500 (BError (lit "Failed to generate screen")) /\
  fst (POST (ex_env None) (ex_request alice (lit "{}")) ex_world) =
    mkResponse 400 BInvalid.
Proof.
  split.
  - destruct (POST_invalid_body (ex_env None)
                (ex_request alice (lit "{not json")) ex_world (lit "alice")
                ltac:(vm_compute; reflexivity) ltac:(vm_compute; reflexivity)
                ltac:(vm_compute; exact I)) as (w' & H & _).
    rewrite H. vm_compute. reflexivity.
  - destruct (POST_invalid_body (ex_env None)
                (ex_request alice (lit "{}")) ex_world (lit "alice")
                ltac:(vm_compute; reflexivity) ltac:(vm_compute; reflexivity)
                ltac:(vm_compute; reflexivity)) as (w' & H & _).
    rewrite H. vm_compute. reflexivity.
Defined.

(** X12.  An update that names a screen that does not exist fails late:
    every check passes, the model is asked, and only then the update
    rejects.  The response is the 500, nothing is written and nothing is
    logged in the prompt history, but the model was called. *)
Theorem POST_update_missing_screen env req w userId bodyv projectId prompt sid
    project :
  fst (rateLimit RATE_LIMITS_strict env req w) = None ->
  nonempty (session req) = Some userId ->
  Json.parse (body req) = Some bodyv ->
  generateBodySchema bodyv = Some (projectId, prompt, Some sid) ->
  sid <> [] ->
  projects w !! projectId = Some project ->
  p_userId project = userId ->
  screens w !! sid = None ->
  exists w',
    POST env req w =
      (mkResponse 500 (BError (lit "Failed to generate screen")), w') /\
    screens w' = screens w /\
    promptHistory w' = promptHistory w /\
    model_calls w' =
      fullPrompt systemPrompt (screen_prompt project prompt) :: model_calls w.
Proof.
  intros Hrl Hu Hb Hv Hsid Hp Ho Hnone.
  pose proof (rateLimit_frame RATE_LIMITS_strict env req w)
    as (Hp1 & Hs1 & Hh1 & He1).
  cbv zeta in Hp1, Hs1, Hh1, He1. unfold POST, model_calls.
  destruct (rateLimit RATE_LIMITS_strict env req w) as [rl w1].
  cbn [fst snd] in *. subst rl.
  unfold handle. rewrite Hu. unfold bind at 1, req_json.
  rewrite Hb. cbn [ret]. rewrite Hv.
  unfold bind at 1, project_findUnique. rewrite Hp1, Hp.
  unfold str_eqb. rewrite bool_decide_eq_true_2 by exact Ho.
  cbn [negb]. unfold bind at 1.
  destruct (generateScreenData_frame env (screen_prompt project prompt)
              systemPrompt w1) as (sd & evs & Hg & Hevs).
  rewrite Hg. unfold bind at 1.
  destruct sid as [|ch sid]; [contradiction|]. cbn [nonempty].
  unfold screen_update.
  destruct (as_string (name sd)), (as_string (htmlContent sd)),
    (as_string (cssContent sd)); cbn [screens]; rewrite ?Hs1, ?Hnone; cbn;
    eexists; (split; [reflexivity|]); cbn;
    rewrite prompts_app, Hevs, He1; auto.
Qed.

Lemma POST_update_missing_screen_witness :
  fst (POST (ex_env (Some login_text)) (ex_request alice (body_update "S7"))
         ex_world) =
    mkResponse 500 (BError (lit "Failed to generate screen")) /\
  length (model_calls
            (snd (POST (ex_env (Some login_text))
                       (ex_request alice (body_update "S7")) ex_world)))
    = 1%nat.
Proof.
  destruct
    (POST_update_missing_screen (ex_env (Some login_text))
       (ex_request alice (body_update "S7")) ex_world (lit "alice")
       (VObj [ (lit "projectId", VStr (lit "P1"));
               (lit "prompt", VStr (lit "a login screen"));
               (lit "screenId", VStr (lit "S7")) ])
       (lit "P1") (lit "a login screen") (lit "S7")
       (mkProject (lit "alice") (lit "Shop"))
       ltac:(vm_compute; reflexivity) ltac:(vm_compute; reflexivity)
       ltac:(vm_compute; reflexivity) ltac:(vm_compute; reflexivity)
       ltac:(vm_compute; discriminate) ltac:(vm_compute; reflexivity)
       ltac:(vm_compute; reflexivity) ltac:(vm_compute; reflexivity))
    as (w' & H & _ & _ & Hm).
  rewrite H. cbn [fst snd]. rewrite Hm. split; reflexivity.
Defined.

(** ** The identifier of a caller *)

Lemma trimStart_head s c t : trimStart s = c :: t -> is_space c = false.
Proof.
  induction s as [|d s IH]; cbn [trimStart]; [discriminate|].
  destruct (is_space d) eqn:E; [exact IH|].
  intros [= <- <-]. exact E.
Qed.

Lemma trimStart_suffix s : exists p, s = p ++ trimStart s.
Proof.
  induction s as [|d s [p IH]]; cbn [trimStart]; [exists []; reflexivity|].
  destruct (is_space d).
  - exists (d :: p). cbn [app]. f_equal. exact IH.
  - exists []. reflexivity.
Qed.

(** [trim] leaves no white space at either end. *)
Lemma trim_ends s :
  (forall c t, trim s = c :: t -> is_space c = false) /\
  (forall t c, trim s = t ++ [c] -> is_space c = false).
Proof.
  unfold trim. split.
  - intros c t H.
    destruct (trimStart_suffix (rev (trimStart s))) as [p Hp].
    apply (f_equal (@rev N)) in Hp. rewrite rev_involutive, rev_app_distr, H in Hp.
    cbn [app] in Hp. exact (trimStart_head _ _ _ Hp).
  - intros t c H.
    apply (f_equal (@rev N)) in H.
    rewrite rev_involutive, rev_app_distr in H. cbn [rev app] in H.
    exact (trimStart_head _ _ _ H).
Qed.

Lemma first_field_app a rest :
  44 ∉ a ->
  match rest with [] => True | c :: _ => c = 44 end ->
  first_field (a ++ rest) = a.
Proof.
  intros Ha Hrest. induction a as [|c a IH]; cbn [app first_field].
  - destruct rest as [|d rest]; [reflexivity|]. subst d. reflexivity.
  - apply not_elem_of_cons in Ha as [Hc Ha].
    destruct (N.eqb_spec c 44) as [->|_]; [contradiction|].
    f_equal. apply IH. exact Ha.
Qed.

(** X13.  Callers share a bucket of the limiter only if they are the same
    signed-in user or both anonymous: two requests with the same
    identifier carry the same (non-empty) Clerk user id, or neither
    carries one.  A signed-in user is never counted with another user nor
    with an address. *)
Theorem getIdentifier_separates r1 r2 :
  getIdentifier r1 = getIdentifier r2 ->
  nonempty (hdr_clerkUserId r1) = nonempty (hdr_clerkUserId r2).
Proof.
  unfold getIdentifier.
  change (lit "user:") with [117; 115; 101; 114; 58].
  change (lit "ip:") with [105; 112; 58].
  destruct (nonempty (hdr_clerkUserId r1)) as [a|],
           (nonempty (hdr_clerkUserId r2)) as [b|]; cbn [app].
  - intros [= ->]. reflexivity.
  - discriminate.
  - discriminate.
  - reflexivity.
Qed.

Lemma getIdentifier_separates_witness :
  nonempty (hdr_clerkUserId
              (mkRequest (Some (lit "u1")) (Some (lit "10.0.0.1")) None None []))
  = nonempty (hdr_clerkUserId
                (mkRequest (Some (lit "u1")) None (Some (lit "10.0.0.2")) None [])).
Proof.
  apply getIdentifier_separates. vm_compute. reflexivity.
Defined.

(** X14.  Without a Clerk user id the caller is identified by the first
    entry of the x-forwarded-for header, without the white space around
    it: the entries after the first comma and the x-real-ip header play
    no part. *)
Theorem getIdentifier_forwarded req a rest :
  nonempty (hdr_clerkUserId req) = None ->
  hdr_forwardedFor req = Some (a ++ rest) ->
  44 ∉ a ->
  match rest with [] => True | c :: _ => c = 44 end ->
  trim a <> [] ->
  getIdentifier req = lit "ip:" ++ trim a /\
  (forall c t, trim a = c :: t -> is_space c = false) /\
  (forall t c, trim a = t ++ [c] -> is_space c = false).
Proof.
  intros Hc Hf Ha Hrest Hne. split; [|apply trim_ends].
  unfold getIdentifier. rewrite Hc, Hf, first_field_app by assumption.
  destruct (trim a) as [|c t]; [contradiction|]. reflexivity.
Qed.

Lemma getIdentifier_forwarded_witness :
  getIdentifier
    (mkRequest None (Some (lit " 10.0.0.1 , 172.16.0.9")) (Some (lit "10.9.9.9"))
       None []) = lit "ip:10.0.0.1".
Proof.
  destruct (getIdentifier_forwarded
              (mkRequest None (Some (lit " 10.0.0.1 , 172.16.0.9"))
                 (Some (lit "10.9.9.9")) None [])
              (lit " 10.0.0.1 ") (lit ", 172.16.0.9")
              ltac:(reflexivity) ltac:(reflexivity)
              ltac:(apply (bool_decide_unpack _); vm_compute; exact I)
              ltac:(reflexivity)
              ltac:(vm_compute; discriminate)) as [H _].
  rewrite H. vm_compute. reflexivity.
Defined.

(** ** The chat endpoint *)

(** [generateResponse] returns the cleaned text of the model or throws,
    after one call of the model, and touches nothing but the event log. *)
Lemma generateResponse_frame env messages projectId w :
  exists evs,
    prompts evs = [Chat.fullPrompt messages projectId] /\
    Chat.generateResponse env messages projectId w =
      (match generateText env (Chat.fullPrompt messages projectId) with
       | Some text => Val (Chat.clean text)
       | None => Throw ServiceUnavailable
       end,
       mkWorld (projects w) (screens w) (promptHistory w) (limiter w)
               (evs ++ events w)).
Proof.
  unfold Chat.generateResponse, try_catch, bind, callModel, bind, emit.
  destruct (generateText env _) as [text|].
  - exists [EvModelCall (Chat.fullPrompt messages projectId)].
    split; reflexivity.
  - exists [EvConsoleError (lit "[Chat] Minimax failed:") ModelFailure;
            EvModelCall (Chat.fullPrompt messages projectId)].
    split; reflexivity.
Qed.

(** X15.  The chat endpoint answers with one of three responses: the 429
    of the rate limiter, the 400 of a body that does not fit the schema,
    or a 200 with a text.  There is no 401 (the handler never asks who is
    calling) and no 500 (whatever goes wrong behind the validation is
    answered with a 200), and no project, screen or prompt-history row is
    ever written. *)
Theorem chat_POST_responses env req w r w' :
  Chat.POST env req w = (r, w') ->
  (r = Chat.mkChatResponse 429 (Chat.CLimiter BRateLimited) \/
   r = Chat.mkChatResponse 400 Chat.CInvalid \/
   exists text, r = Chat.mkChatResponse 200 (Chat.CText text)) /\
  projects w' = projects w /\ screens w' = screens w /\
  promptHistory w' = promptHistory w.
Proof.
  pose proof (rateLimit_frame RATE_LIMITS_strict env req w)
    as (Hp1 & Hs1 & Hh1 & _).
  cbv zeta in Hp1, Hs1, Hh1. unfold Chat.POST.
  destruct (rateLimit RATE_LIMITS_strict env req w) as [[rl|] w1] eqn:Hrl;
    cbn [fst snd] in *.
  { intros [= <- <-]. split; [|auto]. left.
    unfold rateLimit in Hrl. destruct (check _ _ _ _) as [[] l];
      [discriminate Hrl | injection Hrl as <- _]. reflexivity. }
  unfold Chat.handle, bind at 1, req_json.
  destruct (Json.parse (body req)) as [bodyv|]; cbn [ret throw].
  - destruct (Chat.chatBodySchema bodyv) as [[messages projectId]|].
    + unfold bind.
      destruct (generateResponse_frame env messages projectId w1)
        as (evs & _ & ->).
      destruct (generateText env _) as [text|]; cbn; intros [= <- <-]; cbn;
        (split; [right; right; eexists; reflexivity | auto]).
    + cbn. intros [= <- <-]. split; [right; left; reflexivity | auto].
  - cbn. intros [= <- <-]. cbn.
    split; [right; right; eexists; reflexivity | auto].
Qed.

Lemma chat_POST_responses_witness :
  projects (snd (Chat.POST (ex_env (Some Chat.markdown_text))
                   (ex_request None Chat.body_hello) ex_world))
  = projects ex_world.
Proof.
  destruct (chat_POST_responses (ex_env (Some Chat.markdown_text))
              (ex_request None Chat.body_hello) ex_world
              (fst (Chat.POST (ex_env (Some Chat.markdown_text))
                      (ex_request None Chat.body_hello) ex_world))
              (snd (Chat.POST (ex_env (Some Chat.markdown_text))
                      (ex_request None Chat.body_hello) ex_world))
              ltac:(vm_compute; reflexivity)) as (_ & H & _).
  exact H.
Defined.

(** X16.  Behind the rate limit, a failure is reported as a success: when
    the body is not JSON, or when the body is valid and the call of the
    model rejects or times out, the response is a 200 whose text is the
    fixed apology.  In the first case the model is not called. *)
Theorem chat_POST_apology env req w :
  fst (rateLimit RATE_LIMITS_strict env req w) = None ->
  match Json.parse (body req) with
  | None => True
  | Some bodyv =>
      match Chat.chatBodySchema bodyv with
      | Some (messages, projectId) =>
          generateText env (Chat.fullPrompt messages projectId) = None
      | None => False
      end
  end ->
  fst (Chat.POST env req w) = Chat.mkChatResponse 200 (Chat.CText Chat.apology) /\
  (Json.parse (body req) = None ->
   model_calls (snd (Chat.POST env req w)) = model_calls w).
Proof.
  intros Hrl Hfail.
  pose proof (rateLimit_frame RATE_LIMITS_strict env req w) as (_ & _ & _ & He1).
  cbv zeta in He1. unfold Chat.POST, model_calls.
  destruct (rateLimit RATE_LIMITS_strict env req w) as [rl w1].
  cbn [fst snd] in *. subst rl.
  unfold Chat.handle, bind at 1, req_json.
  destruct (Json.parse (body req)) as [bodyv|]; cbn [ret throw].
  - split; [|discriminate].
    destruct (Chat.chatBodySchema bodyv) as [[messages projectId]|];
      [|contradiction].
    unfold bind.
    destruct (generateResponse_frame env messages projectId w1)
      as (evs & _ & ->).
    rewrite Hfail. reflexivity.
  - cbn. split; [reflexivity|]. intros _. rewrite He1. reflexivity.
Qed.

Lemma chat_POST_apology_witness :
  fst (Chat.POST (ex_env None) (ex_request None (lit "oops")) ex_world) =
    Chat.mkChatResponse 200 (Chat.CText Chat.apology) /\
  fst (Chat.POST (ex_env None) (ex_request None Chat.body_hello) ex_world) =
    Chat.mkChatResponse 200 (Chat.CText Chat.apology).
Proof.
  split.
  - apply (chat_POST_apology (ex_env None) (ex_request None (lit "oops"))
             ex_world ltac:(vm_compute; reflexivity)
             ltac:(vm_compute; exact I)).
  - apply (chat_POST_apology (ex_env None) (ex_request None Chat.body_hello)
             ex_world ltac:(vm_compute; reflexivity)
             ltac:(vm_compute; reflexivity)).
Defined.

(** X17.  A valid request that the model answers gets a 200 with the
    cleaned answer.  The model is called once, with the prompt made of
    the system prompt, the messages in order and the assistant cue, and
    the text of the response has no white space at either end. *)
Theorem chat_POST_text env req w bodyv messages projectId text :
  fst (rateLimit RATE_LIMITS_strict env req w) = None ->
  Json.parse (body req) = Some bodyv ->
  Chat.chatBodySchema bodyv = Some (messages, projectId) ->
  generateText env (Chat.fullPrompt messages projectId) = Some text ->
  fst (Chat.POST env req w) =
    Chat.mkChatResponse 200 (Chat.CText (Chat.clean text)) /\
  model_calls (snd (Chat.POST env req w)) =
    Chat.fullPrompt messages projectId :: model_calls w /\
  (forall c t, Chat.clean text = c :: t -> is_space c = false) /\
  (forall t c, Chat.clean text = t ++ [c] -> is_space c = false).
Proof.
  intros Hrl Hb Hv Hg.
  pose proof (rateLimit_frame RATE_LIMITS_strict env req w) as (_ & _ & _ & He1).
  cbv zeta in He1.
  destruct (Chat.POST env req w) as [r w'] eqn:E. cbn [fst snd].
  unfold Chat.POST in E. unfold model_calls.
  destruct (rateLimit RATE_LIMITS_strict env req w) as [rl w1].
  cbn [fst snd] in *. subst rl.
  unfold Chat.handle, bind at 1, req_json in E. rewrite Hb in E.
  cbn [ret] in E. rewrite Hv in E. unfold bind in E.
  destruct (generateResponse_frame env messages projectId w1)
    as (evs & Hevs & Hgr).
  rewrite Hgr, Hg in E. unfold ret in E. injection E as <- <-.
  cbn [events]. rewrite prompts_app, Hevs, He1.
  split; [reflexivity|]. split; [reflexivity|].
  unfold Chat.clean. apply trim_ends.
Qed.

Lemma chat_POST_text_witness :
  fst (Chat.POST (ex_env (Some Chat.markdown_text))
         (ex_request None Chat.body_hello) ex_world) =
    Chat.mkChatResponse 200 (Chat.CText (lit "Use  and flex here.")).
Proof.
  destruct (chat_POST_text (ex_env (Some Chat.markdown_text))
              (ex_request None Chat.body_hello) ex_world
              (VObj [ (lit "messages",
                       VArr [ VObj [ (lit "role", VStr (lit "user"));
                                     (lit "content", VStr (lit "hello")) ] ]) ])
              [Chat.mkMessage (lit "user") (lit "hello")] None
              Chat.markdown_text
              ltac:(vm_compute; reflexivity) ltac:(vm_compute; reflexivity)
              ltac:(vm_compute; reflexivity) ltac:(reflexivity))
    as (H & _).
  rewrite H. vm_compute. reflexivity.
Defined.

Lemma chatBodySchema_valid b messages projectId :
  Chat.chatBodySchema b = Some (messages, projectId) ->
  messages <> [] /\
  Forall (fun m => Chat.is_role (Chat.role m) = true) messages.
Proof.
  unfold Chat.chatBodySchema. destruct b; try discriminate.
  destruct (get_prop _ (lit "messages")) as [| | | | |[|v vs]|]; try discriminate.
  destruct (mapM Chat.message_of (v :: vs)) as [ms|] eqn:E; [|discriminate].
  intros H.
  assert (ms = messages) as ->
    by (destruct (get_prop _ (lit "projectId")); congruence).
  clear H. apply mapM_Some in E. split.
  - intros ->. inversion E.
  - clear -E. induction E as [|x m l k Hx _ IH]; constructor; [|exact IH].
    unfold Chat.message_of in Hx. destruct x; try discriminate.
    destruct (get_prop _ (lit "role")); try discriminate.
    destruct (get_prop _ (lit "content")); try discriminate.
    destruct (Chat.is_role s) eqn:Hr; [|discriminate].
    injection Hx as <-. exact Hr.
Qed.

(** X18.  The model is asked only on behalf of a valid conversation: when
    a request makes the chat endpoint call the model, its body passed the
    schema, there is at least one message, every message has one of the
    roles user, assistant and system, and the model was called once, with
    the prompt built from those messages. *)
Theorem chat_POST_model_called env req w :
  model_calls (snd (Chat.POST env req w)) <> model_calls w ->
  exists bodyv messages projectId,
    Json.parse (body req) = Some bodyv /\
    Chat.chatBodySchema bodyv = Some (messages, projectId) /\
    messages <> [] /\
    Forall (fun m => Chat.is_role (Chat.role m) = true) messages /\
    model_calls (snd (Chat.POST env req w)) =
      Chat.fullPrompt messages projectId :: model_calls w.
Proof.
  pose proof (rateLimit_frame RATE_LIMITS_strict env req w) as (_ & _ & _ & He1).
  cbv zeta in He1.
  destruct (Chat.POST env req w) as [r w'] eqn:E. cbn [snd].
  unfold Chat.POST in E. unfold model_calls.
  destruct (rateLimit RATE_LIMITS_strict env req w) as [[rl|] w1];
    cbn [fst snd] in *.
  { injection E as <- <-. rewrite He1. contradiction. }
  unfold Chat.handle, bind at 1, req_json in E.
  destruct (Json.parse (body req)) as [bodyv|];
    [|injection E as <- <-; cbn [events]; rewrite He1; contradiction].
  cbn [ret] in E.
  destruct (Chat.chatBodySchema bodyv) as [[messages projectId]|] eqn:Hv;
    [|injection E as <- <-; rewrite He1; contradiction].
  intros _. exists bodyv, messages, projectId.
  destruct (chatBodySchema_valid _ _ _ Hv) as [Hne Hroles].
  repeat (split; [reflexivity || assumption|]).
  unfold bind in E.
  destruct (generateResponse_frame env messages projectId w1)
    as (evs & Hevs & Hgr).
  rewrite Hgr in E.
  destruct (generateText env _); injection E as <- <-; cbn [events prompts];
    rewrite prompts_app, Hevs, He1; reflexivity.
Qed.

Lemma chat_POST_model_called_witness :
  model_calls (snd (Chat.POST (ex_env None) (ex_request None Chat.body_hello)
                      ex_world)) =
  [Chat.fullPrompt [Chat.mkMessage (lit "user") (lit "hello")] None].
Proof.
  destruct (chat_POST_model_called (ex_env None)
              (ex_request None Chat.body_hello) ex_world
              ltac:(vm_compute; discriminate))
    as (bodyv & messages & projectId & _ & _ & _ & _ & _).
  vm_compute. reflexivity.
Defined.

(** ** The clean-up of the chat answer *)

(** The countdown of [replace_all] is never reached: every round starts
    from a shorter text. *)
Lemma replace_all_fuel r f :
  forall n m s,
    (length s < n)%nat -> (length s < m)%nat ->
    replace_all n r f s = replace_all m r f s.
Proof.
  induction n as [|n IH]; intros m s Hn Hm; [lia|].
  destruct m as [|m]; [lia|]. cbn [replace_all].
  destruct (search r 0 s) as [res|] eqn:E; [|reflexivity].
  apply search_bounds in E as [_ E]. f_equal. f_equal.
  destruct (m_whole res) as [|c whole] eqn:Ew.
  - destruct (drop _ s) as [|d rest'] eqn:Ed; [reflexivity|].
    assert (Hl : length (drop (m_index res + length (@nil N)) s)
                 = S (length rest')) by (rewrite Ed; reflexivity).
    rewrite length_drop in Hl. f_equal. apply IH; lia.
  - cbn [length] in E.
    apply IH; rewrite length_drop; cbn [length]; lia.
Qed.

Lemma replace_all_no_match fuel r f s :
  search r 0 s = None -> replace_all fuel r f s = s.
Proof. intros H. destruct fuel; cbn [replace_all]; [|rewrite H]; reflexivity. Qed.

(** An expression that begins with a literal character matches nowhere
    in a text without that character. *)
Lemma search_needs_first c r s :
  c ∉ s -> forall idx, search (Seq (Class (CChar c)) r) idx s = None.
Proof.
  induction s as [|d s IH]; intros Hn idx; [reflexivity|].
  apply not_elem_of_cons in Hn as [Hd Hn].
  cbn [search run in_class].
  destruct (N.eqb_spec d c) as [->|_]; [contradiction|].
  apply IH. exact Hn.
Qed.

Lemma search_fence_none s :
  96 ∉ s -> forall idx, search Chat.re_fence idx s = None.
Proof.
  induction s as [|d s IH]; intros Hn idx; [reflexivity|].
  apply not_elem_of_cons in Hn as [Hd Hn].
  change (search Chat.re_fence idx (d :: s)) with
    (match (if d =? 96
            then run (Seq (Class (CChar 96)) (Class (CChar 96))) s None
                   (fun s' cap' =>
                      run (Seq (LazyStar (Class CAny)) (Str (lit "```")))
                          s' cap' (fun rest cap => Some (rest, cap)))
            else None) with
     | Some (rest, cap) =>
         Some (mkMatch idx (take (length (d :: s) - length rest) (d :: s)) cap)
     | None => search Chat.re_fence (S idx) s
     end).
  destruct (N.eqb_spec d 96) as [->|_]; [contradiction|].
  apply IH. exact Hn.
Qed.

Lemma search_inline_none s :
  96 ∉ s -> forall idx, search Chat.re_inline idx s = None.
Proof. apply search_needs_first. Qed.

(** X19.  An answer without a backtick passes through the clean-up
    unchanged but for the white space at its ends. *)
Theorem chat_clean_plain text :
  96 ∉ text -> Chat.clean text = trim text.
Proof.
  intros H. unfold Chat.clean, js_replace_g.
  rewrite (replace_all_no_match _ Chat.re_fence) by (apply search_fence_none, H).
  rewrite replace_all_no_match by (apply search_inline_none, H).
  reflexivity.
Qed.

Lemma chat_clean_plain_witness :
  Chat.clean (lit "  Use flex and gap-4.  ") = lit "Use flex and gap-4.".
Proof.
  rewrite chat_clean_plain.
  - vm_compute. reflexivity.
  - apply (bool_decide_unpack _). vm_compute. exact I.
Defined.

(** *** A fenced block *)

Lemma run_fence_head d s :
  (d =? 96) = false ->
  run Chat.re_fence (d :: s) None (fun rest cap => Some (rest, cap)) = None.
Proof.
  intros H.
  change (run Chat.re_fence (d :: s) None (fun rest cap => Some (rest, cap)))
    with (if d =? 96
          then run (Seq (Class (CChar 96)) (Class (CChar 96))) s None
                 (fun s' cap' =>
                    run (Seq (LazyStar (Class CAny)) (Str (lit "```")))
                        s' cap' (fun rest cap => Some (rest, cap)))
          else None).
  rewrite H. reflexivity.
Qed.

Lemma run_fence_open s :
  run Chat.re_fence (96 :: 96 :: 96 :: s) None (fun rest cap => Some (rest, cap)) =
  lazy_loop (run (Class CAny))
    (fun s' cap' => run (Str (lit "```")) s' cap' (fun rest cap => Some (rest, cap)))
    (length s) s None.
Proof. reflexivity. Qed.

Lemma lazy_until_fence post :
  forall code n,
    96 ∉ code -> (length code <= n)%nat ->
    lazy_loop (run (Class CAny))
      (fun s' cap' =>
         run (Str (lit "```")) s' cap' (fun rest cap => Some (rest, cap)))
      n (code ++ 96 :: 96 :: 96 :: post) None = Some (post, None).
Proof.
  induction code as [|c code IH]; intros n Hn Hlen.
  - destruct n; reflexivity.
  - apply not_elem_of_cons in Hn as [Hc Hn].
    destruct n as [|n]; [cbn in Hlen; lia|].
    cbn [app].
    change (lazy_loop (run (Class CAny))
              (fun s' cap' =>
                 run (Str (lit "```")) s' cap'
                     (fun rest cap => Some (rest, cap)))
              (S n) (c :: code ++ 96 :: 96 :: 96 :: post) None)
      with (or_else
              (if c =? 96
               then run (Seq (Class (CChar 96)) (Class (CChar 96)))
                      (code ++ 96 :: 96 :: 96 :: post) None
                      (fun rest cap => Some (rest, cap))
               else None)
              (if Nat.ltb (length (code ++ 96 :: 96 :: 96 :: post))
                          (length (c :: code ++ 96 :: 96 :: 96 :: post))
               then lazy_loop (run (Class CAny))
                      (fun s' cap' =>
                         run (Str (lit "```")) s' cap'
                             (fun rest cap => Some (rest, cap)))
                      n (code ++ 96 :: 96 :: 96 :: post) None
               else None)).
    destruct (N.eqb_spec c 96) as [->|_]; [contradiction|].
    cbn [or_else length].
    replace (Nat.ltb (length (code ++ 96 :: 96 :: 96 :: post))
                     (S (length (code ++ 96 :: 96 :: 96 :: post)))) with true
      by (symmetry; apply Nat.ltb_lt; lia).
    apply IH; [exact Hn | cbn in Hlen; lia].
Qed.

Lemma search_fence_at pre code post :
  96 ∉ pre -> 96 ∉ code ->
  forall idx,
    search Chat.re_fence idx
      (pre ++ 96 :: 96 :: 96 :: code ++ 96 :: 96 :: 96 :: post) =
    Some (mkMatch (idx + length pre)
            (96 :: 96 :: 96 :: code ++ [96; 96; 96]) None).
Proof.
  intros Hpre Hcode. induction pre as [|d pre IH]; intros idx.
  - cbn [app search]. rewrite run_fence_open.
    rewrite lazy_until_fence by (rewrite ?length_app; cbn [length]; auto; lia).
    f_equal. f_equal; [cbn; lia|].
    replace (Nat.sub (length (96 :: 96 :: 96 :: code ++ 96 :: 96 :: 96 :: post))
                     (length post))
      with (length (96 :: 96 :: 96 :: code ++ [96; 96; 96]))
      by (cbn [length]; rewrite !length_app; cbn [length]; lia).
    replace (96 :: 96 :: 96 :: code ++ 96 :: 96 :: 96 :: post)
      with ((96 :: 96 :: 96 :: code ++ [96; 96; 96]) ++ post)
      by (cbn [app]; rewrite <- app_assoc; reflexivity).
    apply take_app_length.
  - apply not_elem_of_cons in Hpre as [Hd Hpre].
    cbn [app search]. rewrite run_fence_head by (apply N.eqb_neq; congruence).
    rewrite IH by exact Hpre. cbn [length]. f_equal. f_equal. lia.
Qed.

Lemma replace_fence pre code post :
  96 ∉ pre -> 96 ∉ code -> 96 ∉ post ->
  js_replace_g Chat.re_fence to_empty
    (pre ++ 96 :: 96 :: 96 :: code ++ 96 :: 96 :: 96 :: post) = pre ++ post.
Proof.
  intros Hpre Hcode Hpost. unfold js_replace_g. cbn [replace_all].
  rewrite search_fence_at by assumption.
  cbn [m_index m_whole to_empty app Nat.add].
  rewrite take_app_length. f_equal.
  replace (drop _ _) with post.
  - apply replace_all_no_match, search_fence_none, Hpost.
  - replace (96 :: 96 :: 96 :: code ++ 96 :: 96 :: 96 :: post)
      with ((96 :: 96 :: 96 :: code ++ [96; 96; 96]) ++ post)
      by (cbn [app]; rewrite <- app_assoc; reflexivity).
    rewrite app_assoc. symmetry. apply drop_app_length'.
    rewrite length_app. reflexivity.
Qed.

(** X20.  A fenced block is removed with its fences: in an answer with
    one block between triple backticks and no other backtick, the
    clean-up leaves the text before and after the block, joined, without
    the white space at the ends. *)
Theorem chat_clean_fence pre code post :
  96 ∉ pre -> 96 ∉ code -> 96 ∉ post ->
  Chat.clean (pre ++ lit "```" ++ code ++ lit "```" ++ post) =
  trim (pre ++ post).
Proof.
  intros Hpre Hcode Hpost. unfold Chat.clean.
  change (lit "```") with [96; 96; 96]. cbn [app].
  rewrite replace_fence by assumption.
  unfold js_replace_g. rewrite replace_all_no_match; [reflexivity|].
  apply search_inline_none. rewrite elem_of_app. tauto.
Qed.

Lemma chat_clean_fence_witness :
  Chat.clean (lit "Try: ```<div class='p-4'/>``` done. ") = lit "Try:  done.".
Proof.
  change (lit "Try: ```<div class='p-4'/>``` done. ")
    with (lit "Try: " ++ lit "```" ++ lit "<div class='p-4'/>" ++ lit "```" ++
          lit " done. ").
  rewrite chat_clean_fence.
  - vm_compute. reflexivity.
  - apply (bool_decide_unpack _). vm_compute. exact I.
  - apply (bool_decide_unpack _). vm_compute. exact I.
  - apply (bool_decide_unpack _). vm_compute. exact I.
Defined.

(** *** An inline code span *)

Lemma run_fence_second a b s :
  (b =? 96) = false ->
  run Chat.re_fence (a :: b :: s) None (fun rest cap => Some (rest, cap)) = None.
Proof.
  intros H.
  change (run Chat.re_fence (a :: b :: s) None
            (fun rest cap => Some (rest, cap)))
    with (if a =? 96
          then if b =? 96
               then run (Class (CChar 96)) s None
                      (fun s' cap' =>
                         run (Seq (LazyStar (Class CAny)) (Str (lit "```")))
                             s' cap' (fun rest cap => Some (rest, cap)))
               else None
          else None).
  rewrite H. destruct (a =? 96); reflexivity.
Qed.

Lemma run_fence_single a :
  run Chat.re_fence [a] None (fun rest cap => Some (rest, cap)) = None.
Proof.
  change (run Chat.re_fence [a] None (fun rest cap => Some (rest, cap)))
    with (if a =? 96 then @None (jsstring * option jsstring) else None).
  destruct (a =? 96); reflexivity.
Qed.

(** A text whose backticks stand alone holds no fence. *)
Lemma search_fence_after code post :
  96 ∉ code -> 96 ∉ post ->
  forall idx, search Chat.re_fence idx (code ++ 96 :: post) = None.
Proof.
  intros Hcode Hpost. induction code as [|c code IH]; intros idx.
  - cbn [app search]. destruct post as [|p post].
    + rewrite run_fence_single. reflexivity.
    + apply not_elem_of_cons in Hpost as Hp. destruct Hp as [Hp _].
      rewrite run_fence_second by (apply N.eqb_neq; congruence).
      apply search_fence_none. exact Hpost.
  - apply not_elem_of_cons in Hcode as [Hc Hcode].
    cbn [app search]. rewrite run_fence_head by (apply N.eqb_neq; congruence).
    apply IH. exact Hcode.
Qed.

Lemma search_fence_isolated pre c code post :
  96 ∉ pre -> 96 ∉ c :: code -> 96 ∉ post ->
  forall idx,
    search Chat.re_fence idx (pre ++ 96 :: c :: code ++ 96 :: post) = None.
Proof.
  intros Hpre Hcode Hpost. induction pre as [|d pre IH]; intros idx.
  - cbn [app search].
    apply not_elem_of_cons in Hcode as Hc. destruct Hc as [Hc _].
    rewrite run_fence_second by (apply N.eqb_neq; congruence).
    apply (search_fence_after (c :: code) post Hcode Hpost).
  - apply not_elem_of_cons in Hpre as [Hd Hpre].
    cbn [app search]. rewrite run_fence_head by (apply N.eqb_neq; congruence).
    apply IH. exact Hpre.
Qed.

(** The greedy run of characters other than the backtick stops at the
    backtick. *)
Lemma star_not_until {R} (k : @cont R) post x :
  forall code n cap,
    96 ∉ code -> (length code <= n)%nat ->
    k (96 :: post) cap = Some x ->
    star_loop (run (Class (CNot 96))) k n (code ++ 96 :: post) cap = Some x.
Proof.
  induction code as [|c code IH]; intros n cap Hn Hlen Hk.
  - cbn [app]. destruct n; cbn [star_loop run in_class]; [exact Hk|].
    cbn. exact Hk.
  - apply not_elem_of_cons in Hn as [Hc Hn].
    destruct n as [|n]; [cbn in Hlen; lia|].
    cbn [app star_loop run in_class].
    destruct (N.eqb_spec c 96) as [->|_]; [contradiction|].
    cbn [negb length].
    replace (Nat.ltb (length (code ++ 96 :: post))
                     (S (length (code ++ 96 :: post)))) with true
      by (symmetry; apply Nat.ltb_lt; lia).
    rewrite IH; [reflexivity | exact Hn | cbn in Hlen; lia | exact Hk].
Qed.

Lemma run_inline_head d s :
  (d =? 96) = false ->
  run Chat.re_inline (d :: s) None (fun rest cap => Some (rest, cap)) = None.
Proof.
  intros H. unfold Chat.re_inline. cbn [Seqs run in_class]. rewrite H.
  reflexivity.
Qed.

Lemma run_inline_at c code post :
  96 ∉ c :: code ->
  run Chat.re_inline (96 :: c :: code ++ 96 :: post) None
      (fun rest cap => Some (rest, cap)) =
  Some (post, Some (c :: code)).
Proof.
  intros Hcode. apply not_elem_of_cons in Hcode as [Hc Hcode].
  change (run Chat.re_inline (96 :: c :: code ++ 96 :: post) None
            (fun rest cap => Some (rest, cap)))
    with (if negb (c =? 96)
          then star_loop (run (Class (CNot 96)))
                 (fun s' (_ : option jsstring) =>
                    run (Class (CChar 96)) s'
                      (Some (take (length ((c :: code) ++ 96 :: post) - length s')
                                  ((c :: code) ++ 96 :: post)))
                      (fun rest cap => Some (rest, cap)))
                 (length (code ++ 96 :: post)) (code ++ 96 :: post) None
          else None).
  destruct (N.eqb_spec c 96) as [->|_]; [contradiction|]. cbn [negb].
  apply star_not_until; [exact Hcode | rewrite length_app; lia|].
  cbn [run in_class]. rewrite N.eqb_refl. f_equal. f_equal. f_equal.
  replace (Nat.sub (length ((c :: code) ++ 96 :: post)) (length (96 :: post)))
    with (length (c :: code)) by (rewrite length_app; cbn [length]; lia).
  apply take_app_length.
Qed.

Lemma search_inline_at pre c code post :
  96 ∉ pre -> 96 ∉ c :: code ->
  forall idx,
    search Chat.re_inline idx (pre ++ 96 :: c :: code ++ 96 :: post) =
    Some (mkMatch (idx + length pre) (96 :: c :: code ++ [96])
                  (Some (c :: code))).
Proof.
  intros Hpre Hcode. induction pre as [|d pre IH]; intros idx.
  - cbn [app search]. rewrite (run_inline_at c code post Hcode).
    f_equal. f_equal; [cbn; lia|].
    replace (96 :: c :: code ++ 96 :: post)
      with ((96 :: c :: code ++ [96]) ++ post)
      by (cbn [app]; rewrite <- app_assoc; reflexivity).
    replace (Nat.sub (length ((96 :: c :: code ++ [96]) ++ post)) (length post))
      with (length (96 :: c :: code ++ [96]))
      by (rewrite length_app; lia).
    apply take_app_length.
  - apply not_elem_of_cons in Hpre as [Hd Hpre].
    cbn [app search].
    rewrite run_inline_head by (apply N.eqb_neq; congruence).
    rewrite IH by exact Hpre. cbn [length]. f_equal. f_equal. lia.
Qed.

Lemma replace_inline pre c code post :
  96 ∉ pre -> 96 ∉ c :: code -> 96 ∉ post ->
  js_replace_g Chat.re_inline to_group1
    (pre ++ 96 :: c :: code ++ 96 :: post) = pre ++ c :: code ++ post.
Proof.
  intros Hpre Hcode Hpost. unfold js_replace_g. cbn [replace_all].
  rewrite search_inline_at by assumption.
  unfold to_group1 at 1.
  cbn [m_index m_whole m_group Nat.add default from_option id].
  rewrite take_app_length. f_equal.
  cbn [app]. do 2 f_equal.
  replace (drop _ _) with post.
  - apply replace_all_no_match, search_inline_none, Hpost.
  - replace (96 :: c :: code ++ 96 :: post)
      with ((96 :: c :: code ++ [96]) ++ post)
      by (cbn [app]; rewrite <- app_assoc; reflexivity).
    rewrite app_assoc. symmetry. apply drop_app_length'.
    rewrite length_app. reflexivity.
Qed.

(** X21.  An inline code span loses its backticks and keeps its text: in
    an answer with one non-empty span between two backticks and no other
    backtick, the clean-up leaves the text with the span's content in
    place, without the white space at the ends. *)
Theorem chat_clean_inline pre code post :
  96 ∉ pre -> 96 ∉ code -> code <> [] -> 96 ∉ post ->
  Chat.clean (pre ++ lit "`" ++ code ++ lit "`" ++ post) =
  trim (pre ++ code ++ post).
Proof.
  intros Hpre Hcode Hne Hpost. unfold Chat.clean.
  change (lit "`") with [96]. cbn [app].
  destruct code as [|c code]; [contradiction|]. cbn [app].
  unfold js_replace_g at 2.
  rewrite replace_all_no_match
    by (apply (search_fence_isolated pre c code post); assumption).
  rewrite (replace_inline pre c code post) by assumption.
  reflexivity.
Qed.

Lemma chat_clean_inline_witness :
  Chat.clean (lit "Use `flex gap-4` on the row.") =
  lit "Use flex gap-4 on the row.".
Proof.
  change (lit "Use `flex gap-4` on the row.")
    with (lit "Use " ++ lit "`" ++ lit "flex gap-4" ++ lit "`" ++
          lit " on the row.").
  rewrite chat_clean_inline.
  - vm_compute. reflexivity.
  - apply (bool_decide_unpack _). vm_compute. exact I.
  - apply (bool_decide_unpack _). vm_compute. exact I.
  - vm_compute. discriminate.
  - apply (bool_decide_unpack _). vm_compute. exact I.
Defined.
